(** * UGCGameplayMessageRouter: a shallow embedding of the two message routers

    The development follows
    [Source/GameplayMessageRuntime/Private/GameFramework/GameplayWorldMessageSubsystem.cpp]
    (which holds both [UGameplayMessageSubsystem] and
    [UGameplayWorldMessageSubsystem]) and the headers next to it.

    - engine types the plugin only consumes (gameplay tags, weak object
      pointers, [TArray], [TMap]) are given small models in [Engine];
    - listener callbacks are user code: they are represented by scripts of
      calls into the router's public interface, so that re-entrant
      registration, unregistration, cancellation and nested broadcasts can
      be executed;
    - [check(...)] failures and the fuel bound on nested broadcasts are
      explicit results of type [Outcome]. *)

From Stdlib Require Import ZArith List Bool Lia Sorted QArith Qround Lqa.
From stdpp Require Import base option list sorting gmap strings.
Import ListNotations.

Local Open Scope Z_scope.
Set Warnings "-register-all,-clear-no-such-hyp".

(** ** Engine types *)

Module Engine.

(** 32-bit signed arithmetic: the result of [++Counter] on an [int32]
    counter holding [z - 1], with two's-complement wrap-around. *)
Definition INT32_MAX : Z := 2147483647.
Definition wrap32 (z : Z) : Z := (z + 2 ^ 31) mod 2 ^ 32 - 2 ^ 31.

(** Object identities ([UObject*], [const UScriptStruct*], [this]).
    [nullptr] is the identity [0]. *)
Definition ObjectPtr := nat.
Bind Scope nat_scope with ObjectPtr.
Definition nullptr : ObjectPtr := 0%nat.

(** [TWeakObjectPtr]: never assigned / assigned [nullptr], pointing to an
    object that has since been destroyed, or resolving to a live object. *)
Inductive TWeakObjectPtr : Type :=
| WeakNull
| WeakStale
| WeakLive (obj : ObjectPtr).

#[global] Instance TWeakObjectPtr_eq_dec : EqDecision TWeakObjectPtr.
Proof. solve_decision. Defined.

Definition MakeWeak (p : ObjectPtr) : TWeakObjectPtr :=
  if decide (p = nullptr) then WeakNull else WeakLive p.

Definition IsExplicitlyNull (p : TWeakObjectPtr) : bool :=
  match p with WeakNull => true | _ => false end.

Definition WeakIsValid (p : TWeakObjectPtr) : bool :=
  match p with WeakLive _ => true | _ => false end.

Definition WeakGet (p : TWeakObjectPtr) : ObjectPtr :=
  match p with WeakLive o => o | _ => nullptr end.

(** [operator==] on weak pointers: same live object, or both unresolvable. *)
Definition WeakEq (a b : TWeakObjectPtr) : bool :=
  match a, b with
  | WeakLive x, WeakLive y => bool_decide (x = y)
  | WeakLive _, _ | _, WeakLive _ => false
  | _, _ => true
  end.

(** Modelled from the spec: [FGameplayTag] belongs to the engine and is not
    part of the plugin's sources.  A channel is a dot-separated hierarchical
    label, kept here as its list of segments. *)
Definition FGameplayTag := list string.

Definition EmptyTag : FGameplayTag := [].

(** Modelled from the spec: "is-descendant-of-or-equal" on channel tags. *)
Fixpoint IsRootedAt (Parent Tag : FGameplayTag) : bool :=
  match Parent, Tag with
  | [], _ => true
  | p :: Parent', t :: Tag' => bool_decide (p = t) && IsRootedAt Parent' Tag'
  | _ :: _, [] => false
  end.

(** Modelled from the spec: [FGameplayTag::MatchesTagExact] is the "exact
    equality" of channel tags. *)
Definition MatchesTagExact (Tag TagToCheck : FGameplayTag) : bool :=
  bool_decide (Tag = TagToCheck).

(** Modelled from the spec: [FGameplayTag::MatchesTag] holds when the tag
    equals the tag it is checked against or is one of its descendants. *)
Definition MatchesTag (Tag TagToCheck : FGameplayTag) : bool :=
  IsRootedAt TagToCheck Tag.

(** [TArray] operations used by the routers. *)
Section TArray.
Context {A : Type}.

(** [Insert(Item, Index)] for [Index <= Num()]. *)
Definition Insert (Item : A) (Index : nat) (l : list A) : list A :=
  take Index l ++ Item :: drop Index l.

(** [IndexOfByPredicate]: first index satisfying the predicate, or
    [INDEX_NONE]. *)
Fixpoint IndexOfByPredicate (Pred : A -> bool) (l : list A) : option nat :=
  match l with
  | [] => None
  | x :: l' =>
      if Pred x then Some 0%nat
      else option_map S (IndexOfByPredicate Pred l')
  end.

(** [RemoveAtSwap(Index)]: the last element is moved into the hole. *)
Definition RemoveAtSwap (Index : nat) (l : list A) : list A :=
  match last l with
  | None => l
  | Some Last =>
      if decide (S Index = length l) then removelast l
      else if decide (Index < length l)%nat
           then <[Index := Last]> (removelast l)
           else l
  end.

(** [RemoveAll(Pred)]: order-preserving removal of every match. *)
Definition RemoveAll (Pred : A -> bool) (l : list A) : list A :=
  List.filter (fun x => negb (Pred x)) l.
End TArray.

(** Results of the modelled member functions: a value, a failed
    [check(...)] (which terminates the process), or exhaustion of the bound
    put on the nesting depth of broadcasts. *)
Inductive Outcome (A : Type) : Type :=
| Returned (a : A)
| CheckFailed
| OutOfFuel.
Arguments Returned {A} a.
Arguments CheckFailed {A}.
Arguments OutOfFuel {A}.

Definition bind {A B : Type} (m : Outcome A) (k : A -> Outcome B) : Outcome B :=
  match m with
  | Returned a => k a
  | CheckFailed => CheckFailed
  | OutOfFuel => OutOfFuel
  end.

End Engine.
Import Engine.

Notation "x <-! m ; k" := (bind m (fun x => k))
  (at level 100, m at next level, right associativity).

(** ** Shared message types ([GameplayMessageTypes2.h]) *)

Inductive EGameplayMessageMatch : Type := ExactMatch | PartialMatch.

#[global] Instance EGameplayMessageMatch_eq_dec : EqDecision EGameplayMessageMatch.
Proof. solve_decision. Defined.

Inductive EGameplayMessagePriority : Type :=
  HIGHEST | HIGHER | DEFAULT | LOWER | LOWEST | MONITOR.

(** [static_cast<int32>(Priority)] *)
Definition PriorityValue (p : EGameplayMessagePriority) : Z :=
  match p with
  | HIGHEST => 0 | HIGHER => 25 | DEFAULT => 50
  | LOWER => 75 | LOWEST => 100 | MONITOR => 255
  end.

Record FGameplayMessageBroadcastResult : Type := {
  bCancelled : bool;
  bInterrupted : bool
}.

(** [FGameplayMessageBroadcastResult::Reset] *)
Definition ResetResult : FGameplayMessageBroadcastResult :=
  {| bCancelled := false; bInterrupted := false |}.

(** Warnings sent to the log category of a subsystem. *)
Inductive LogLine : Type :=
| LogWarning (Message : string).

(** ** The priority scan shared by every registration path

    [RegisterListenerInternal] of both subsystems and
    [UpdateRegisterListenerLocation] contain the same loop:
<<
    int32 Index = Listeners.Num();
    for (int32 i = Listeners.Num() - 1; i >= 0; --i)
      if (Listeners[i].Priority > Priority) Index = i; else break;
>>
    [ScanFrom Num Num] runs it; the first argument counts the indices that
    are still to be visited. *)
Section PriorityScan.
Context {A : Type} (PriorityOf : A -> Z).

Fixpoint ScanFrom (Listeners : list A) (Priority : Z) (Remaining Index : nat) : nat :=
  match Remaining with
  | O => Index
  | S i =>
      match Listeners !! i with
      | Some L => if PriorityOf L >? Priority
                  then ScanFrom Listeners Priority i i
                  else Index
      | None => Index
      end
  end.

Definition InsertIndex (Listeners : list A) (Priority : Z) : nat :=
  ScanFrom Listeners Priority (length Listeners) (length Listeners).

Definition PriorityInsert (Item : A) (Listeners : list A) : list A :=
  Insert Item (InsertIndex Listeners (PriorityOf Item)) Listeners.

(** The order the listener arrays are meant to be in. *)
Definition PriorityLe (a b : A) : Prop := PriorityOf a <= PriorityOf b.
End PriorityScan.

(** ** [UGameplayMessageSubsystem]: the global router *)

Module MessageSubsystem.

(** [FGameplayMessageListenerHandle] *)
Record FGameplayMessageListenerHandle : Type := {
  Subsystem : TWeakObjectPtr;
  StructType : ObjectPtr;
  ID : Z
}.

(** The default-constructed handle. *)
Definition FreshHandle : FGameplayMessageListenerHandle :=
  {| Subsystem := WeakNull; StructType := nullptr; ID := 0 |}.

Definition IsValid (Handle : FGameplayMessageListenerHandle) : bool :=
  negb (ID Handle =? 0).

(** What a listener callback may do with the router while it runs.  The
    payload pointer handed to the callback is opaque to the router and is
    left out. *)
Inductive Call : Type :=
| CallRegisterListener (Channel : FGameplayTag) (Callback : list Call)
    (StructType : ObjectPtr) (MatchType : EGameplayMessageMatch)
    (Priority : Z) (TargetObject : TWeakObjectPtr)
| CallUnregisterListener (Handle : FGameplayMessageListenerHandle)
| CallCancelMessage (bCancel bInterrupt : bool)
| CallBroadcastMessage (Channel : FGameplayTag) (StructType : ObjectPtr)
    (TargetObject : TWeakObjectPtr).

(** [FGameplayMessageListenerData] *)
Record FGameplayMessageListenerData : Type := {
  ReceivedCallback : list Call;
  HandleID : Z;
  MatchType : EGameplayMessageMatch;
  ListenerStructType : TWeakObjectPtr;
  Channel : FGameplayTag;
  Priority : Z;
  TargetObject : TWeakObjectPtr
}.

(** [FChannelListenerList]; its [HandleID] counter is [LastHandleID]. *)
Record FChannelListenerList : Type := {
  Listeners : list FGameplayMessageListenerData;
  LastHandleID : Z
}.

Definition EmptyList : FChannelListenerList :=
  {| Listeners := []; LastHandleID := 0 |}.

Record UGameplayMessageSubsystem : Type := {
  this : ObjectPtr;
  ListenerMap : gmap ObjectPtr FChannelListenerList;
  BroadcastResultCache : FGameplayMessageBroadcastResult;
  LogOutput : list LogLine
}.

(** A subsystem right after [Initialize]. *)
Definition NewSubsystem (self : ObjectPtr) : UGameplayMessageSubsystem :=
  {| this := self; ListenerMap := ∅;
     BroadcastResultCache := ResetResult; LogOutput := [] |}.

Definition SetListenerMap (m : gmap ObjectPtr FChannelListenerList)
    (w : UGameplayMessageSubsystem) : UGameplayMessageSubsystem :=
  {| this := this w; ListenerMap := m;
     BroadcastResultCache := BroadcastResultCache w; LogOutput := LogOutput w |}.

Definition SetBroadcastResultCache (r : FGameplayMessageBroadcastResult)
    (w : UGameplayMessageSubsystem) : UGameplayMessageSubsystem :=
  {| this := this w; ListenerMap := ListenerMap w;
     BroadcastResultCache := r; LogOutput := LogOutput w |}.

Definition UE_LOG (Line : LogLine) (w : UGameplayMessageSubsystem)
    : UGameplayMessageSubsystem :=
  {| this := this w; ListenerMap := ListenerMap w;
     BroadcastResultCache := BroadcastResultCache w;
     LogOutput := LogOutput w ++ [Line] |}.

(** [UGameplayMessageSubsystem::RegisterListenerInternal] *)
Definition RegisterListenerInternal (Channel : FGameplayTag)
    (Callback : list Call) (StructType : ObjectPtr)
    (MatchType : EGameplayMessageMatch) (Priority : Z)
    (TargetObject : TWeakObjectPtr) (w : UGameplayMessageSubsystem)
    : UGameplayMessageSubsystem * FGameplayMessageListenerHandle :=
  let List := default EmptyList (ListenerMap w !! StructType) in
  let Index := InsertIndex MessageSubsystem.Priority (Listeners List) Priority in
  let NewID := wrap32 (LastHandleID List + 1) in
  let Entry :=
    {| ReceivedCallback := Callback;
       HandleID := NewID;
       MatchType := MatchType;
       ListenerStructType := MakeWeak StructType;
       Channel := Channel;
       Priority := Priority;
       TargetObject := TargetObject |} in
  let List' :=
    {| Listeners := Insert Entry Index (Listeners List);
       LastHandleID := NewID |} in
  (SetListenerMap (<[StructType := List']> (ListenerMap w)) w,
   {| Subsystem := MakeWeak (this w); StructType := StructType; ID := NewID |}).

(** [UGameplayMessageSubsystem::UnregisterListenerInternal] *)
Definition UnregisterListenerInternal (StructType : ObjectPtr) (HandleID : Z)
    (w : UGameplayMessageSubsystem) : UGameplayMessageSubsystem :=
  match ListenerMap w !! StructType with
  | Some StructMap =>
      let Remaining :=
        match IndexOfByPredicate
                (fun Other => MessageSubsystem.HandleID Other =? HandleID)
                (Listeners StructMap) with
        | Some MatchIndex => RemoveAtSwap MatchIndex (Listeners StructMap)
        | None => Listeners StructMap
        end in
      if decide (length Remaining = 0%nat)
      then SetListenerMap (delete StructType (ListenerMap w)) w
      else SetListenerMap
             (<[StructType := {| Listeners := Remaining;
                                 LastHandleID := LastHandleID StructMap |}]>
                (ListenerMap w)) w
  | None => w
  end.

(** [UGameplayMessageSubsystem::UnregisterListener] *)
Definition UnregisterListener (Handle : FGameplayMessageListenerHandle)
    (w : UGameplayMessageSubsystem) : Outcome UGameplayMessageSubsystem :=
  if IsValid Handle then
    if WeakEq (Subsystem Handle) (MakeWeak (this w))
    then Returned (UnregisterListenerInternal (StructType Handle) (ID Handle) w)
    else CheckFailed
  else
    Returned (UE_LOG (LogWarning "Trying to unregister an invalid Handle.") w).

(** [FGameplayMessageListenerHandle::Unregister], run against the
    subsystem [w] that the handle's weak pointer resolves to (when it
    resolves at all). *)
Definition Unregister (Handle : FGameplayMessageListenerHandle)
    (w : UGameplayMessageSubsystem)
    : Outcome (UGameplayMessageSubsystem * FGameplayMessageListenerHandle) :=
  if WeakIsValid (Subsystem Handle) then
    w' <-! UnregisterListener Handle w;
    Returned (w', {| Subsystem := WeakNull; StructType := nullptr; ID := 0 |})
  else Returned (w, Handle).

(** [UGameplayMessageSubsystem::CancelMessage] *)
Definition CancelMessage (bCancel bInterrupt : bool)
    (w : UGameplayMessageSubsystem) : UGameplayMessageSubsystem :=
  SetBroadcastResultCache
    {| bCancelled := bCancel; bInterrupted := bInterrupt |} w.

(** The filters of the dispatch loop that follow the staleness test: each
    [continue] of the source is one conjunct. *)
Definition PassesFilters (BroadcastChannel : FGameplayTag)
    (StructType : ObjectPtr) (Target : TWeakObjectPtr)
    (Listener : FGameplayMessageListenerData) : bool :=
  bool_decide (StructType = WeakGet (ListenerStructType Listener))
  && negb (negb (IsExplicitlyNull (TargetObject Listener))
           && negb (WeakEq (TargetObject Listener) Target))
  && (let bMatchAny :=
        bool_decide (MatchType Listener = PartialMatch)
        && MatchesTag BroadcastChannel (Channel Listener) in
      let bMatchExact :=
        bool_decide (MatchType Listener = ExactMatch)
        && MatchesTagExact BroadcastChannel (Channel Listener) in
      negb (negb bMatchAny && negb bMatchExact)).

(** A listener of the iterated copy whose callback gets called. *)
Definition IsInvoked (BroadcastChannel : FGameplayTag)
    (StructType : ObjectPtr) (Target : TWeakObjectPtr)
    (Listener : FGameplayMessageListenerData) : bool :=
  WeakIsValid (ListenerStructType Listener)
  && PassesFilters BroadcastChannel StructType Target Listener.

Definition StaleWarning : LogLine :=
  LogWarning "Listener struct type has gone invalid. Removing listener from list".

(** The result of a broadcast: the subsystem afterwards, the value returned
    to the sender, and (for the statements below) the handle ids of the
    listeners whose callbacks this invocation's own loop called, in call
    order. *)
Definition BroadcastReturn : Type :=
  UGameplayMessageSubsystem * FGameplayMessageBroadcastResult * list Z.

Section Dispatch.
(** Broadcasts started from inside a callback. *)
Variable NestedBroadcast :
  FGameplayTag -> ObjectPtr -> TWeakObjectPtr ->
  UGameplayMessageSubsystem -> Outcome BroadcastReturn.

Definition RunCall (c : Call) (w : UGameplayMessageSubsystem)
    : Outcome UGameplayMessageSubsystem :=
  match c with
  | CallRegisterListener ch cb ty m p tgt =>
      Returned (fst (RegisterListenerInternal ch cb ty m p tgt w))
  | CallUnregisterListener h => UnregisterListener h w
  | CallCancelMessage c i => Returned (CancelMessage c i w)
  | CallBroadcastMessage ch ty tgt =>
      r <-! NestedBroadcast ch ty tgt w; Returned (fst (fst r))
  end.

Fixpoint RunCallback (Callback : list Call) (w : UGameplayMessageSubsystem)
    : Outcome UGameplayMessageSubsystem :=
  match Callback with
  | [] => Returned w
  | c :: rest => w' <-! RunCall c w; RunCallback rest w'
  end.

(** The [for] loop over the copied [ListenerArray]. *)
Fixpoint DispatchLoop (BroadcastChannel : FGameplayTag)
    (StructType : ObjectPtr) (Target : TWeakObjectPtr)
    (ListenerArray : list FGameplayMessageListenerData)
    (w : UGameplayMessageSubsystem)
    : Outcome (UGameplayMessageSubsystem * list Z) :=
  match ListenerArray with
  | [] => Returned (w, [])
  | Listener :: rest =>
      if negb (WeakIsValid (ListenerStructType Listener)) then
        DispatchLoop BroadcastChannel StructType Target rest
          (UnregisterListenerInternal StructType (HandleID Listener)
             (UE_LOG StaleWarning w))
      else if negb (PassesFilters BroadcastChannel StructType Target Listener)
      then DispatchLoop BroadcastChannel StructType Target rest w
      else
        w' <-! RunCallback (ReceivedCallback Listener) w;
        if bInterrupted (BroadcastResultCache w')
        then Returned (w', [HandleID Listener])
        else
          r <-! DispatchLoop BroadcastChannel StructType Target rest w';
          Returned (fst r, HandleID Listener :: snd r)
  end.

(** The body of [BroadcastMessageInternal].  The trace of each broadcast
    written at [Log] level when the console variable [LogMessages] is set
    (it is off by default) is left out. *)
Definition BroadcastBody (BroadcastChannel : FGameplayTag)
    (StructType : ObjectPtr) (Target : TWeakObjectPtr)
    (w : UGameplayMessageSubsystem) : Outcome BroadcastReturn :=
  let w0 := SetBroadcastResultCache ResetResult w in
  match ListenerMap w0 !! StructType with
  | Some pList =>
      let ListenerArray := Listeners pList in
      r <-! DispatchLoop BroadcastChannel StructType Target ListenerArray w0;
      Returned (fst r, BroadcastResultCache (fst r), snd r)
  | None => Returned (w0, BroadcastResultCache w0, [])
  end.
End Dispatch.

(** [UGameplayMessageSubsystem::BroadcastMessageInternal]; [Depth] bounds
    how deeply callbacks may nest broadcasts. *)
Fixpoint BroadcastMessageInternal (Depth : nat) (BroadcastChannel : FGameplayTag)
    (StructType : ObjectPtr) (Target : TWeakObjectPtr)
    (w : UGameplayMessageSubsystem) : Outcome BroadcastReturn :=
  match Depth with
  | O => OutOfFuel
  | S d =>
      BroadcastBody (BroadcastMessageInternal d)
        BroadcastChannel StructType Target w
  end.

End MessageSubsystem.

(** ** Vocabulary of the statements about the global router *)

Module MessageSubsystemSpec.
Import MessageSubsystem.

(** The arguments of one [RegisterListenerInternal] call. *)
Record Registration : Type := {
  RegChannel : FGameplayTag;
  RegCallback : list Call;
  RegStructType : ObjectPtr;
  RegMatchType : EGameplayMessageMatch;
  RegPriority : Z;
  RegTargetObject : TWeakObjectPtr
}.

Definition Register (r : Registration) (w : UGameplayMessageSubsystem)
    : UGameplayMessageSubsystem :=
  fst (RegisterListenerInternal (RegChannel r) (RegCallback r)
         (RegStructType r) (RegMatchType r) (RegPriority r)
         (RegTargetObject r) w).

Definition RegisterAll (rs : list Registration) (w : UGameplayMessageSubsystem)
    : UGameplayMessageSubsystem :=
  fold_left (fun w r => Register r w) rs w.

(** The list stored for a message type ([EmptyList] when there is none). *)
Definition ListFor (ty : ObjectPtr) (w : UGameplayMessageSubsystem)
    : FChannelListenerList :=
  default EmptyList (ListenerMap w !! ty).

Definition ListenersFor (ty : ObjectPtr) (w : UGameplayMessageSubsystem)
    : list FGameplayMessageListenerData :=
  Listeners (ListFor ty w).

(** The entry that the [n]-th registration of its type creates. *)
Definition EntryOf (r : Registration) (n : Z) : FGameplayMessageListenerData :=
  {| ReceivedCallback := RegCallback r;
     HandleID := wrap32 n;
     MatchType := RegMatchType r;
     ListenerStructType := MakeWeak (RegStructType r);
     Channel := RegChannel r;
     Priority := RegPriority r;
     TargetObject := RegTargetObject r |}.

(** The registrations of type [ty] among [rs], in registration order, each
    with the entry it creates; [n] registrations of that type came before. *)
Fixpoint InRegistrationOrder (n : Z) (rs : list Registration) (ty : ObjectPtr)
    : list FGameplayMessageListenerData :=
  match rs with
  | [] => []
  | r :: rs' =>
      if decide (RegStructType r = ty)
      then EntryOf r (n + 1) :: InRegistrationOrder (n + 1) rs' ty
      else InRegistrationOrder n rs' ty
  end.

Fixpoint CountOf (ty : ObjectPtr) (rs : list Registration) : Z :=
  match rs with
  | [] => 0
  | r :: rs' =>
      if decide (RegStructType r = ty) then 1 + CountOf ty rs' else CountOf ty rs'
  end.

(** A listener that does nothing, registered for exact matches on a
    channel with the given priority. *)
Definition PlainListener (ch : FGameplayTag) (ty : ObjectPtr) (p : Z)
    : Registration :=
  {| RegChannel := ch; RegCallback := []; RegStructType := ty;
     RegMatchType := ExactMatch; RegPriority := p;
     RegTargetObject := WeakNull |}.

(** What holds of the registry whatever has been registered and
    unregistered: within the list of one message type the handle ids are
    pairwise different and lie between 1 and the list's counter, and no
    empty list is kept. *)
Definition RegistryInvariant (w : UGameplayMessageSubsystem) : Prop :=
  forall ty L,
    ListenerMap w !! ty = Some L ->
    NoDup (map HandleID (Listeners L))
    /\ Forall (fun e => 0 < HandleID e <= LastHandleID L) (Listeners L)
    /\ Listeners L <> [].

(** The counters have not been advanced more than [n] times. *)
Definition CountersBelow (n : Z) (w : UGameplayMessageSubsystem) : Prop :=
  forall ty L, ListenerMap w !! ty = Some L -> 0 <= LastHandleID L <= n.

(** Registrations and unregistrations, in the order they are made. *)
Inductive Operation : Type :=
| OpRegister (r : Registration)
| OpUnregister (ty : ObjectPtr) (id : Z).

Definition RunOperation (w : UGameplayMessageSubsystem) (op : Operation)
    : UGameplayMessageSubsystem :=
  match op with
  | OpRegister r => Register r w
  | OpUnregister ty id => UnregisterListenerInternal ty id w
  end.

Definition RunOperations (ops : list Operation) (w : UGameplayMessageSubsystem)
    : UGameplayMessageSubsystem :=
  fold_left RunOperation ops w.

(** The handle that [Register] hands out. *)
Definition HandleOf (r : Registration) (w : UGameplayMessageSubsystem)
    : FGameplayMessageListenerHandle :=
  snd (RegisterListenerInternal (RegChannel r) (RegCallback r)
         (RegStructType r) (RegMatchType r) (RegPriority r)
         (RegTargetObject r) w).

End MessageSubsystemSpec.

(** ** [UGameplayWorldMessageSubsystem]: the spatial router

    World coordinates and radii are [float]/[double] values in the source.
    They are modelled by rationals with exact arithmetic; rounding is not
    represented.  Grid coordinates are [int32] in the source and unbounded
    integers here; the statements that depend on it restrict positions to
    the part of the world whose cells have [int32] coordinates. *)

Module WorldMessageSubsystem.

Record FVector : Type := { VecX : Q; VecY : Q; VecZ : Q }.

Definition ZeroVector : FVector := {| VecX := 0; VecY := 0; VecZ := 0 |}.

(** [FVector::DistSquared] *)
Definition DistSquared (V1 V2 : FVector) : Q :=
  ((VecX V2 - VecX V1) * (VecX V2 - VecX V1)
   + (VecY V2 - VecY V1) * (VecY V2 - VecY V1)
   + (VecZ V2 - VecZ V1) * (VecZ V2 - VecZ V1))%Q.

(** [a < b] and [a > b] on coordinates. *)
Definition Qlt_bool (a b : Q) : bool := negb (Qle_bool b a).

(** [FMath::Clamp] *)
Definition Clamp (X Min Max : Q) : Q :=
  if Qlt_bool X Min then Min else if Qlt_bool X Max then X else Max.

(** [FMath::FloorToInt] *)
Definition FloorToInt (x : Q) : Z := Qfloor x.

(** Each grid cell is 16m x 16m. *)
Definition GRID_SIZE : Q := 1600.

(** [(static_cast<int64>(GridX) << 32) | (static_cast<int64>(GridY) & 0xFFFFFFFF)] *)
Definition PackGridID (GridX GridY : Z) : Z :=
  Z.lor (Z.shiftl GridX 32) (Z.land GridY 4294967295).

(** [UE::GameplayWorldMessageSubsystem::GetGridID] *)
Definition GetGridID (WorldPosition : FVector) : Z :=
  let GridX := FloorToInt (VecX WorldPosition / GRID_SIZE) in
  let GridY := FloorToInt (VecY WorldPosition / GRID_SIZE) in
  PackGridID GridX GridY.

(** The values [First, First + 1, ..., Last] of a counting [for] loop. *)
Definition FromTo (First Last : Z) : list Z := seqZ First (Last - First + 1).

(** The test made on one cell of the bounding box in [GetGridsInRadius]. *)
Definition GridIntersectsRadius (Center : FVector) (Radius : Q)
    (GridX GridY : Z) : bool :=
  let GridMin :=
    {| VecX := inject_Z GridX * GRID_SIZE;
       VecY := inject_Z GridY * GRID_SIZE; VecZ := 0 |} in
  let GridMax :=
    {| VecX := inject_Z (GridX + 1) * GRID_SIZE;
       VecY := inject_Z (GridY + 1) * GRID_SIZE; VecZ := 0 |} in
  let ClosestPoint :=
    {| VecX := Clamp (VecX Center) (VecX GridMin) (VecX GridMax);
       VecY := Clamp (VecY Center) (VecY GridMin) (VecY GridMax);
       VecZ := VecZ Center |} in
  let DistanceSquared := DistSquared Center ClosestPoint in
  Qle_bool DistanceSquared (Radius * Radius).

(** [UE::GameplayWorldMessageSubsystem::GetGridsInRadius] *)
Definition GetGridsInRadius (Center : FVector) (Radius : Q) : list Z :=
  let MinGridX := FloorToInt ((VecX Center - Radius) / GRID_SIZE) in
  let MaxGridX := FloorToInt ((VecX Center + Radius) / GRID_SIZE) in
  let MinGridY := FloorToInt ((VecY Center - Radius) / GRID_SIZE) in
  let MaxGridY := FloorToInt ((VecY Center + Radius) / GRID_SIZE) in
  flat_map
    (fun GridX =>
       flat_map
         (fun GridY =>
            if GridIntersectsRadius Center Radius GridX GridY
            then [PackGridID GridX GridY] else [])
         (FromTo MinGridY MaxGridY))
    (FromTo MinGridX MaxGridX).

(** The cells a listener is filed under: [GetGridsInRadius], or the cell of
    the listen position when that comes back empty. *)
Definition RelevantGridsOf (ListenPosition : FVector) (ListenRadius : Q)
    : list Z :=
  let RelevantGrids := GetGridsInRadius ListenPosition ListenRadius in
  if decide (length RelevantGrids = 0%nat)
  then [GetGridID ListenPosition]
  else RelevantGrids.

(** [FGameplayWorldMessageListenerHandle] *)
Record FGameplayWorldMessageListenerHandle : Type := {
  Subsystem : TWeakObjectPtr;
  StructType : ObjectPtr;
  ID : Z
}.

Definition FreshHandle : FGameplayWorldMessageListenerHandle :=
  {| Subsystem := WeakNull; StructType := nullptr; ID := 0 |}.

Definition IsValid (Handle : FGameplayWorldMessageListenerHandle) : bool :=
  negb (ID Handle =? 0).

(** What a listener callback may do with the spatial router. *)
Inductive Call : Type :=
| CallRegisterListener (Channel : FGameplayTag) (Callback : list Call)
    (StructType : ObjectPtr) (MatchType : EGameplayMessageMatch)
    (Priority : Z) (ListenPosition : FVector) (ListenRadius : Q)
| CallUnregisterListener (Handle : FGameplayWorldMessageListenerHandle)
| CallUpdateRegisterListenerLocation
    (Handle : FGameplayWorldMessageListenerHandle)
    (NewListenPosition : FVector) (NewListenRadius : Q)
| CallCancelMessage (bCancel bInterrupt : bool)
| CallBroadcastMessage (Channel : FGameplayTag) (StructType : ObjectPtr)
    (WorldPosition : FVector).

(** [FGameplayWorldMessageListenerData] *)
Record FGameplayWorldMessageListenerData : Type := {
  ReceivedCallback : list Call;
  HandleID : Z;
  MatchType : EGameplayMessageMatch;
  ListenerStructType : TWeakObjectPtr;
  Channel : FGameplayTag;
  Priority : Z;
  ListenPosition : FVector;
  ListenRadius : Q
}.

(** [FGridListenerList]; its [HandleID] member is never written. *)
Record FGridListenerList : Type := {
  Listeners : list FGameplayWorldMessageListenerData;
  GridHandleID : Z
}.

Definition EmptyGrid : FGridListenerList :=
  {| Listeners := []; GridHandleID := 0 |}.

Definition SetListeners (l : list FGameplayWorldMessageListenerData)
    (g : FGridListenerList) : FGridListenerList :=
  {| Listeners := l; GridHandleID := GridHandleID g |}.

Record FListenerSpatialInfo : Type := {
  InfoListenPosition : FVector;
  InfoListenRadius : Q
}.

(** The subsystem, together with the function-local
    [static int32 GlobalHandleID] of [RegisterListenerInternal]. *)
Record UGameplayWorldMessageSubsystem : Type := {
  this : ObjectPtr;
  GridListenerMap : gmap Z FGridListenerList;
  HandleToSpatialMap : gmap Z FListenerSpatialInfo;
  BroadcastResultCache : FGameplayMessageBroadcastResult;
  GlobalHandleID : Z;
  LogOutput : list LogLine
}.

Definition NewSubsystem (self : ObjectPtr) : UGameplayWorldMessageSubsystem :=
  {| this := self; GridListenerMap := ∅; HandleToSpatialMap := ∅;
     BroadcastResultCache := ResetResult; GlobalHandleID := 0;
     LogOutput := [] |}.

Definition SetGridListenerMap (m : gmap Z FGridListenerList)
    (w : UGameplayWorldMessageSubsystem) : UGameplayWorldMessageSubsystem :=
  {| this := this w; GridListenerMap := m;
     HandleToSpatialMap := HandleToSpatialMap w;
     BroadcastResultCache := BroadcastResultCache w;
     GlobalHandleID := GlobalHandleID w; LogOutput := LogOutput w |}.

Definition SetHandleToSpatialMap (m : gmap Z FListenerSpatialInfo)
    (w : UGameplayWorldMessageSubsystem) : UGameplayWorldMessageSubsystem :=
  {| this := this w; GridListenerMap := GridListenerMap w;
     HandleToSpatialMap := m;
     BroadcastResultCache := BroadcastResultCache w;
     GlobalHandleID := GlobalHandleID w; LogOutput := LogOutput w |}.

Definition SetBroadcastResultCache (r : FGameplayMessageBroadcastResult)
    (w : UGameplayWorldMessageSubsystem) : UGameplayWorldMessageSubsystem :=
  {| this := this w; GridListenerMap := GridListenerMap w;
     HandleToSpatialMap := HandleToSpatialMap w;
     BroadcastResultCache := r;
     GlobalHandleID := GlobalHandleID w; LogOutput := LogOutput w |}.

Definition SetGlobalHandleID (n : Z)
    (w : UGameplayWorldMessageSubsystem) : UGameplayWorldMessageSubsystem :=
  {| this := this w; GridListenerMap := GridListenerMap w;
     HandleToSpatialMap := HandleToSpatialMap w;
     BroadcastResultCache := BroadcastResultCache w;
     GlobalHandleID := n; LogOutput := LogOutput w |}.

Definition UE_LOG (Line : LogLine) (w : UGameplayWorldMessageSubsystem)
    : UGameplayWorldMessageSubsystem :=
  {| this := this w; GridListenerMap := GridListenerMap w;
     HandleToSpatialMap := HandleToSpatialMap w;
     BroadcastResultCache := BroadcastResultCache w;
     GlobalHandleID := GlobalHandleID w;
     LogOutput := LogOutput w ++ [Line] |}.

(** One round of "add to grid": [FindOrAdd] followed by the priority scan
    and [Insert]. *)
Definition AddToGrid (ListenerData : FGameplayWorldMessageListenerData)
    (m : gmap Z FGridListenerList) (GridID : Z) : gmap Z FGridListenerList :=
  let GridList := default EmptyGrid (m !! GridID) in
  <[GridID :=
      SetListeners
        (PriorityInsert Priority ListenerData (Listeners GridList)) GridList]> m.

(** [UGameplayWorldMessageSubsystem::RegisterListenerInternal] *)
Definition RegisterListenerInternal (Channel : FGameplayTag)
    (Callback : list Call) (StructType : ObjectPtr)
    (MatchType : EGameplayMessageMatch) (Priority : Z)
    (ListenPosition : FVector) (ListenRadius : Q)
    (w : UGameplayWorldMessageSubsystem)
    : UGameplayWorldMessageSubsystem * FGameplayWorldMessageListenerHandle :=
  let RelevantGrids := RelevantGridsOf ListenPosition ListenRadius in
  let NewID := wrap32 (GlobalHandleID w + 1) in
  let ListenerData :=
    {| ReceivedCallback := Callback;
       HandleID := NewID;
       MatchType := MatchType;
       ListenerStructType := MakeWeak StructType;
       Channel := Channel;
       Priority := Priority;
       ListenPosition := ListenPosition;
       ListenRadius := ListenRadius |} in
  let Grids := fold_left (AddToGrid ListenerData) RelevantGrids (GridListenerMap w) in
  let SpatialInfo :=
    {| InfoListenPosition := ListenPosition;
       InfoListenRadius := ListenRadius |} in
  (SetHandleToSpatialMap (<[NewID := SpatialInfo]> (HandleToSpatialMap w))
     (SetGridListenerMap Grids (SetGlobalHandleID NewID w)),
   {| Subsystem := MakeWeak (this w); StructType := StructType; ID := NewID |}).

(** One round of "remove from grid" in [UnregisterListenerInternal]: the
    map, the grids marked for cleanup and the log are threaded through. *)
Definition RemoveFromGrid (HandleID : Z) (WarnMissing : bool)
    (st : gmap Z FGridListenerList * list Z * list LogLine) (GridID : Z)
    : gmap Z FGridListenerList * list Z * list LogLine :=
  let '(m, GridIDsToClean, Log) := st in
  match m !! GridID with
  | Some GridList =>
      let Kept :=
        RemoveAll (fun Listener =>
                     WorldMessageSubsystem.HandleID Listener =? HandleID)
          (Listeners GridList) in
      let RemovedCount := (length (Listeners GridList) - length Kept)%nat in
      let Log' :=
        if WarnMissing && bool_decide (RemovedCount = 0%nat)
        then Log ++ [LogWarning "Listener should be in grid but not found in grid's listener list"]
        else Log in
      let Clean' :=
        if decide (length Kept = 0%nat)
        then GridIDsToClean ++ [GridID] else GridIDsToClean in
      (<[GridID := SetListeners Kept GridList]> m, Clean', Log')
  | None =>
      (m, GridIDsToClean,
       if WarnMissing
       then Log ++ [LogWarning "Listener should be in grid but grid not found"]
       else Log)
  end.

Definition CleanGrids (GridIDsToClean : list Z) (m : gmap Z FGridListenerList)
    : gmap Z FGridListenerList :=
  fold_left (fun m GridID => delete GridID m) GridIDsToClean m.

(** [UGameplayWorldMessageSubsystem::UnregisterListenerInternal] *)
Definition UnregisterListenerInternal (StructType : ObjectPtr) (HandleID : Z)
    (w : UGameplayWorldMessageSubsystem) : UGameplayWorldMessageSubsystem :=
  match HandleToSpatialMap w !! HandleID with
  | None =>
      UE_LOG (LogWarning "Trying to unregister listener with unknown HandleID") w
  | Some SpatialInfo =>
      let RelevantGrids :=
        RelevantGridsOf (InfoListenPosition SpatialInfo)
          (InfoListenRadius SpatialInfo) in
      let '(m, GridIDsToClean, Log) :=
        fold_left (RemoveFromGrid HandleID true) RelevantGrids
          (GridListenerMap w, [], LogOutput w) in
      {| this := this w;
         GridListenerMap := CleanGrids GridIDsToClean m;
         HandleToSpatialMap := delete HandleID (HandleToSpatialMap w);
         BroadcastResultCache := BroadcastResultCache w;
         GlobalHandleID := GlobalHandleID w;
         LogOutput := Log |}
  end.

(** [UGameplayWorldMessageSubsystem::UnregisterListener] *)
Definition UnregisterListener (Handle : FGameplayWorldMessageListenerHandle)
    (w : UGameplayWorldMessageSubsystem)
    : Outcome UGameplayWorldMessageSubsystem :=
  if IsValid Handle then
    if WeakEq (Subsystem Handle) (MakeWeak (this w))
    then Returned (UnregisterListenerInternal (StructType Handle) (ID Handle) w)
    else CheckFailed
  else
    Returned (UE_LOG (LogWarning "Trying to unregister an invalid Handle.") w).

(** [FGameplayWorldMessageListenerHandle::Unregister], run against the
    subsystem [w] that the handle's weak pointer resolves to. *)
Definition Unregister (Handle : FGameplayWorldMessageListenerHandle)
    (w : UGameplayWorldMessageSubsystem)
    : Outcome (UGameplayWorldMessageSubsystem
               * FGameplayWorldMessageListenerHandle) :=
  if WeakIsValid (Subsystem Handle) then
    w' <-! UnregisterListener Handle w;
    Returned (w', {| Subsystem := WeakNull; StructType := nullptr; ID := 0 |})
  else Returned (w, Handle).

(** The search for "the listener data to copy" in
    [UpdateRegisterListenerLocation]. *)
Fixpoint FindListenerData (HandleID : Z) (m : gmap Z FGridListenerList)
    (Grids : list Z) : option FGameplayWorldMessageListenerData :=
  match Grids with
  | [] => None
  | GridID :: rest =>
      match m !! GridID with
      | Some GridList =>
          match List.find (fun Listener =>
                             WorldMessageSubsystem.HandleID Listener =? HandleID)
                  (Listeners GridList) with
          | Some Listener => Some Listener
          | None => FindListenerData HandleID m rest
          end
      | None => FindListenerData HandleID m rest
      end
  end.

(** The in-place update of the first entry with the given handle id. *)
Fixpoint UpdateFirst (HandleID : Z) (NewListenPosition : FVector)
    (NewListenRadius : Q) (l : list FGameplayWorldMessageListenerData)
    : list FGameplayWorldMessageListenerData :=
  match l with
  | [] => []
  | Listener :: rest =>
      if WorldMessageSubsystem.HandleID Listener =? HandleID
      then {| ReceivedCallback := ReceivedCallback Listener;
              HandleID := WorldMessageSubsystem.HandleID Listener;
              MatchType := MatchType Listener;
              ListenerStructType := ListenerStructType Listener;
              Channel := Channel Listener;
              Priority := Priority Listener;
              ListenPosition := NewListenPosition;
              ListenRadius := NewListenRadius |} :: rest
      else Listener :: UpdateFirst HandleID NewListenPosition NewListenRadius rest
  end.

Definition UpdateInGrid (HandleID : Z) (NewListenPosition : FVector)
    (NewListenRadius : Q) (NewGrids : list Z)
    (m : gmap Z FGridListenerList) (GridID : Z) : gmap Z FGridListenerList :=
  if bool_decide (GridID ∈ NewGrids) then
    match m !! GridID with
    | Some GridList =>
        <[GridID :=
            SetListeners
              (UpdateFirst HandleID NewListenPosition NewListenRadius
                 (Listeners GridList)) GridList]> m
    | None => m
    end
  else m.

Definition InvalidUpdateWarning : LogLine :=
  LogWarning "Trying to update location for an invalid Handle.".
Definition UnknownUpdateWarning : LogLine :=
  LogWarning "Trying to update location for listener with unknown HandleID".
Definition MissingDataWarning : LogLine :=
  LogWarning "Could not find listener data during location update".

(** [UGameplayWorldMessageSubsystem::UpdateRegisterListenerLocation] *)
Definition UpdateRegisterListenerLocation
    (Handle : FGameplayWorldMessageListenerHandle)
    (NewListenPosition : FVector) (NewListenRadius : Q)
    (w : UGameplayWorldMessageSubsystem)
    : UGameplayWorldMessageSubsystem * bool :=
  if negb (IsValid Handle)
     || negb (WeakEq (Subsystem Handle) (MakeWeak (this w)))
  then (UE_LOG InvalidUpdateWarning w, false)
  else
    match HandleToSpatialMap w !! ID Handle with
    | None => (UE_LOG UnknownUpdateWarning w, false)
    | Some SpatialInfo =>
        let ActualNewRadius :=
          if Qle_bool 0 NewListenRadius then NewListenRadius
          else InfoListenRadius SpatialInfo in
        let OldGrids :=
          RelevantGridsOf (InfoListenPosition SpatialInfo)
            (InfoListenRadius SpatialInfo) in
        let NewGrids := RelevantGridsOf NewListenPosition ActualNewRadius in
        let GridsToRemoveFrom :=
          List.filter (fun OldGrid => negb (bool_decide (OldGrid ∈ NewGrids)))
            OldGrids in
        let GridsToAddTo :=
          List.filter (fun NewGrid => negb (bool_decide (NewGrid ∈ OldGrids)))
            NewGrids in
        match FindListenerData (ID Handle) (GridListenerMap w) OldGrids with
        | None => (UE_LOG MissingDataWarning w, false)
        | Some ListenerData =>
            let UpdatedListenerData :=
              {| ReceivedCallback := ReceivedCallback ListenerData;
                 HandleID := HandleID ListenerData;
                 MatchType := MatchType ListenerData;
                 ListenerStructType := ListenerStructType ListenerData;
                 Channel := Channel ListenerData;
                 Priority := Priority ListenerData;
                 ListenPosition := NewListenPosition;
                 ListenRadius := ActualNewRadius |} in
            let '(m1, GridIDsToClean, _) :=
              fold_left (RemoveFromGrid (ID Handle) false) GridsToRemoveFrom
                (GridListenerMap w, [], []) in
            let m2 := CleanGrids GridIDsToClean m1 in
            let m3 := fold_left (AddToGrid UpdatedListenerData) GridsToAddTo m2 in
            let m4 :=
              fold_left
                (UpdateInGrid (ID Handle) NewListenPosition ActualNewRadius NewGrids)
                OldGrids m3 in
            (SetHandleToSpatialMap
               (<[ID Handle :=
                    {| InfoListenPosition := NewListenPosition;
                       InfoListenRadius := ActualNewRadius |}]>
                  (HandleToSpatialMap w))
               (SetGridListenerMap m4 w),
             true)
        end
    end.

(** [UGameplayWorldMessageSubsystem::CancelMessage] *)
Definition CancelMessage (bCancel bInterrupt : bool)
    (w : UGameplayWorldMessageSubsystem) : UGameplayWorldMessageSubsystem :=
  SetBroadcastResultCache
    {| bCancelled := bCancel; bInterrupted := bInterrupt |} w.

(** The filters of the spatial dispatch loop that follow the staleness
    test, one conjunct per [continue]. *)
Definition PassesFilters (BroadcastChannel : FGameplayTag)
    (StructType : ObjectPtr) (WorldPosition : FVector)
    (Listener : FGameplayWorldMessageListenerData) : bool :=
  bool_decide (StructType = WeakGet (ListenerStructType Listener))
  && negb (Qlt_bool (ListenRadius Listener * ListenRadius Listener)
             (DistSquared WorldPosition (ListenPosition Listener)))
  && (let bMatchAny :=
        bool_decide (MatchType Listener = PartialMatch)
        && MatchesTag BroadcastChannel (Channel Listener) in
      let bMatchExact :=
        bool_decide (MatchType Listener = ExactMatch)
        && MatchesTagExact BroadcastChannel (Channel Listener) in
      negb (negb bMatchAny && negb bMatchExact)).

Definition IsInvoked (BroadcastChannel : FGameplayTag)
    (StructType : ObjectPtr) (WorldPosition : FVector)
    (Listener : FGameplayWorldMessageListenerData) : bool :=
  WeakIsValid (ListenerStructType Listener)
  && PassesFilters BroadcastChannel StructType WorldPosition Listener.

Definition StaleWarning : LogLine :=
  LogWarning "Listener struct type has gone invalid. Removing listener from list".

Definition BroadcastReturn : Type :=
  UGameplayWorldMessageSubsystem * FGameplayMessageBroadcastResult * list Z.

Section Dispatch.
Variable NestedBroadcast :
  FGameplayTag -> ObjectPtr -> FVector ->
  UGameplayWorldMessageSubsystem -> Outcome BroadcastReturn.

Definition RunCall (c : Call) (w : UGameplayWorldMessageSubsystem)
    : Outcome UGameplayWorldMessageSubsystem :=
  match c with
  | CallRegisterListener ch cb ty m p pos r =>
      Returned (fst (RegisterListenerInternal ch cb ty m p pos r w))
  | CallUnregisterListener h => UnregisterListener h w
  | CallUpdateRegisterListenerLocation h pos r =>
      Returned (fst (UpdateRegisterListenerLocation h pos r w))
  | CallCancelMessage c i => Returned (CancelMessage c i w)
  | CallBroadcastMessage ch ty pos =>
      r <-! NestedBroadcast ch ty pos w; Returned (fst (fst r))
  end.

Fixpoint RunCallback (Callback : list Call)
    (w : UGameplayWorldMessageSubsystem)
    : Outcome UGameplayWorldMessageSubsystem :=
  match Callback with
  | [] => Returned w
  | c :: rest => w' <-! RunCall c w; RunCallback rest w'
  end.

Fixpoint DispatchLoop (BroadcastChannel : FGameplayTag)
    (StructType : ObjectPtr) (WorldPosition : FVector)
    (ListenerArray : list FGameplayWorldMessageListenerData)
    (w : UGameplayWorldMessageSubsystem)
    : Outcome (UGameplayWorldMessageSubsystem * list Z) :=
  match ListenerArray with
  | [] => Returned (w, [])
  | Listener :: rest =>
      if negb (WeakIsValid (ListenerStructType Listener)) then
        DispatchLoop BroadcastChannel StructType WorldPosition rest
          (UnregisterListenerInternal StructType (HandleID Listener)
             (UE_LOG StaleWarning w))
      else if negb (PassesFilters BroadcastChannel StructType
                      WorldPosition Listener)
      then DispatchLoop BroadcastChannel StructType WorldPosition rest w
      else
        w' <-! RunCallback (ReceivedCallback Listener) w;
        if bInterrupted (BroadcastResultCache w')
        then Returned (w', [HandleID Listener])
        else
          r <-! DispatchLoop BroadcastChannel StructType WorldPosition rest w';
          Returned (fst r, HandleID Listener :: snd r)
  end.

Definition BroadcastBody (BroadcastChannel : FGameplayTag)
    (StructType : ObjectPtr) (WorldPosition : FVector)
    (w : UGameplayWorldMessageSubsystem) : Outcome BroadcastReturn :=
  let w0 := SetBroadcastResultCache ResetResult w in
  let BroadcastGridID := GetGridID WorldPosition in
  match GridListenerMap w0 !! BroadcastGridID with
  | None => Returned (w0, BroadcastResultCache w0, [])
  | Some pList =>
      let ListenerArray := Listeners pList in
      r <-! DispatchLoop BroadcastChannel StructType WorldPosition
              ListenerArray w0;
      Returned (fst r, BroadcastResultCache (fst r), snd r)
  end.
End Dispatch.

(** [UGameplayWorldMessageSubsystem::BroadcastMessageInternal] *)
Fixpoint BroadcastMessageInternal (Depth : nat)
    (BroadcastChannel : FGameplayTag) (StructType : ObjectPtr)
    (WorldPosition : FVector) (w : UGameplayWorldMessageSubsystem)
    : Outcome BroadcastReturn :=
  match Depth with
  | O => OutOfFuel
  | S d =>
      BroadcastBody (BroadcastMessageInternal d)
        BroadcastChannel StructType WorldPosition w
  end.

End WorldMessageSubsystem.

(** ** Vocabulary of the statements about callbacks *)

Module CallbackSpec.
Import MessageSubsystem.

(** Calls that only touch the registry. *)
Definition RegistryCall (c : Call) : Prop :=
  match c with
  | CallRegisterListener _ _ _ _ _ _ | CallUnregisterListener _ => True
  | _ => False
  end.

(** Registry calls that cannot fail a [check] on the subsystem [self]. *)
Definition SafeRegistryCall (self : ObjectPtr) (c : Call) : Prop :=
  match c with
  | CallRegisterListener _ _ _ _ _ _ => True
  | CallUnregisterListener h =>
      IsValid h = false \/ WeakEq (Subsystem h) (MakeWeak self) = true
  | _ => False
  end.

(** A listener whose callback is made of such calls. *)
Definition QuietListener (self : ObjectPtr)
    (L : FGameplayMessageListenerData) : Prop :=
  Forall (SafeRegistryCall self) (ReceivedCallback L).

(** The handle ids of the listeners of a copied array that a broadcast
    calls when nothing interrupts it. *)
Definition InvokedOf (ch : FGameplayTag) (ty : ObjectPtr)
    (tgt : TWeakObjectPtr) (ls : list FGameplayMessageListenerData) : list Z :=
  map HandleID (List.filter (IsInvoked ch ty tgt) ls).

(** The tag rule of a listener registered on [C] with match rule [m],
    for a broadcast on [ch]. *)
Definition TagRule (m : EGameplayMessageMatch) (C ch : FGameplayTag) : Prop :=
  match m with
  | ExactMatch => ch = C
  | PartialMatch => exists rest, ch = C ++ rest
  end.

(** The target test: a listener without target takes every broadcast. *)
Definition TargetAccepts (ListenerTarget BroadcastTarget : TWeakObjectPtr)
    : Prop :=
  IsExplicitlyNull ListenerTarget = true
  \/ WeakEq ListenerTarget BroadcastTarget = true.

End CallbackSpec.

(** ** Vocabulary of the statements about the spatial router *)

Module WorldMessageSubsystemSpec.
Import WorldMessageSubsystem.

Definition IsInt32 (z : Z) : Prop := -2147483648 <= z <= 2147483647.

(** The bounding box of a listening circle lies in the part of the world
    whose grid coordinates are [int32] values. *)
Definition FitsGrid (P : FVector) (R : Q) : Prop :=
  IsInt32 (FloorToInt ((VecX P - R) / GRID_SIZE))
  /\ IsInt32 (FloorToInt ((VecX P + R) / GRID_SIZE))
  /\ IsInt32 (FloorToInt ((VecY P - R) / GRID_SIZE))
  /\ IsInt32 (FloorToInt ((VecY P + R) / GRID_SIZE)).

(** The listener array of a cell (empty when the cell is not in the map). *)
Definition EntriesAt (GridID : Z) (w : UGameplayWorldMessageSubsystem)
    : list FGameplayWorldMessageListenerData :=
  Listeners (default EmptyGrid (GridListenerMap w !! GridID)).

Definition HasHandle (h : Z) (L : FGameplayWorldMessageListenerData) : bool :=
  HandleID L =? h.

Definition WithHandle (h : Z) (l : list FGameplayWorldMessageListenerData)
    : list FGameplayWorldMessageListenerData :=
  List.filter (HasHandle h) l.

(** The listener [E] is on record: the handle index holds its position and
    radius, and of the entries carrying its handle id there is exactly one
    copy of [E] in each cell its circle overlaps and none elsewhere. *)
Definition Tracked (w : UGameplayWorldMessageSubsystem)
    (E : FGameplayWorldMessageListenerData) : Prop :=
  HandleToSpatialMap w !! HandleID E
    = Some {| InfoListenPosition := ListenPosition E;
              InfoListenRadius := ListenRadius E |}
  /\ forall g,
       WithHandle (HandleID E) (EntriesAt g w)
       = if bool_decide
              (g ∈ RelevantGridsOf (ListenPosition E) (ListenRadius E))
         then [E] else [].

(** No entry carries the handle id [h]. *)
Definition Unused (h : Z) (w : UGameplayWorldMessageSubsystem) : Prop :=
  forall g, WithHandle h (EntriesAt g w) = [].

(** [E] moved to a new listen position and radius. *)
Definition MovedTo (P : FVector) (R : Q)
    (E : FGameplayWorldMessageListenerData)
    : FGameplayWorldMessageListenerData :=
  {| ReceivedCallback := ReceivedCallback E;
     HandleID := HandleID E;
     MatchType := MatchType E;
     ListenerStructType := ListenerStructType E;
     Channel := Channel E;
     Priority := Priority E;
     ListenPosition := P;
     ListenRadius := R |}.

(** The listener array stored under a grid id. *)
Definition ListAt (m : gmap Z FGridListenerList) (GridID : Z)
    : list FGameplayWorldMessageListenerData :=
  Listeners (default EmptyGrid (m !! GridID)).

(** Calls of a spatial callback that only touch the registry and cannot
    fail a [check] on the subsystem [self]. *)
Definition SafeRegistryCall (self : ObjectPtr) (c : Call) : Prop :=
  match c with
  | CallRegisterListener _ _ _ _ _ _ _ => True
  | CallUnregisterListener h =>
      IsValid h = false \/ WeakEq (Subsystem h) (MakeWeak self) = true
  | CallUpdateRegisterListenerLocation _ _ _ => True
  | _ => False
  end.

Definition QuietListener (self : ObjectPtr)
    (L : FGameplayWorldMessageListenerData) : Prop :=
  Forall (SafeRegistryCall self) (ReceivedCallback L).

Definition InvokedOf (ch : FGameplayTag) (ty : ObjectPtr) (pos : FVector)
    (ls : list FGameplayWorldMessageListenerData) : list Z :=
  map HandleID (List.filter (IsInvoked ch ty pos) ls).


(** The arguments of one spatial [RegisterListenerInternal] call. *)
Record Registration : Type := {
  RegChannel : FGameplayTag;
  RegCallback : list Call;
  RegStructType : ObjectPtr;
  RegMatchType : EGameplayMessageMatch;
  RegPriority : Z;
  RegListenPosition : FVector;
  RegListenRadius : Q
}.

Definition Register (r : Registration) (w : UGameplayWorldMessageSubsystem)
    : UGameplayWorldMessageSubsystem :=
  fst (RegisterListenerInternal (RegChannel r) (RegCallback r)
         (RegStructType r) (RegMatchType r) (RegPriority r)
         (RegListenPosition r) (RegListenRadius r) w).

Definition RegisterAll (rs : list Registration)
    (w : UGameplayWorldMessageSubsystem) : UGameplayWorldMessageSubsystem :=
  fold_left (fun w r => Register r w) rs w.

(** The entry that the [n]-th registration creates. *)
Definition EntryOf (r : Registration) (n : Z)
    : FGameplayWorldMessageListenerData :=
  {| ReceivedCallback := RegCallback r;
     HandleID := wrap32 n;
     MatchType := RegMatchType r;
     ListenerStructType := MakeWeak (RegStructType r);
     Channel := RegChannel r;
     Priority := RegPriority r;
     ListenPosition := RegListenPosition r;
     ListenRadius := RegListenRadius r |}.

(** How often a grid id occurs among the cells of a registration (once,
    for a listening circle inside the [int32] grid range). *)
Definition TimesFiled (g : Z) (r : Registration) : nat :=
  length (List.filter (Z.eqb g)
            (RelevantGridsOf (RegListenPosition r) (RegListenRadius r))).

(** The entries filed under the cell [g] by the registrations [rs], in
    registration order; [n] registrations came before. *)
Fixpoint FiledInOrder (n : Z) (rs : list Registration) (g : Z)
    : list FGameplayWorldMessageListenerData :=
  match rs with
  | [] => []
  | r :: rs' =>
      replicate (TimesFiled g r) (EntryOf r (n + 1))
      ++ FiledInOrder (n + 1) rs' g
  end.

End WorldMessageSubsystemSpec.

(** ** Concrete routers used in examples *)

Module Scenarios.
Import MessageSubsystem MessageSubsystemSpec.

(** A listener for exact matches on a channel, with a callback. *)
Definition ListenerWith (ch : FGameplayTag) (ty : ObjectPtr) (p : Z)
    (cb : list Call) : Registration :=
  {| RegChannel := ch; RegCallback := cb; RegStructType := ty;
     RegMatchType := ExactMatch; RegPriority := p;
     RegTargetObject := WeakNull |}.

(** The handle of the [id]-th listener of type [ty] on subsystem [self]. *)
Definition HandleFor (self ty : ObjectPtr) (id : Z)
    : FGameplayMessageListenerHandle :=
  {| Subsystem := MakeWeak self; StructType := ty; ID := id |}.

(** Priorities 0, 10 and 50 registered in that order for type 7. *)
Definition ThreePriorities : UGameplayMessageSubsystem :=
  RegisterAll
    [PlainListener ["A"; "B"] 7 0; PlainListener ["A"; "B"] 7 10;
     PlainListener ["A"; "B"] 7 50]
    (NewSubsystem 1).



(** Two listeners of type 7, the first of which broadcasts a message of
    type 8; the only listener of type 8 cancels and interrupts.  No
    listener of type 7 calls [CancelMessage]. *)
Definition NestedInterrupt : UGameplayMessageSubsystem :=
  RegisterAll
    [ListenerWith ["A"; "B"] 7 0 [CallBroadcastMessage ["N"] 8 WeakNull];
     PlainListener ["A"; "B"] 7 50;
     ListenerWith ["N"] 8 50 [CallCancelMessage true true]]
    (NewSubsystem 1).


(** A listening position and the spatial router with one listener there. *)
Definition ExamplePosition : WorldMessageSubsystem.FVector :=
  {| WorldMessageSubsystem.VecX := 100; WorldMessageSubsystem.VecY := 200;
     WorldMessageSubsystem.VecZ := 0 |}.

Definition ExampleRegistered
    : WorldMessageSubsystem.UGameplayWorldMessageSubsystem :=
  fst (WorldMessageSubsystem.RegisterListenerInternal ["A"] [] 7 ExactMatch 50
         ExamplePosition 2000 (WorldMessageSubsystem.NewSubsystem 1)).

Definition ExampleHandle
    : WorldMessageSubsystem.FGameplayWorldMessageListenerHandle :=
  {| WorldMessageSubsystem.Subsystem := WeakLive 1;
     WorldMessageSubsystem.StructType := 7;
     WorldMessageSubsystem.ID := 1 |}.

End Scenarios.

(** ** Histories of the spatial router *)

Module WorldOperations.
Import WorldMessageSubsystem WorldMessageSubsystemSpec.

(** Registrations, unregistrations and location updates, in the order they
    are made. *)
Inductive Operation : Type :=
| OpRegister (r : Registration)
| OpUnregister (ty : ObjectPtr) (id : Z)
| OpUpdate (h : FGameplayWorldMessageListenerHandle) (P : FVector) (R : Q).

Definition RunOperation (w : UGameplayWorldMessageSubsystem) (op : Operation)
    : UGameplayWorldMessageSubsystem :=
  match op with
  | OpRegister r => Register r w
  | OpUnregister ty id => UnregisterListenerInternal ty id w
  | OpUpdate h P R => fst (UpdateRegisterListenerLocation h P R w)
  end.

Definition RunOperations (ops : list Operation)
    (w : UGameplayWorldMessageSubsystem) : UGameplayWorldMessageSubsystem :=
  fold_left RunOperation ops w.

(** The listening circles an operation files a listener under lie in the
    part of the world whose grid coordinates are [int32] values; location
    updates name their radius. *)
Definition InRange (op : Operation) : Prop :=
  match op with
  | OpRegister r => FitsGrid (RegListenPosition r) (RegListenRadius r)
  | OpUnregister _ _ => True
  | OpUpdate _ P R => (0 <= R)%Q /\ FitsGrid P R
  end.

(** Every cell's listener array is in priority order. *)
Definition CellsSorted (w : UGameplayWorldMessageSubsystem) : Prop :=
  forall g, StronglySorted (PriorityLe Priority) (EntriesAt g w).

(** The map holds no cell whose listener array is empty. *)
Definition NoEmptyCell (m : gmap Z FGridListenerList) : Prop :=
  forall g L, m !! g = Some L -> Listeners L <> [].

(** While a listener is removed from its cells, the cells whose array has
    become empty are the ones marked for cleanup. *)
Definition EmptiesMarked (m : gmap Z FGridListenerList) (cl : list Z) : Prop :=
  forall g L, m !! g = Some L -> Listeners L = [] -> g ∈ cl.

(** The handle ids in use lie between 1 and the counter. *)
Definition IdsIssued (w : UGameplayWorldMessageSubsystem) : Prop :=
  (forall g, Forall (fun e => 0 < HandleID e <= GlobalHandleID w)
               (EntriesAt g w))
  /\ (forall h info, HandleToSpatialMap w !! h = Some info ->
                     0 < h <= GlobalHandleID w).

(** The handle index and the cells agree: every handle of the index
    belongs to a listener on record, and every entry of a cell carries a
    handle of the index. *)
Definition OnRecord (w : UGameplayWorldMessageSubsystem) : Prop :=
  (forall h info, HandleToSpatialMap w !! h = Some info ->
                  exists E, HandleID E = h /\ Tracked w E)
  /\ (forall g, Forall (fun e => is_Some (HandleToSpatialMap w !! HandleID e))
                  (EntriesAt g w)).


End WorldOperations.


(** ** Grid coordinates: the way back from a grid id *)

Module GridCoordinates.
Import WorldMessageSubsystem.



End GridCoordinates.

(** ** The public interface of the routers

    The member templates of [GameplayMessageSubsystem.h] and
    [GameplayWorldMessageSubsystem.h].  [StructType] stands for
    [TBaseStructure<FMessageStructType>::Get()]; the thunk that casts the
    payload back to [FMessageStructType] runs the callback it wraps. *)

Module MessageSubsystemAPI.
Import MessageSubsystem.

(** [UE_DEFINE_GAMEPLAY_TAG_COMMENT(TAG_DefaultMessageChannel, "Message", ...)] *)
Definition TAG_DefaultMessageChannel : FGameplayTag := ["Message"].

(** [BroadcastMessage(Message, Channel, TargetObject)] *)
Definition BroadcastMessage (Depth : nat) (StructType : ObjectPtr)
    (Channel : FGameplayTag) (TargetObject : TWeakObjectPtr)
    (w : UGameplayMessageSubsystem) : Outcome BroadcastReturn :=
  BroadcastMessageInternal Depth Channel StructType TargetObject w.

(** [BroadcastSimpleMessage(Message, TargetObject)] *)
Definition BroadcastSimpleMessage (Depth : nat) (StructType : ObjectPtr)
    (TargetObject : TWeakObjectPtr) (w : UGameplayMessageSubsystem)
    : Outcome BroadcastReturn :=
  BroadcastMessageInternal Depth TAG_DefaultMessageChannel StructType
    TargetObject w.

(** [RegisterListener(Callback, Priority, TargetObject)] *)
Definition RegisterSimpleListener (Callback : list Call)
    (StructType : ObjectPtr) (Priority : EGameplayMessagePriority)
    (TargetObject : TWeakObjectPtr) (w : UGameplayMessageSubsystem)
    : UGameplayMessageSubsystem * FGameplayMessageListenerHandle :=
  RegisterListenerInternal TAG_DefaultMessageChannel Callback StructType
    PartialMatch (PriorityValue Priority) TargetObject w.

(** [UGameplayMessageSubsystem::Deinitialize]; [Super::Deinitialize] is
    the engine's. *)
Definition Deinitialize (w : UGameplayMessageSubsystem)
    : UGameplayMessageSubsystem :=
  SetListenerMap ∅ w.

End MessageSubsystemAPI.

Module WorldMessageSubsystemAPI.
Import WorldMessageSubsystem.

Definition TAG_DefaultMessageChannel : FGameplayTag := ["Message"].

(** [BroadcastMessage(Message, Channel, WorldPosition)] *)
Definition BroadcastMessage (Depth : nat) (StructType : ObjectPtr)
    (Channel : FGameplayTag) (WorldPosition : FVector)
    (w : UGameplayWorldMessageSubsystem) : Outcome BroadcastReturn :=
  BroadcastMessageInternal Depth Channel StructType WorldPosition w.

(** [BroadcastSimpleMessage(Message, WorldPosition)] *)
Definition BroadcastSimpleMessage (Depth : nat) (StructType : ObjectPtr)
    (WorldPosition : FVector) (w : UGameplayWorldMessageSubsystem)
    : Outcome BroadcastReturn :=
  BroadcastMessageInternal Depth TAG_DefaultMessageChannel StructType
    WorldPosition w.

(** [RegisterListener(Callback, ListenPosition, ListenRadius, Priority)] *)
Definition RegisterSimpleListener (Callback : list Call)
    (StructType : ObjectPtr) (ListenPosition : FVector) (ListenRadius : Q)
    (Priority : EGameplayMessagePriority) (w : UGameplayWorldMessageSubsystem)
    : UGameplayWorldMessageSubsystem * FGameplayWorldMessageListenerHandle :=
  RegisterListenerInternal TAG_DefaultMessageChannel Callback StructType
    PartialMatch (PriorityValue Priority) ListenPosition ListenRadius w.

(** [UGameplayWorldMessageSubsystem::Deinitialize]; the function-local
    [static int32 GlobalHandleID] is not a member and is left alone. *)
Definition Deinitialize (w : UGameplayWorldMessageSubsystem)
    : UGameplayWorldMessageSubsystem :=
  SetHandleToSpatialMap ∅ (SetGridListenerMap ∅ w).

End WorldMessageSubsystemAPI.

(** ** Vocabulary of the statements about spatial callbacks *)

Module WorldCallbackSpec.
Import WorldMessageSubsystem.

(** Calls of a spatial callback that only touch the registry. *)
Definition RegistryCall (c : Call) : Prop :=
  match c with
  | CallRegisterListener _ _ _ _ _ _ _ | CallUnregisterListener _
  | CallUpdateRegisterListenerLocation _ _ _ => True
  | _ => False
  end.

End WorldCallbackSpec.

(** ** Vocabulary of the statements about stale listeners *)

Module StaleSpec.
Import MessageSubsystem.

(** The listener's struct type has gone invalid. *)
Definition IsStale (L : FGameplayMessageListenerData) : bool :=
  negb (WeakIsValid (ListenerStructType L)).

(** The handle ids of the stale listeners of an array. *)
Definition StaleIDs (ls : list FGameplayMessageListenerData) : list Z :=
  map HandleID (List.filter IsStale ls).

(** The entry carries none of the given handle ids. *)
Definition NotAmong (ids : list Z) (e : FGameplayMessageListenerData) : bool :=
  forallb (fun i => negb (HandleID e =? i)) ids.

End StaleSpec.

(** ** Concrete spatial routers used in examples *)

Module WorldScenarios.
Import WorldMessageSubsystem WorldMessageSubsystemSpec WorldOperations.

Definition At (x y : Q) : FVector := {| VecX := x; VecY := y; VecZ := 0 |}.

(** A listener of type 7 for exact matches on channel [A]. *)
Definition ListenerAt (p : Z) (cb : list Call) (P : FVector) (R : Q)
    : Registration :=
  {| RegChannel := ["A"]; RegCallback := cb; RegStructType := 7;
     RegMatchType := ExactMatch; RegPriority := p;
     RegListenPosition := P; RegListenRadius := R |}.

(** The handle with the given id on subsystem 1. *)
Definition OwnHandle (id : Z) : FGameplayWorldMessageListenerHandle :=
  {| Subsystem := WeakLive 1; StructType := 7; ID := id |}.

(** Three listeners come, the first one leaves and the second one moves
    next to the third. *)
Definition ExampleHistory : list Operation :=
  [OpRegister (ListenerAt 50 [] (At 100 200) 2000);
   OpRegister (ListenerAt 10 [] (At 0 0) 100);
   OpRegister (ListenerAt 0 [] (At 3000 0) 500);
   OpUnregister 7 1;
   OpUpdate (OwnHandle 2) (At 2900 100) 300].



(** Two listeners of type 7 at one place, the first of which broadcasts a
    message of type 8 from there; the only listener of type 8 cancels and
    interrupts. *)
Definition NestedInterrupt : UGameplayWorldMessageSubsystem :=
  RegisterAll
    [ListenerAt 0 [CallBroadcastMessage ["N"] 8 (At 100 200)] (At 100 200) 50;
     ListenerAt 50 [] (At 100 200) 50;
     {| RegChannel := ["N"]; RegCallback := [CallCancelMessage true true];
        RegStructType := 8; RegMatchType := ExactMatch; RegPriority := 50;
        RegListenPosition := At 100 200; RegListenRadius := 50 |}]
    (NewSubsystem 1).

End WorldScenarios.

(** ** A global router holding a stale listener *)

Module StaleScenario.
Import MessageSubsystem.

Definition Entry (id : Z) (ty : TWeakObjectPtr) : FGameplayMessageListenerData :=
  {| ReceivedCallback := []; HandleID := id; MatchType := ExactMatch;
     ListenerStructType := ty; Channel := ["A"]; Priority := 50;
     TargetObject := WeakNull |}.

(** Three listeners of type 7; the struct type of the second one has gone
    invalid. *)
Definition OneStale : UGameplayMessageSubsystem :=
  {| this := 1;
     ListenerMap :=
       {[ 7%nat := {| Listeners := [Entry 1 (WeakLive 7); Entry 2 WeakStale;
                                    Entry 3 (WeakLive 7)];
                      LastHandleID := 3 |} ]};
     BroadcastResultCache := ResetResult;
     LogOutput := [] |}.

End StaleScenario.

(** * Properties *)

(** ** The priority scan *)

Section PriorityScanFacts.
Context {A : Type} (PriorityOf : A -> Z).

Lemma ScanFrom_spec (l : list A) (p : Z) (n : nat) :
  let k := ScanFrom PriorityOf l p n n in
  (k <= n)%nat
  /\ (forall j e, (k <= j < n)%nat -> l !! j = Some e -> p < PriorityOf e)
  /\ (k = 0%nat \/ (length l < k)%nat
      \/ exists e, l !! (k - 1)%nat = Some e /\ PriorityOf e <= p).
Proof.
  induction n as [|n IH]; simpl.
  - split; [lia|]. split; [intros; lia | by left].
  - destruct (l !! n) as [e|] eqn:He.
    + destruct (Z.gtb_spec (PriorityOf e) p) as [Hgt|Hle].
      * destruct IH as (IH1 & IH2 & IH3).
        split; [lia|]. split; [|exact IH3].
        intros j e' Hj Hl.
        destruct (decide (j = n)) as [->|Hne].
        -- rewrite He in Hl. injection Hl as <-. lia.
        -- apply (IH2 j e'); [lia | done].
      * split; [lia|]. split; [intros; lia|].
        right. right. exists e. split; [|lia].
        by replace (S n - 1)%nat with n by lia.
    + split; [lia|]. split; [intros; lia|].
      right. left. apply lookup_ge_None in He. lia.
Qed.

(** The scan cuts a sorted list into the entries that stay in front of the
    new one and the strictly larger ones that move behind it. *)
Lemma InsertIndex_split (l : list A) (p : Z) :
  StronglySorted (PriorityLe PriorityOf) l ->
  Forall (fun e => PriorityOf e <= p) (take (InsertIndex PriorityOf l p) l)
  /\ Forall (fun e => p < PriorityOf e) (drop (InsertIndex PriorityOf l p) l).
Proof.
  intros Hs. unfold InsertIndex.
  destruct (ScanFrom_spec l p (length l)) as (H1 & H2 & H3).
  set (k := ScanFrom PriorityOf l p (length l) (length l)) in *.
  split.
  - apply Forall_lookup. intros i e Hi.
    assert (i < k)%nat as Hik.
    { apply lookup_lt_Some in Hi. rewrite length_take in Hi. lia. }
    rewrite lookup_take_lt in Hi by done.
    destruct H3 as [H3|[H3|(e' & He' & Hle)]]; [lia | lia |].
    destruct (decide (i = k - 1)%nat) as [->|Hne].
    + rewrite He' in Hi. by injection Hi as <-.
    + assert (PriorityLe PriorityOf e e') as Hee'; [|unfold PriorityLe in Hee'; lia].
      rewrite <- (take_drop_middle l i e) in Hs by done.
      apply StronglySorted_app_1_r in Hs.
      apply StronglySorted_inv in Hs as [_ Hall].
      eapply Forall_forall; [exact Hall|].
      apply list_elem_of_lookup.
      exists (k - 1 - S i)%nat. rewrite lookup_drop.
      rewrite <- He'. f_equal. lia.
  - apply Forall_lookup. intros i e Hi. rewrite lookup_drop in Hi.
    apply (H2 (k + i)%nat e); [|done].
    apply lookup_lt_Some in Hi. lia.
Qed.

Lemma InsertIndex_le_length (l : list A) (p : Z) :
  (InsertIndex PriorityOf l p <= length l)%nat.
Proof. unfold InsertIndex. apply (ScanFrom_spec l p (length l)). Qed.

(** Only a suffix of strictly larger priorities is ever skipped, sorted
    or not. *)
Lemma InsertIndex_drop (l : list A) (p : Z) :
  Forall (fun e => p < PriorityOf e) (drop (InsertIndex PriorityOf l p) l).
Proof.
  unfold InsertIndex.
  destruct (ScanFrom_spec l p (length l)) as (H1 & H2 & _).
  apply Forall_lookup. intros i e Hi. rewrite lookup_drop in Hi.
  eapply H2; [|exact Hi]. apply lookup_lt_Some in Hi. lia.
Qed.

Lemma PriorityInsert_sorted (e : A) (l : list A) :
  StronglySorted (PriorityLe PriorityOf) l ->
  StronglySorted (PriorityLe PriorityOf) (PriorityInsert PriorityOf e l).
Proof.
  intros Hs. unfold PriorityInsert, Insert.
  destruct (InsertIndex_split l (PriorityOf e) Hs) as [Ha Hb].
  set (k := InsertIndex PriorityOf l (PriorityOf e)) in *.
  rewrite <- (take_drop k l) in Hs.
  apply StronglySorted_app_2.
  - intros x1 x2 Hx1 Hx2.
    rewrite Forall_forall in Ha. rewrite Forall_forall in Hb.
    apply Ha in Hx1.
    apply elem_of_cons in Hx2 as [->|Hx2]; unfold PriorityLe; [lia|].
    apply Hb in Hx2. lia.
  - by apply StronglySorted_app_1_l in Hs.
  - constructor.
    + by apply StronglySorted_app_1_r in Hs.
    + eapply Forall_impl; [exact Hb|]. unfold PriorityLe. simpl. intros; lia.
Qed.

(** Entries of one priority keep their order, and a new entry goes behind
    the older entries of its own priority. *)
Lemma PriorityInsert_filter_eq (e : A) (l : list A) :
  filter (fun x => PriorityOf x = PriorityOf e) (PriorityInsert PriorityOf e l)
  = filter (fun x => PriorityOf x = PriorityOf e) l ++ [e].
Proof.
  unfold PriorityInsert, Insert.
  pose proof (InsertIndex_drop l (PriorityOf e)) as Hb.
  set (k := InsertIndex PriorityOf l (PriorityOf e)) in *.
  rewrite <- (take_drop k l) at 3.
  rewrite !filter_app, filter_cons_True by done.
  assert (filter (fun x => PriorityOf x = PriorityOf e) (drop k l) = []) as ->.
  { induction Hb as [|x xs Hx _ IH]; [done|].
    rewrite filter_cons_False by lia. exact IH. }
  by rewrite app_nil_r.
Qed.

Lemma PriorityInsert_filter_ne (q : Z) (e : A) (l : list A) :
  PriorityOf e <> q ->
  filter (fun x => PriorityOf x = q) (PriorityInsert PriorityOf e l)
  = filter (fun x => PriorityOf x = q) l.
Proof.
  intros Hne. unfold PriorityInsert, Insert.
  set (k := InsertIndex PriorityOf l (PriorityOf e)).
  rewrite <- (take_drop k l) at 3.
  by rewrite !filter_app, filter_cons_False.
Qed.
End PriorityScanFacts.

(** ** Registration order in the global router *)

Module MessageSubsystemFacts.
Import MessageSubsystem MessageSubsystemSpec.

Lemma wrap32_succ (a : Z) : wrap32 (wrap32 a + 1) = wrap32 (a + 1).
Proof.
  unfold wrap32.
  replace ((a + 2 ^ 31) mod 2 ^ 32 - 2 ^ 31 + 1 + 2 ^ 31)
    with ((a + 2 ^ 31) mod 2 ^ 32 + 1) by lia.
  rewrite Zplus_mod_idemp_l. f_equal. f_equal. lia.
Qed.

Lemma wrap32_small (a : Z) : - 2 ^ 31 <= a < 2 ^ 31 -> wrap32 a = a.
Proof. intros H. unfold wrap32. rewrite Z.mod_small; lia. Qed.

Lemma RegisterAll_snoc rs r w :
  RegisterAll (rs ++ [r]) w = Register r (RegisterAll rs w).
Proof. unfold RegisterAll. by rewrite fold_left_app. Qed.

Lemma CountOf_app ty rs rs' : CountOf ty (rs ++ rs') = CountOf ty rs + CountOf ty rs'.
Proof.
  induction rs as [|r rs IH]; simpl; [lia|].
  destruct (decide (RegStructType r = ty)); lia.
Qed.

Lemma InRegistrationOrder_app n rs rs' ty :
  InRegistrationOrder n (rs ++ rs') ty
  = InRegistrationOrder n rs ty
    ++ InRegistrationOrder (n + CountOf ty rs) rs' ty.
Proof.
  revert n. induction rs as [|r rs IH]; intros n; simpl.
  - f_equal. lia.
  - destruct (decide (RegStructType r = ty)); simpl; rewrite IH; [|done].
    by replace (n + (1 + CountOf ty rs)) with (n + 1 + CountOf ty rs) by lia.
Qed.

Lemma ListFor_Register_same r w :
  ListFor (RegStructType r) (Register r w)
  = {| Listeners :=
         PriorityInsert Priority
           (EntryOf r (LastHandleID (ListFor (RegStructType r) w) + 1))
           (ListenersFor (RegStructType r) w);
       LastHandleID := wrap32 (LastHandleID (ListFor (RegStructType r) w) + 1) |}.
Proof.
  unfold ListFor, ListenersFor, Register, RegisterListenerInternal. simpl.
  rewrite lookup_insert_eq. simpl. reflexivity.
Qed.

Lemma ListFor_Register_other r w ty :
  RegStructType r <> ty -> ListFor ty (Register r w) = ListFor ty w.
Proof.
  intros Hne. unfold ListFor, Register, RegisterListenerInternal. simpl.
  by rewrite lookup_insert_ne.
Qed.

(** What a run of registrations on a new subsystem maintains for each
    message type. *)
Lemma RegisterAll_invariant self rs ty :
  let L := ListFor ty (RegisterAll rs (NewSubsystem self)) in
  StronglySorted (PriorityLe Priority) (Listeners L)
  /\ (forall p, filter (fun e => Priority e = p) (Listeners L)
                = filter (fun e => Priority e = p) (InRegistrationOrder 0 rs ty))
  /\ LastHandleID L = wrap32 (CountOf ty rs).
Proof.
  induction rs as [|r rs IH] using rev_ind.
  - simpl. unfold ListFor. simpl. rewrite lookup_empty. simpl.
    split; [constructor|]. split; [done|]. reflexivity.
  - rewrite RegisterAll_snoc. cbv zeta in *.
    set (w := RegisterAll rs (NewSubsystem self)) in *.
    destruct IH as (Hs & Hf & Hc).
    rewrite InRegistrationOrder_app, CountOf_app. simpl.
    destruct (decide (RegStructType r = ty)) as [<-|Hne].
    + rewrite ListFor_Register_same. simpl.
      rewrite Hc, wrap32_succ.
      assert (EntryOf r (wrap32 (CountOf (RegStructType r) rs) + 1)
              = EntryOf r (0 + CountOf (RegStructType r) rs + 1)) as ->.
      { unfold EntryOf. f_equal. rewrite wrap32_succ. f_equal; lia. }
      split; [by apply PriorityInsert_sorted|].
      split; [|f_equal; lia].
      intros p. rewrite filter_app.
      destruct (decide (RegPriority r = p)) as [<-|Hp].
      * rewrite filter_cons_True by done. rewrite filter_nil.
        rewrite <- Hf.
        apply (PriorityInsert_filter_eq Priority
                 (EntryOf r (0 + CountOf (RegStructType r) rs + 1))).
      * rewrite filter_cons_False by done. rewrite filter_nil, app_nil_r.
        rewrite <- Hf. by apply PriorityInsert_filter_ne.
    + rewrite ListFor_Register_other by done.
      rewrite app_nil_r, Z.add_0_r. done.
Qed.

(** The global router: lists stay sorted and stable, and the example of
    priorities 50, 10, 50, 0. *)
Lemma Global_priority_stable :
  (forall self rs ty,
     let l := ListenersFor ty (RegisterAll rs (NewSubsystem self)) in
     StronglySorted (PriorityLe Priority) l
     /\ forall p, filter (fun e => Priority e = p) l
                  = filter (fun e => Priority e = p) (InRegistrationOrder 0 rs ty))
  /\ (let w := RegisterAll
                 [PlainListener ["A"; "B"] 7 50; PlainListener ["A"; "B"] 7 10;
                  PlainListener ["A"; "B"] 7 50; PlainListener ["A"; "B"] 7 0]
                 (NewSubsystem 1) in
      map (fun e => (Priority e, HandleID e)) (ListenersFor 7%nat w)
        = [(0, 4); (10, 2); (50, 1); (50, 3)]
      /\ exists w', BroadcastMessageInternal 1 ["A"; "B"] 7 WeakNull w
                    = Returned (w', ResetResult, [4; 2; 1; 3])).
Proof.
  split.
  - intros self rs ty.
    destruct (RegisterAll_invariant self rs ty) as (Hs & Hf & _).
    by split.
  - split; [vm_compute; reflexivity|].
    eexists. vm_compute. reflexivity.
Qed.

End MessageSubsystemFacts.

(** ** The dispatch loop of the global router *)

Module DispatchFacts.
Import MessageSubsystem MessageSubsystemSpec CallbackSpec.

Section Loop.
Variable N : FGameplayTag -> ObjectPtr -> TWeakObjectPtr ->
             UGameplayMessageSubsystem -> Outcome BroadcastReturn.

Lemma DispatchLoop_invoke ch ty tgt L rest w :
  IsInvoked ch ty tgt L = true ->
  DispatchLoop N ch ty tgt (L :: rest) w
  = (w' <-! RunCallback N (ReceivedCallback L) w;
     if bInterrupted (BroadcastResultCache w')
     then Returned (w', [HandleID L])
     else r <-! DispatchLoop N ch ty tgt rest w';
          Returned (fst r, HandleID L :: snd r)).
Proof.
  unfold IsInvoked. intros [Hv Hp]%andb_true_iff. simpl.
  by rewrite Hv, Hp.
Qed.

Lemma DispatchLoop_skip ch ty tgt L rest w :
  WeakIsValid (ListenerStructType L) = true ->
  PassesFilters ch ty tgt L = false ->
  DispatchLoop N ch ty tgt (L :: rest) w = DispatchLoop N ch ty tgt rest w.
Proof. intros Hv Hp. simpl. by rewrite Hv, Hp. Qed.

Lemma DispatchLoop_stale ch ty tgt L rest w :
  WeakIsValid (ListenerStructType L) = false ->
  DispatchLoop N ch ty tgt (L :: rest) w
  = DispatchLoop N ch ty tgt rest
      (UnregisterListenerInternal ty (HandleID L) (UE_LOG StaleWarning w)).
Proof. intros Hv. simpl. by rewrite Hv. Qed.

(** The loop works through the copied array and nothing else: the
    listeners it calls are, in order, the ones of the copy that pass the
    tests, up to the point where a callback interrupts. *)
Lemma DispatchLoop_snapshot ch ty tgt ls :
  forall w w' inv,
    DispatchLoop N ch ty tgt ls w = Returned (w', inv) ->
    (exists k, inv = take k (InvokedOf ch ty tgt ls))
    /\ (bInterrupted (BroadcastResultCache w') = false ->
        inv = InvokedOf ch ty tgt ls).
Proof.
  unfold InvokedOf.
  induction ls as [|L rest IH]; intros w w' inv Hrun.
  - simpl in Hrun. injection Hrun as <- <-. split; [by exists 0%nat | done].
  - destruct (IsInvoked ch ty tgt L) eqn:Hinv.
    + rewrite DispatchLoop_invoke in Hrun by done.
      simpl. rewrite Hinv. simpl.
      destruct (RunCallback N (ReceivedCallback L) w) as [w1| |];
        simpl in Hrun; try discriminate.
      destruct (bInterrupted (BroadcastResultCache w1)) eqn:Hint.
      * injection Hrun as <- <-. split; [by exists 1%nat | congruence].
      * destruct (DispatchLoop N ch ty tgt rest w1) as [[w2 inv2]| |] eqn:Hrest;
          simpl in Hrun; try discriminate.
        injection Hrun as <- <-.
        destruct (IH _ _ _ Hrest) as [[k Hk] Hall].
        split; [exists (S k); simpl; by rewrite Hk |].
        intros Hni. by rewrite Hall.
    + simpl. rewrite Hinv.
      unfold IsInvoked in Hinv.
      destruct (WeakIsValid (ListenerStructType L)) eqn:Hv; simpl in Hinv.
      * rewrite DispatchLoop_skip in Hrun by done. eauto.
      * rewrite DispatchLoop_stale in Hrun by done. eauto.
Qed.


Lemma UnregisterListenerInternal_frame ty id w :
  BroadcastResultCache (UnregisterListenerInternal ty id w)
    = BroadcastResultCache w
  /\ this (UnregisterListenerInternal ty id w) = this w.
Proof.
  unfold UnregisterListenerInternal.
  destruct (ListenerMap w !! ty); [|done].
  by case_decide.
Qed.



Lemma RunCallback_safe cs :
  forall w, Forall (SafeRegistryCall (this w)) cs ->
    exists w', RunCallback N cs w = Returned w'
               /\ BroadcastResultCache w' = BroadcastResultCache w
               /\ this w' = this w.
Proof.
  induction cs as [|c cs IH]; intros w Hsafe; simpl.
  - by exists w.
  - apply Forall_cons in Hsafe as [Hc Hcs].
    assert (exists w1, RunCall N c w = Returned w1
              /\ BroadcastResultCache w1 = BroadcastResultCache w
              /\ this w1 = this w) as (w1 & -> & Hb & Ht).
    { destruct c; simpl in Hc; try done; simpl.
      - eexists; split; [done|]. done.
      - unfold UnregisterListener.
        destruct (IsValid Handle) eqn:Hv.
        + destruct Hc as [Hc|Hc]; [congruence|]. rewrite Hc.
          eexists; split; [done|]. apply UnregisterListenerInternal_frame.
        + eexists; split; [done|]. done. }
    simpl. rewrite <- Ht in Hcs.
    destruct (IH w1 Hcs) as (w' & Hrun & Hb' & Ht').
    exists w'. split; [done|]. split; congruence.
Qed.

(** With quiet listeners only, every listener of the copy that passes the
    tests is called, and the broadcast result stays as it was. *)
Lemma DispatchLoop_quiet ch ty tgt ls :
  forall w,
    Forall (QuietListener (this w)) ls ->
    bInterrupted (BroadcastResultCache w) = false ->
    exists w', DispatchLoop N ch ty tgt ls w
                 = Returned (w', InvokedOf ch ty tgt ls)
               /\ BroadcastResultCache w' = BroadcastResultCache w.
Proof.
  unfold InvokedOf.
  induction ls as [|L rest IH]; intros w Hq Hni.
  - by exists w.
  - apply Forall_cons in Hq as [HL Hq].
    destruct (IsInvoked ch ty tgt L) eqn:Hinv.
    + rewrite DispatchLoop_invoke by done. simpl. rewrite Hinv. simpl.
      destruct (RunCallback_safe _ w HL) as (w1 & -> & Hb & Ht). simpl.
      rewrite Hb, Hni.
      rewrite <- Ht in Hq. rewrite <- Hb in Hni.
      destruct (IH w1 Hq Hni) as (w' & -> & Hb').
      exists w'. split; [done | congruence].
    + pose proof Hinv as Hinv'. unfold IsInvoked in Hinv'.
      destruct (WeakIsValid (ListenerStructType L)) eqn:Hv; simpl in Hinv'.
      * rewrite DispatchLoop_skip by done. simpl. rewrite Hinv. eauto.
      * rewrite DispatchLoop_stale by done. simpl List.filter. rewrite Hinv.
        destruct (UnregisterListenerInternal_frame ty (HandleID L)
                    (UE_LOG StaleWarning w)) as [Hb Ht].
        simpl in Hb, Ht.
        rewrite <- Ht in Hq. rewrite <- Hb in Hni.
        destruct (IH _ Hq Hni) as (w' & -> & Hb').
        exists w'. split; [done | congruence].
Qed.
End Loop.


End DispatchFacts.

(** ** Cancellation, interruption and nesting in the global router *)

Module BroadcastFacts.
Import MessageSubsystem MessageSubsystemSpec CallbackSpec DispatchFacts.



(** The listeners a broadcast of the global router calls are, in order and
    each once, the entries that pass the tests in the listener array as it
    stood when the broadcast began, cut off where a callback interrupted. *)
Lemma Broadcast_snapshot d ch ty tgt w w' r inv :
  BroadcastMessageInternal d ch ty tgt w = Returned (w', r, inv) ->
  (exists k, inv = take k (InvokedOf ch ty tgt (ListenersFor ty w)))
  /\ (bInterrupted r = false ->
      inv = InvokedOf ch ty tgt (ListenersFor ty w)).
Proof.
  destruct d as [|d]; [done|]. simpl. unfold BroadcastBody. simpl.
  unfold ListenersFor, ListFor.
  destruct (ListenerMap w !! ty) as [pList|]; simpl.
  - destruct (DispatchLoop _ _ _ _ _ _) as [[w1 inv1]| |] eqn:Hloop;
      simpl; try done.
    intros [= <- <- <-].
    by apply DispatchLoop_snapshot in Hloop.
  - intros [= <- <- <-]. split; [by exists 0%nat | done].
Qed.


Lemma IsRootedAt_spec (Parent Tag : FGameplayTag) :
  IsRootedAt Parent Tag = true <-> exists rest, Tag = Parent ++ rest.
Proof.
  revert Tag. induction Parent as [|p Parent IH]; intros Tag; simpl.
  - split; [by exists Tag | done].
  - destruct Tag as [|t Tag].
    + split; [done | by intros [rest Hrest]].
    + rewrite andb_true_iff, bool_decide_eq_true, IH. split.
      * intros [-> [rest ->]]. by exists rest.
      * intros [rest [= -> ->]]. split; [done | by exists rest].
Qed.

Lemma TagRule_spec (m : EGameplayMessageMatch) (C ch : FGameplayTag) :
  (let bMatchAny := bool_decide (m = PartialMatch) && MatchesTag ch C in
   let bMatchExact := bool_decide (m = ExactMatch) && MatchesTagExact ch C in
   negb (negb bMatchAny && negb bMatchExact)) = true
  <-> TagRule m C ch.
Proof.
  cbv zeta. unfold MatchesTag, MatchesTagExact, TagRule.
  destruct m; simpl.
  - rewrite negb_involutive, bool_decide_eq_true. done.
  - rewrite andb_true_r, negb_involutive. apply IsRootedAt_spec.
Qed.

Lemma IsInvoked_spec ch ty tgt L :
  IsInvoked ch ty tgt L = true
  <-> WeakIsValid (ListenerStructType L) = true
      /\ ty = WeakGet (ListenerStructType L)
      /\ TargetAccepts (TargetObject L) tgt
      /\ TagRule (MatchType L) (Channel L) ch.
Proof.
  unfold IsInvoked, PassesFilters.
  rewrite !andb_true_iff, bool_decide_eq_true.
  rewrite (TagRule_spec (MatchType L) (Channel L) ch).
  unfold TargetAccepts.
  destruct (IsExplicitlyNull (TargetObject L)),
    (WeakEq (TargetObject L) tgt); simpl; intuition congruence.
Qed.

End BroadcastFacts.

(** ** The grid *)

Module GridFacts.
Import WorldMessageSubsystem WorldMessageSubsystemSpec.
Local Open Scope Q_scope.

Lemma Qlt_bool_iff a b : Qlt_bool a b = true <-> a < b.
Proof.
  unfold Qlt_bool. rewrite negb_true_iff. split.
  - intros H. apply Qnot_le_lt. intros Hle.
    apply Qle_bool_iff in Hle. congruence.
  - intros H. destruct (Qle_bool b a) eqn:E; [|done].
    apply Qle_bool_iff in E. lra.
Qed.

Lemma Qlt_bool_false a b : Qlt_bool a b = false <-> b <= a.
Proof.
  unfold Qlt_bool. rewrite negb_false_iff. apply Qle_bool_iff.
Qed.

Lemma Qsquare_nonneg (x : Q) : 0 <= x * x.
Proof. destruct (Qlt_le_dec x 0); nra. Qed.

Lemma div_GRID_SIZE x : x / GRID_SIZE == x * (1 # 1600).
Proof. unfold Qdiv, GRID_SIZE. reflexivity. Qed.

Lemma div_GRID_SIZE_le x y : x <= y -> x / GRID_SIZE <= y / GRID_SIZE.
Proof.
  intros H. pose proof (div_GRID_SIZE x). pose proof (div_GRID_SIZE y). lra.
Qed.

(** A coordinate lies in the cell that [FloorToInt] assigns to it. *)
Lemma FloorToInt_cell x :
  inject_Z (FloorToInt (x / GRID_SIZE)) * GRID_SIZE <= x
  /\ x <= inject_Z (FloorToInt (x / GRID_SIZE) + 1) * GRID_SIZE.
Proof.
  unfold FloorToInt.
  pose proof (Qfloor_le (x / GRID_SIZE)) as H1.
  pose proof (Qlt_floor (x / GRID_SIZE)) as H2.
  pose proof (div_GRID_SIZE x) as H3.
  set (a := inject_Z (Qfloor (x / GRID_SIZE))) in *.
  set (b := inject_Z (Qfloor (x / GRID_SIZE) + 1)) in *.
  set (t := x / GRID_SIZE) in *.
  unfold GRID_SIZE. split; lra.
Qed.

(** [Clamp] yields the point of the interval closest to its argument. *)
Lemma Clamp_closest p lo hi q :
  lo <= q -> q <= hi ->
  (Clamp p lo hi - p) * (Clamp p lo hi - p) <= (q - p) * (q - p).
Proof.
  intros H1 H2. unfold Clamp.
  destruct (Qlt_bool p lo) eqn:E1.
  - apply Qlt_bool_iff in E1. nra.
  - destruct (Qlt_bool p hi) eqn:E2.
    + pose proof (Qsquare_nonneg (q - p)). lra.
    + apply Qlt_bool_false in E2. nra.
Qed.


Lemma elem_of_FromTo a b x : x ∈ FromTo a b <-> (a <= x <= b)%Z.
Proof. unfold FromTo. rewrite elem_of_seqZ. lia. Qed.

Lemma flat_map_bind {A B} (f : A -> list B) (l : list A) :
  flat_map f l = l ≫= f.
Proof. induction l as [|x l IH]; simpl; [done | by rewrite IH]. Qed.




Local Open Scope Z_scope.

Lemma PackGridID_arith (GridX GridY : Z) :
  PackGridID GridX GridY = GridX * 2 ^ 32 + GridY mod 2 ^ 32.
Proof.
  unfold PackGridID.
  change 4294967295 with (Z.ones 32).
  pose proof (Z.add_lor_land (Z.shiftl GridX 32) (Z.land GridY (Z.ones 32)))
    as Hadd.
  assert (Z.land (Z.shiftl GridX 32) (Z.land GridY (Z.ones 32)) = 0) as Hland.
  { apply Z.bits_inj'. intros n Hn.
    rewrite !Z.land_spec, Z.bits_0.
    destruct (Z.lt_ge_cases n 32).
    - by rewrite Z.shiftl_spec_low.
    - rewrite Z.ones_spec_high by lia. by rewrite !andb_false_r. }
  rewrite Hland in Hadd.
  rewrite Z.shiftl_mul_pow2, Z.land_ones in Hadd |- * by lia. lia.
Qed.

(** Distinct cells with [int32] row coordinates have distinct ids. *)
Lemma PackGridID_inj x y x' y' :
  IsInt32 y -> IsInt32 y' ->
  PackGridID x y = PackGridID x' y' -> x = x' /\ y = y'.
Proof.
  unfold IsInt32. rewrite !PackGridID_arith. intros Hy Hy' Heq.
  pose proof (Z.mod_pos_bound y (2 ^ 32) eq_refl).
  pose proof (Z.mod_pos_bound y' (2 ^ 32) eq_refl).
  pose proof (Z.div_mod y (2 ^ 32)). pose proof (Z.div_mod y' (2 ^ 32)).
  change (2 ^ 32) with 4294967296 in *. lia.
Qed.

Lemma NoDup_GetGridsInRadius (P : FVector) (R : Q) :
  FitsGrid P R -> NoDup (GetGridsInRadius P R).
Proof.
  intros (Hx1 & Hx2 & Hy1 & Hy2).
  unfold GetGridsInRadius. cbv zeta.
  rewrite flat_map_bind. apply NoDup_bind.
  - intros gx gx' g _ _ Hg Hg'.
    rewrite flat_map_bind, list_elem_of_bind in Hg, Hg'.
    destruct Hg as (gy & Hg & Hgy%elem_of_FromTo).
    destruct Hg' as (gy' & Hg' & Hgy'%elem_of_FromTo).
    destruct (GridIntersectsRadius P R gx gy);
      [apply list_elem_of_singleton in Hg | by apply elem_of_nil in Hg].
    destruct (GridIntersectsRadius P R gx' gy');
      [apply list_elem_of_singleton in Hg' | by apply elem_of_nil in Hg'].
    subst g. apply PackGridID_inj in Hg' as [? ?]; unfold IsInt32 in *; [done|lia|lia].
  - intros gx _. rewrite flat_map_bind. apply NoDup_bind.
    + intros gy gy' g Hgy%elem_of_FromTo Hgy'%elem_of_FromTo Hg Hg'.
      destruct (GridIntersectsRadius P R gx gy);
        [apply list_elem_of_singleton in Hg | by apply elem_of_nil in Hg].
      destruct (GridIntersectsRadius P R gx gy');
        [apply list_elem_of_singleton in Hg' | by apply elem_of_nil in Hg'].
      subst g. apply PackGridID_inj in Hg' as [? ?]; unfold IsInt32 in *; [done|lia|lia].
    + intros gy _. destruct (GridIntersectsRadius P R gx gy);
        [apply NoDup_singleton | apply NoDup_nil_2].
    + apply NoDup_seqZ.
  - apply NoDup_seqZ.
Qed.

Lemma NoDup_RelevantGridsOf (P : FVector) (R : Q) :
  FitsGrid P R -> NoDup (RelevantGridsOf P R).
Proof.
  intros Hfit. unfold RelevantGridsOf. cbv zeta.
  case_decide; [apply NoDup_singleton | by apply NoDup_GetGridsInRadius].
Qed.

End GridFacts.

(** ** The dispatch loop of the spatial router *)

Module WorldDispatchFacts.
Import WorldMessageSubsystem WorldMessageSubsystemSpec.

Section Loop.
Variable N : FGameplayTag -> ObjectPtr -> FVector ->
             UGameplayWorldMessageSubsystem -> Outcome BroadcastReturn.

Lemma WorldDispatchLoop_invoke ch ty pos L rest w :
  IsInvoked ch ty pos L = true ->
  DispatchLoop N ch ty pos (L :: rest) w
  = (w' <-! RunCallback N (ReceivedCallback L) w;
     if bInterrupted (BroadcastResultCache w')
     then Returned (w', [HandleID L])
     else r <-! DispatchLoop N ch ty pos rest w';
          Returned (fst r, HandleID L :: snd r)).
Proof.
  unfold IsInvoked. intros [Hv Hp]%andb_true_iff. simpl.
  by rewrite Hv, Hp.
Qed.

Lemma WorldDispatchLoop_skip ch ty pos L rest w :
  WeakIsValid (ListenerStructType L) = true ->
  PassesFilters ch ty pos L = false ->
  DispatchLoop N ch ty pos (L :: rest) w = DispatchLoop N ch ty pos rest w.
Proof. intros Hv Hp. simpl. by rewrite Hv, Hp. Qed.

Lemma WorldDispatchLoop_stale ch ty pos L rest w :
  WeakIsValid (ListenerStructType L) = false ->
  DispatchLoop N ch ty pos (L :: rest) w
  = DispatchLoop N ch ty pos rest
      (UnregisterListenerInternal ty (HandleID L) (UE_LOG StaleWarning w)).
Proof. intros Hv. simpl. by rewrite Hv. Qed.

Lemma WorldDispatchLoop_snapshot ch ty pos ls :
  forall w w' inv,
    DispatchLoop N ch ty pos ls w = Returned (w', inv) ->
    (exists k, inv = take k (InvokedOf ch ty pos ls))
    /\ (bInterrupted (BroadcastResultCache w') = false ->
        inv = InvokedOf ch ty pos ls).
Proof.
  unfold InvokedOf.
  induction ls as [|L rest IH]; intros w w' inv Hrun.
  - simpl in Hrun. injection Hrun as <- <-. split; [by exists 0%nat | done].
  - destruct (IsInvoked ch ty pos L) eqn:Hinv.
    + rewrite WorldDispatchLoop_invoke in Hrun by done.
      simpl. rewrite Hinv. simpl.
      destruct (RunCallback N (ReceivedCallback L) w) as [w1| |];
        simpl in Hrun; try discriminate.
      destruct (bInterrupted (BroadcastResultCache w1)) eqn:Hint.
      * injection Hrun as <- <-. split; [by exists 1%nat | congruence].
      * destruct (DispatchLoop N ch ty pos rest w1) as [[w2 inv2]| |] eqn:Hrest;
          simpl in Hrun; try discriminate.
        injection Hrun as <- <-.
        destruct (IH _ _ _ Hrest) as [[k Hk] Hall].
        split; [exists (S k); simpl; by rewrite Hk |].
        intros Hni. by rewrite Hall.
    + simpl. rewrite Hinv.
      unfold IsInvoked in Hinv.
      destruct (WeakIsValid (ListenerStructType L)) eqn:Hv; simpl in Hinv.
      * rewrite WorldDispatchLoop_skip in Hrun by done. eauto.
      * rewrite WorldDispatchLoop_stale in Hrun by done. eauto.
Qed.




End Loop.

Lemma WorldBroadcast_snapshot d ch ty pos w w' r inv :
  BroadcastMessageInternal d ch ty pos w = Returned (w', r, inv) ->
  (exists k, inv = take k (InvokedOf ch ty pos (EntriesAt (GetGridID pos) w)))
  /\ (bInterrupted r = false ->
      inv = InvokedOf ch ty pos (EntriesAt (GetGridID pos) w)).
Proof.
  destruct d as [|d]; [done|]. simpl. unfold BroadcastBody. simpl.
  unfold EntriesAt.
  destruct (GridListenerMap w !! GetGridID pos) as [pList|]; simpl.
  - destruct (DispatchLoop _ _ _ _ _ _) as [[w1 inv1]| |] eqn:Hloop;
      simpl; try done.
    intros [= <- <- <-].
    by apply WorldDispatchLoop_snapshot in Hloop.
  - intros [= <- <- <-]. split; [by exists 0%nat | done].
Qed.


End WorldDispatchFacts.

(** ** The cells of the spatial router *)

Module WorldRegistryFacts.
Import WorldMessageSubsystem WorldMessageSubsystemSpec GridFacts.

Lemma ListAt_insert m g g' G :
  ListAt (<[g := G]> m) g' = if decide (g = g') then Listeners G else ListAt m g'.
Proof.
  unfold ListAt. rewrite lookup_insert. by case_decide.
Qed.

Lemma ListAt_AddToGrid E m a g :
  ListAt (AddToGrid E m a) g
  = if decide (a = g) then PriorityInsert Priority E (ListAt m g) else ListAt m g.
Proof.
  unfold AddToGrid. rewrite ListAt_insert. by case_decide; subst.
Qed.

(** Filing an entry under a duplicate-free list of cells. *)
Lemma ListAt_fold_AddToGrid E grids :
  NoDup grids ->
  forall m g,
    ListAt (fold_left (AddToGrid E) grids m) g
    = if bool_decide (g ∈ grids)
      then PriorityInsert Priority E (ListAt m g) else ListAt m g.
Proof.
  induction 1 as [|a grids Ha Hnd IH]; intros m g; simpl.
  - done.
  - rewrite IH, ListAt_AddToGrid.
    destruct (decide (a = g)) as [->|Hne].
    + rewrite (bool_decide_eq_false_2 (g ∈ grids)) by done.
      rewrite bool_decide_eq_true_2; [done | by left].
    + destruct (decide (g ∈ grids)) as [Hin|Hnin].
      * rewrite !bool_decide_eq_true_2; [done | by right | done].
      * rewrite !bool_decide_eq_false_2; [done | | done].
        rewrite elem_of_cons. naive_solver.
Qed.

Lemma RemoveAll_idemp {A} (p : A -> bool) (l : list A) :
  RemoveAll p (RemoveAll p l) = RemoveAll p l.
Proof.
  unfold RemoveAll. induction l as [|x l IH]; simpl; [done|].
  destruct (p x) eqn:Hp; simpl; [done|]. by rewrite Hp, IH.
Qed.

Lemma ListAt_RemoveFromGrid h b m cl log a g :
  ListAt (RemoveFromGrid h b (m, cl, log) a).1.1 g
  = if decide (a = g) then RemoveAll (HasHandle h) (ListAt m g) else ListAt m g.
Proof.
  unfold RemoveFromGrid.
  destruct (m !! a) as [G|] eqn:Hm; simpl.
  - rewrite ListAt_insert. case_decide; [|done]. subst.
    unfold ListAt. by rewrite Hm.
  - case_decide; [|done]. subst. unfold ListAt. by rewrite Hm.
Qed.

Lemma Clean_RemoveFromGrid h b m cl log a c :
  c ∈ (RemoveFromGrid h b (m, cl, log) a).1.2 ->
  c ∈ cl \/ (c = a /\ RemoveAll (HasHandle h) (ListAt m a) = []).
Proof.
  unfold RemoveFromGrid.
  destruct (m !! a) as [G|] eqn:Hm; simpl; [|by left].
  case_decide as Hlen; [|by left].
  rewrite elem_of_app, list_elem_of_singleton.
  intros [?| ->]; [by left|right]. split; [done|].
  unfold ListAt. rewrite Hm. simpl. by apply length_zero_iff_nil.
Qed.

(** Taking a handle out of a list of cells: the arrays of those cells lose
    the entries with that handle, and only cells left empty are marked for
    cleanup. *)
Lemma fold_RemoveFromGrid h b grids :
  forall m cl log,
    let r := fold_left (RemoveFromGrid h b) grids (m, cl, log) in
    (forall g, ListAt r.1.1 g
               = if bool_decide (g ∈ grids)
                 then RemoveAll (HasHandle h) (ListAt m g) else ListAt m g)
    /\ (forall c, c ∈ r.1.2 -> c ∈ cl \/ ListAt r.1.1 c = []).
Proof.
  induction grids as [|a grids IH]; intros m cl log; cbv zeta; cbn [fold_left].
  - split; [done | by left].
  - destruct (RemoveFromGrid h b (m, cl, log) a) as [[m1 cl1] log1] eqn:Hstep.
    destruct (IH m1 cl1 log1) as [IH1 IH2]. cbv zeta in IH1, IH2.
    assert (forall g, ListAt m1 g
              = if decide (a = g) then RemoveAll (HasHandle h) (ListAt m g)
                else ListAt m g) as Hm1.
    { intros g. rewrite <- (ListAt_RemoveFromGrid h b m cl log a g).
      by rewrite Hstep. }
    split.
    + intros g. rewrite IH1, Hm1.
      destruct (decide (a = g)) as [->|Hne].
      * rewrite (bool_decide_eq_true_2 (g ∈ g :: grids)) by by left.
        case_bool_decide; [by rewrite RemoveAll_idemp | done].
      * destruct (decide (g ∈ grids)) as [Hin|Hnin].
        -- rewrite !bool_decide_eq_true_2; [done | by right | done].
        -- rewrite !bool_decide_eq_false_2; [done | | done].
           rewrite elem_of_cons. naive_solver.
    + intros c Hc. destruct (IH2 c Hc) as [Hcl|Hempty]; [|by right].
      pose proof (Clean_RemoveFromGrid h b m cl log a c) as Hcl1.
      rewrite Hstep in Hcl1. destruct (Hcl1 Hcl) as [?|[-> Hkept]]; [by left|].
      right. rewrite IH1, Hm1. rewrite decide_True by done.
      case_bool_decide; [by rewrite RemoveAll_idemp, Hkept | done].
Qed.

(** Dropping cells whose arrays are empty changes no array. *)
Lemma ListAt_CleanGrids cl :
  forall m, (forall c, c ∈ cl -> ListAt m c = []) ->
            forall g, ListAt (CleanGrids cl m) g = ListAt m g.
Proof.
  unfold CleanGrids.
  induction cl as [|c cl IH]; intros m Hcl g; simpl; [done|].
  assert (forall g', ListAt (delete c m) g' = ListAt m g') as Hdel.
  { intros g'. unfold ListAt. rewrite lookup_delete. case_decide; [|done].
    subst. symmetry. apply (Hcl g'). by left. }
  rewrite IH, Hdel; [done|].
  intros c' Hc'. rewrite Hdel. apply Hcl. by right.
Qed.

Lemma UpdateFirst_idemp h P R l :
  UpdateFirst h P R (UpdateFirst h P R l) = UpdateFirst h P R l.
Proof.
  induction l as [|x l IH]; simpl; [done|].
  destruct (HandleID x =? h) eqn:Hx; simpl; rewrite Hx; [done | by rewrite IH].
Qed.

Lemma ListAt_UpdateInGrid h P R New m a g :
  ListAt (UpdateInGrid h P R New m a) g
  = if bool_decide (a = g /\ g ∈ New)
    then UpdateFirst h P R (ListAt m g) else ListAt m g.
Proof.
  unfold UpdateInGrid.
  destruct (decide (a = g)) as [->|Hne].
  - destruct (decide (g ∈ New)) as [Hin|Hnin].
    + rewrite !bool_decide_eq_true_2 by done.
      destruct (m !! g) as [G|] eqn:Hm.
      * rewrite ListAt_insert, decide_True by done. unfold ListAt. by rewrite Hm.
      * unfold ListAt. by rewrite Hm.
    + rewrite !bool_decide_eq_false_2; [done | naive_solver | done].
  - rewrite (bool_decide_eq_false_2 (a = g /\ _)) by naive_solver.
    case_bool_decide; [|done].
    destruct (m !! a) as [G|] eqn:Hm; [|done].
    by rewrite ListAt_insert, decide_False.
Qed.

Lemma ListAt_fold_UpdateInGrid h P R New Old :
  forall m g,
    ListAt (fold_left (UpdateInGrid h P R New) Old m) g
    = if bool_decide (g ∈ Old /\ g ∈ New)
      then UpdateFirst h P R (ListAt m g) else ListAt m g.
Proof.
  induction Old as [|a Old IH]; intros m g; simpl.
  - done.
  - rewrite IH, ListAt_UpdateInGrid.
    assert ({g ∈ New} + {g ∉ New}) as [Hnew|Hnew] by exact (decide _);
      [|rewrite !bool_decide_eq_false_2 by naive_solver; done].
    assert ({a = g} + {a <> g}) as [->|Hne] by exact (decide _).
    + rewrite (bool_decide_eq_true_2 (g = g /\ _)) by done.
      rewrite (bool_decide_eq_true_2 (g ∈ g :: Old /\ _)); [|split; [by left|done]].
      case_bool_decide; [by rewrite UpdateFirst_idemp | done].
    + rewrite (bool_decide_eq_false_2 (a = g /\ _)) by naive_solver.
      assert ({g ∈ Old} + {g ∉ Old}) as [Hin|Hnin] by exact (decide _).
      * rewrite !bool_decide_eq_true_2; [done | | done].
        split; [by right | done].
      * rewrite !bool_decide_eq_false_2; [done | | naive_solver].
        rewrite elem_of_cons. naive_solver.
Qed.

(** *** Entries with one handle id *)

Lemma WithHandle_RemoveAll h l : WithHandle h (RemoveAll (HasHandle h) l) = [].
Proof.
  unfold WithHandle, RemoveAll. induction l as [|x l IH]; simpl; [done|].
  destruct (HasHandle h x) eqn:Hx; simpl; [done|]. by rewrite Hx.
Qed.

Lemma WithHandle_app h l1 l2 :
  WithHandle h (l1 ++ l2) = WithHandle h l1 ++ WithHandle h l2.
Proof. unfold WithHandle. apply List.filter_app. Qed.

Lemma WithHandle_PriorityInsert h E l :
  HandleID E = h -> WithHandle h l = [] ->
  WithHandle h (PriorityInsert Priority E l) = [E].
Proof.
  intros HE Hl. unfold PriorityInsert, Insert.
  set (k := InsertIndex Priority l (Priority E)).
  rewrite <- (take_drop k l), WithHandle_app in Hl.
  apply app_eq_nil in Hl as [Ht Hd].
  rewrite WithHandle_app, Ht. simpl.
  unfold WithHandle in Hd |- *. simpl. unfold HasHandle at 1.
  rewrite HE, Z.eqb_refl. by rewrite Hd.
Qed.

Lemma WithHandle_UpdateFirst h P R E l :
  WithHandle h l = [E] ->
  WithHandle h (UpdateFirst h P R l) = [MovedTo P R E].
Proof.
  unfold WithHandle.
  induction l as [|x l IH]; simpl; [done|].
  change (HasHandle h x) with (HandleID x =? h).
  destruct (HandleID x =? h) eqn:Hx.
  - intros [= -> Hrest]. simpl.
    change (HasHandle h _) with (HandleID E =? h) at 1.
    by rewrite Hx, Hrest.
  - simpl. change (HasHandle h x) with (HandleID x =? h). by rewrite Hx.
Qed.

Lemma find_WithHandle h E l :
  WithHandle h l = [E] -> List.find (HasHandle h) l = Some E.
Proof.
  unfold WithHandle. induction l as [|x l IH]; simpl; [done|].
  destruct (HasHandle h x); [by intros [= ->] | done].
Qed.


End WorldRegistryFacts.

(** ** Registration order, in both routers *)

Module OrderFacts.
Import WorldMessageSubsystem WorldMessageSubsystemSpec WorldRegistryFacts.

Lemma filter_replicate_same {A} (P : A -> Prop) `{!forall x, Decision (P x)}
    (x : A) (k : nat) :
  P x -> filter P (replicate k x) = replicate k x.
Proof.
  intros Hx. induction k as [|k IH]; simpl; [done|].
  by rewrite filter_cons_True, IH.
Qed.

Lemma filter_replicate_other {A} (P : A -> Prop) `{!forall x, Decision (P x)}
    (x : A) (k : nat) :
  ~ P x -> filter P (replicate k x) = [].
Proof.
  intros Hx. induction k as [|k IH]; simpl; [done|].
  by rewrite filter_cons_False.
Qed.

Lemma replicate_snoc {A} (x : A) (k : nat) :
  replicate (S k) x = replicate k x ++ [x].
Proof. induction k as [|k IH]; simpl; [done|]. by rewrite <- IH. Qed.

(** Filing one entry under a list of cells keeps every cell sorted and
    puts the entry behind the older entries of its priority. *)
Lemma fold_AddToGrid_order E grids :
  forall m g,
    StronglySorted (PriorityLe Priority) (ListAt m g) ->
    StronglySorted (PriorityLe Priority)
      (ListAt (fold_left (AddToGrid E) grids m) g)
    /\ forall p,
         filter (fun e => Priority e = p)
           (ListAt (fold_left (AddToGrid E) grids m) g)
         = filter (fun e => Priority e = p) (ListAt m g)
           ++ filter (fun e => Priority e = p)
                (replicate (length (List.filter (Z.eqb g) grids)) E).
Proof.
  induction grids as [|a grids IH]; intros m g Hs; simpl.
  - split; [done|]. intros p. by rewrite app_nil_r.
  - destruct (IH (AddToGrid E m a) g) as [IHs IHf].
    { rewrite ListAt_AddToGrid. case_decide; [|done].
      by apply PriorityInsert_sorted. }
    split; [done|]. intros p. rewrite IHf, ListAt_AddToGrid.
    destruct (decide (a = g)) as [->|Hne].
    + rewrite Z.eqb_refl. cbn [length]. rewrite replicate_snoc, filter_app.
      destruct (decide (Priority E = p)) as [<-|Hp].
      * rewrite PriorityInsert_filter_eq.
        rewrite !filter_replicate_same by done.
        rewrite filter_cons_True, filter_nil by done.
        rewrite <- app_assoc. f_equal.
        change [E] with (replicate 1 E).
        by rewrite <- !replicate_add, Nat.add_comm.
      * rewrite PriorityInsert_filter_ne by done.
        by rewrite filter_cons_False, filter_nil, app_nil_r.
    + assert ((g =? a) = false) as -> by (apply Z.eqb_neq; congruence).
      done.
Qed.

Lemma World_RegisterAll_snoc rs r w :
  RegisterAll (rs ++ [r]) w = Register r (RegisterAll rs w).
Proof. unfold RegisterAll. by rewrite fold_left_app. Qed.

Lemma FiledInOrder_snoc n rs r g :
  FiledInOrder n (rs ++ [r]) g
  = FiledInOrder n rs g
    ++ replicate (TimesFiled g r) (EntryOf r (n + Z.of_nat (length rs) + 1)).
Proof.
  revert n. induction rs as [|r' rs IH]; intros n; simpl.
  - rewrite app_nil_r. do 2 f_equal. lia.
  - rewrite IH, <- app_assoc.
    by replace (n + 1 + Z.of_nat (length rs) + 1)
      with (n + Z.of_nat (S (length rs)) + 1) by lia.
Qed.

Lemma World_RegisterAll_invariant self rs :
  let w := RegisterAll rs (NewSubsystem self) in
  GlobalHandleID w = wrap32 (Z.of_nat (length rs))
  /\ forall g,
       StronglySorted (PriorityLe Priority) (EntriesAt g w)
       /\ forall p,
            filter (fun e => Priority e = p) (EntriesAt g w)
            = filter (fun e => Priority e = p) (FiledInOrder 0 rs g).
Proof.
  induction rs as [|r rs IH] using rev_ind.
  - simpl. split; [done|]. intros g. unfold EntriesAt. simpl.
    rewrite lookup_empty. simpl. split; [constructor | done].
  - rewrite World_RegisterAll_snoc. cbv zeta in *.
    set (w := RegisterAll rs (NewSubsystem self)) in *.
    destruct IH as [Hc Hcells]. split.
    + unfold Register, RegisterListenerInternal. simpl.
      rewrite Hc, MessageSubsystemFacts.wrap32_succ, length_app. simpl.
      f_equal. lia.
    + intros g. destruct (Hcells g) as [Hs Hf].
      unfold EntriesAt, Register, RegisterListenerInternal. simpl.
      change (Listeners (default EmptyGrid (?m !! g))) with (ListAt m g).
      set (E := {| ReceivedCallback := RegCallback r |}).
      destruct (fold_AddToGrid_order E
                  (RelevantGridsOf (RegListenPosition r) (RegListenRadius r))
                  (GridListenerMap w) g Hs) as [Hs' Hf'].
      split; [done|]. intros p.
      rewrite Hf', FiledInOrder_snoc, filter_app.
      fold (EntriesAt g w). rewrite Hf. do 2 f_equal.
      unfold TimesFiled. f_equal. subst E. unfold EntryOf. f_equal.
      rewrite Hc, MessageSubsystemFacts.wrap32_succ. f_equal; lia.
Qed.

Lemma elem_of_FiledInOrder n rs g e :
  e ∈ FiledInOrder n rs g ->
  exists k r, n < k <= n + Z.of_nat (length rs) /\ e = EntryOf r k.
Proof.
  revert n. induction rs as [|r rs IH]; intros n; simpl.
  - by intros ?%elem_of_nil.
  - rewrite elem_of_app. intros [He|He].
    + apply elem_of_replicate in He as [-> _].
      exists (n + 1), r. split; [lia | done].
    + destruct (IH _ He) as (k & r' & Hk & ->).
      exists k, r'. split; [lia | done].
Qed.

(** After registrations only, the id that the next registration will get
    is not in use. *)
Lemma RegisterAll_Unused self rs :
  Z.of_nat (length rs) < INT32_MAX ->
  let w := RegisterAll rs (NewSubsystem self) in
  Unused (wrap32 (GlobalHandleID w + 1)) w.
Proof.
  intros Hlen w g.
  destruct (World_RegisterAll_invariant self rs) as [Hc Hcells].
  fold w in Hc, Hcells. destruct (Hcells g) as [_ Hf].
  unfold INT32_MAX in Hlen.
  rewrite Hc, MessageSubsystemFacts.wrap32_succ.
  rewrite MessageSubsystemFacts.wrap32_small by lia.
  unfold WithHandle.
  destruct (List.filter _ _) as [|e l] eqn:Hfilter; [done|].
  assert (e ∈ List.filter (HasHandle (Z.of_nat (length rs) + 1)) (EntriesAt g w))
    as He by (rewrite Hfilter; by left).
  apply list_elem_of_In, filter_In in He as [He Hid].
  apply list_elem_of_In in He.
  assert (e ∈ filter (fun e' => Priority e' = Priority e) (EntriesAt g w)) as He'
    by by apply list_elem_of_filter.
  rewrite Hf in He'. apply list_elem_of_filter in He' as [_ He'].
  apply elem_of_FiledInOrder in He' as (k & r & Hk & ->).
  unfold HasHandle in Hid. simpl in Hid. apply Z.eqb_eq in Hid.
  rewrite MessageSubsystemFacts.wrap32_small in Hid by lia. lia.
Qed.

(** C1.  After any run of [RegisterListenerInternal] calls on a new
    subsystem (no unregistration in between), the listener list of every
    message type, and in the spatial router the listener list of every
    cell, is sorted by ascending priority, and the entries of any one
    priority stand in the order in which they were registered.  Listeners
    registered with priorities 50, 10, 50, 0 (handle ids 1, 2, 3, 4) are
    called by a matching broadcast in the order 4, 2, 1, 3. *)
Theorem priority_stable_registration :
  (forall self rs ty,
     let l := MessageSubsystemSpec.ListenersFor ty
                (MessageSubsystemSpec.RegisterAll rs
                   (MessageSubsystem.NewSubsystem self)) in
     StronglySorted (PriorityLe MessageSubsystem.Priority) l
     /\ forall p,
          filter (fun e => MessageSubsystem.Priority e = p) l
          = filter (fun e => MessageSubsystem.Priority e = p)
              (MessageSubsystemSpec.InRegistrationOrder 0 rs ty))
  /\ (forall self rs g,
        let l := EntriesAt g (RegisterAll rs (NewSubsystem self)) in
        StronglySorted (PriorityLe Priority) l
        /\ forall p,
             filter (fun e => Priority e = p) l
             = filter (fun e => Priority e = p) (FiledInOrder 0 rs g))
  /\ (let w := MessageSubsystemSpec.RegisterAll
                 [MessageSubsystemSpec.PlainListener ["A"; "B"] 7 50;
                  MessageSubsystemSpec.PlainListener ["A"; "B"] 7 10;
                  MessageSubsystemSpec.PlainListener ["A"; "B"] 7 50;
                  MessageSubsystemSpec.PlainListener ["A"; "B"] 7 0]
                 (MessageSubsystem.NewSubsystem 1) in
      map (fun e => (MessageSubsystem.Priority e, MessageSubsystem.HandleID e))
        (MessageSubsystemSpec.ListenersFor 7%nat w)
        = [(0, 4); (10, 2); (50, 1); (50, 3)]
      /\ exists w',
           MessageSubsystem.BroadcastMessageInternal 1 ["A"; "B"] 7 WeakNull w
           = Returned (w', ResetResult, [4; 2; 1; 3])).
Proof.
  destruct MessageSubsystemFacts.Global_priority_stable as [Hglobal Hexample].
  split; [exact Hglobal|]. split; [|exact Hexample].
  intros self rs g. apply World_RegisterAll_invariant.
Qed.

End OrderFacts.

(** ** Listeners on record in the spatial router *)

Module TrackingFacts.
Import WorldMessageSubsystem WorldMessageSubsystemSpec.
Import GridFacts WorldRegistryFacts WorldDispatchFacts.


Lemma RelevantGridsOf_nonempty P R : RelevantGridsOf P R <> [].
Proof.
  unfold RelevantGridsOf. cbv zeta. case_decide as Hlen; [done|].
  intros Hnil. by rewrite Hnil in Hlen.
Qed.

Lemma FindListenerData_first h E m g0 rest :
  WithHandle h (ListAt m g0) = [E] ->
  FindListenerData h m (g0 :: rest) = Some E.
Proof.
  intros Hw. simpl. unfold ListAt in Hw.
  destruct (m !! g0) as [G|]; simpl in Hw; [|done].
  change (fun Listener => HandleID Listener =? h) with (HasHandle h).
  by rewrite (find_WithHandle h E _ Hw).
Qed.

Lemma elem_of_List_filter {A} (p : A -> bool) (l : list A) (x : A) :
  x ∈ List.filter p l <-> x ∈ l /\ p x = true.
Proof. rewrite !list_elem_of_In. apply filter_In. Qed.

Lemma NoDup_List_filter {A} (p : A -> bool) (l : list A) :
  NoDup l -> NoDup (List.filter p l).
Proof.
  induction 1 as [|x l Hx Hnd IH]; simpl; [constructor|].
  destruct (p x); [|done].
  constructor; [|done]. rewrite elem_of_List_filter. naive_solver.
Qed.

(** Registration puts the new listener on record. *)
Lemma Register_Tracked ch cb ty m p P R w :
  FitsGrid P R ->
  Unused (wrap32 (GlobalHandleID w + 1)) w ->
  let E := {| ReceivedCallback := cb;
              HandleID := wrap32 (GlobalHandleID w + 1);
              MatchType := m;
              ListenerStructType := MakeWeak ty;
              Channel := ch;
              Priority := p;
              ListenPosition := P;
              ListenRadius := R |} in
  Tracked (fst (RegisterListenerInternal ch cb ty m p P R w)) E
  /\ snd (RegisterListenerInternal ch cb ty m p P R w)
     = {| Subsystem := MakeWeak (this w); StructType := ty;
          ID := HandleID E |}.
Proof.
  intros Hfit Hunused E. split; [|done].
  unfold RegisterListenerInternal, Tracked. simpl. split.
  - by rewrite lookup_insert_eq.
  - intros g. unfold EntriesAt. simpl.
    change (Listeners (default EmptyGrid (?m !! g))) with (ListAt m g).
    rewrite ListAt_fold_AddToGrid by by apply NoDup_RelevantGridsOf.
    case_bool_decide.
    + apply WithHandle_PriorityInsert; [done | apply Hunused].
    + apply Hunused.
Qed.

(** A location update keeps the listener on record, at its new position
    and radius. *)
Lemma Update_Tracked h P' R' E w :
  Tracked w E ->
  IsValid h = true ->
  WeakEq (Subsystem h) (MakeWeak (this w)) = true ->
  ID h = HandleID E ->
  let R'' := if Qle_bool 0 R' then R' else ListenRadius E in
  FitsGrid P' R'' ->
  snd (UpdateRegisterListenerLocation h P' R' w) = true
  /\ Tracked (fst (UpdateRegisterListenerLocation h P' R' w)) (MovedTo P' R'' E).
Proof.
  intros [Hinfo Hcells] Hvalid Hsub Hid R'' Hfit.
  unfold UpdateRegisterListenerLocation.
  rewrite Hvalid, Hsub. simpl. rewrite Hid, Hinfo. simpl. fold R''.
  set (Old := RelevantGridsOf (ListenPosition E) (ListenRadius E)) in *.
  set (New := RelevantGridsOf P' R'') in *.
  assert (FindListenerData (HandleID E) (GridListenerMap w) Old = Some E) as ->.
  { destruct Old as [|g0 rest] eqn:HOld;
      [by apply RelevantGridsOf_nonempty in HOld|].
    apply FindListenerData_first.
    specialize (Hcells g0). unfold EntriesAt in Hcells.
    rewrite bool_decide_eq_true_2 in Hcells by by left. done. }
  set (ToRemove := List.filter _ Old).
  set (ToAdd := List.filter _ New).
  destruct (fold_RemoveFromGrid (HandleID E) false ToRemove
              (GridListenerMap w) [] []) as [Hm1 Hcl].
  cbv zeta in Hm1, Hcl.
  destruct (fold_left (RemoveFromGrid (HandleID E) false) ToRemove
              (GridListenerMap w, [], [])) as [[m1 cl] log1].
  simpl in Hm1, Hcl. simpl. split; [done|].
  unfold Tracked. simpl. split; [by rewrite lookup_insert_eq|].
  intros g. unfold EntriesAt. simpl.
  change (Listeners (default EmptyGrid (?m !! g))) with (ListAt m g).
  fold (MovedTo P' R'' E).
  rewrite ListAt_fold_UpdateInGrid.
  rewrite ListAt_fold_AddToGrid
    by (unfold ToAdd; apply NoDup_List_filter; by apply NoDup_RelevantGridsOf).
  rewrite ListAt_CleanGrids.
  2:{ intros c Hc. destruct (Hcl c Hc) as [Hnil|Hc']; [|done].
      by apply elem_of_nil in Hnil. }
  rewrite Hm1.
  specialize (Hcells g). unfold EntriesAt in Hcells.
  change (Listeners (default EmptyGrid (?m !! g))) with (ListAt m g) in Hcells.
  fold New.
  assert ({g ∈ Old} + {g ∉ Old}) as [HO|HO] by exact (decide _);
    assert ({g ∈ New} + {g ∉ New}) as [HN|HN] by exact (decide _).
  - rewrite (bool_decide_eq_true_2 (g ∈ Old /\ g ∈ New)) by done.
    rewrite (bool_decide_eq_true_2 (g ∈ New)) by done.
    rewrite (bool_decide_eq_false_2 (g ∈ ToAdd)).
    2:{ unfold ToAdd. rewrite elem_of_List_filter.
        intros [_ Hf]. rewrite bool_decide_eq_true_2 in Hf; done. }
    rewrite (bool_decide_eq_false_2 (g ∈ ToRemove)).
    2:{ unfold ToRemove. rewrite elem_of_List_filter.
        intros [_ Hf]. rewrite bool_decide_eq_true_2 in Hf; done. }
    rewrite bool_decide_eq_true_2 in Hcells by done.
    by apply WithHandle_UpdateFirst.
  - rewrite (bool_decide_eq_false_2 (g ∈ Old /\ g ∈ New)) by naive_solver.
    rewrite (bool_decide_eq_false_2 (g ∈ New)) by done.
    rewrite (bool_decide_eq_false_2 (g ∈ ToAdd)).
    2:{ unfold ToAdd. rewrite elem_of_List_filter. naive_solver. }
    rewrite (bool_decide_eq_true_2 (g ∈ ToRemove)).
    2:{ unfold ToRemove. rewrite elem_of_List_filter. split; [done|].
        by rewrite bool_decide_eq_false_2. }
    apply WithHandle_RemoveAll.
  - rewrite (bool_decide_eq_false_2 (g ∈ Old /\ g ∈ New)) by naive_solver.
    rewrite (bool_decide_eq_true_2 (g ∈ New)) by done.
    rewrite (bool_decide_eq_true_2 (g ∈ ToAdd)).
    2:{ unfold ToAdd. rewrite elem_of_List_filter. split; [done|].
        by rewrite bool_decide_eq_false_2. }
    rewrite (bool_decide_eq_false_2 (g ∈ ToRemove)).
    2:{ unfold ToRemove. rewrite elem_of_List_filter. naive_solver. }
    rewrite bool_decide_eq_false_2 in Hcells by done.
    by apply WithHandle_PriorityInsert.
  - rewrite (bool_decide_eq_false_2 (g ∈ Old /\ g ∈ New)) by naive_solver.
    rewrite (bool_decide_eq_false_2 (g ∈ New)) by done.
    rewrite (bool_decide_eq_false_2 (g ∈ ToAdd)).
    2:{ unfold ToAdd. rewrite elem_of_List_filter. naive_solver. }
    rewrite (bool_decide_eq_false_2 (g ∈ ToRemove)).
    2:{ unfold ToRemove. rewrite elem_of_List_filter. naive_solver. }
    by rewrite bool_decide_eq_false_2 in Hcells.
Qed.


End TrackingFacts.

(** ** Spatial coverage *)

Module CoverageFacts.
Import WorldMessageSubsystem WorldMessageSubsystemSpec.
Import GridFacts WorldRegistryFacts WorldDispatchFacts TrackingFacts.



End CoverageFacts.

Module CoverageExamples.
Import WorldMessageSubsystem WorldMessageSubsystemSpec.
Import GridFacts WorldRegistryFacts WorldDispatchFacts TrackingFacts CoverageFacts.
Import Scenarios.

Example grids_of_example :
  GetGridsInRadius ExamplePosition 2000
  = [PackGridID (-2) (-1); PackGridID (-2) 0;
     PackGridID (-1) (-2); PackGridID (-1) (-1); PackGridID (-1) 0; PackGridID (-1) 1;
     PackGridID 0 (-2); PackGridID 0 (-1); PackGridID 0 0; PackGridID 0 1;
     PackGridID 1 (-1); PackGridID 1 0].
Proof. vm_compute. reflexivity. Qed.

Example broadcast_near :
  exists w',
    BroadcastMessageInternal 1 ["A"] 7 {| VecX := 1900; VecY := 200; VecZ := 0 |}
      ExampleRegistered = Returned (w', ResetResult, [1]).
Proof. eexists. vm_compute. reflexivity. Qed.

Example broadcast_far :
  exists w',
    BroadcastMessageInternal 1 ["A"] 7 {| VecX := 2200; VecY := 200; VecZ := 0 |}
      ExampleRegistered = Returned (w', ResetResult, []).
Proof. eexists. vm_compute. reflexivity. Qed.

Lemma Unused_NewSubsystem self h : Unused h (NewSubsystem self).
Proof. intros g. unfold EntriesAt. simpl. by rewrite lookup_empty. Qed.


End CoverageExamples.

(** ** Handle ids and removal in the global router *)

Module RegistryFacts.
Import MessageSubsystem MessageSubsystemSpec CallbackSpec DispatchFacts.

Lemma IndexOfByPredicate_Some {A} (p : A -> bool) (l : list A) (i : nat) :
  IndexOfByPredicate p l = Some i ->
  exists x, l !! i = Some x /\ p x = true.
Proof.
  revert i. induction l as [|y l IH]; intros i; simpl; [done|].
  destruct (p y) eqn:Hy.
  - intros [= <-]. by exists y.
  - destruct (IndexOfByPredicate p l) as [j|]; simpl; [|done].
    intros [= <-]. by apply IH.
Qed.

Lemma IndexOfByPredicate_None {A} (p : A -> bool) (l : list A) :
  IndexOfByPredicate p l = None -> Forall (fun x => p x = false) l.
Proof.
  induction l as [|y l IH]; simpl; [by constructor|].
  destruct (p y) eqn:Hy; [done|].
  destruct (IndexOfByPredicate p l); simpl; [done|].
  intros _. constructor; [done | by apply IH].
Qed.

Lemma last_snoc_inv {A} (l : list A) (x : A) :
  last l = Some x -> l = removelast l ++ [x].
Proof.
  intros Hl. destruct l as [|y l] using rev_ind; [done|].
  rewrite last_snoc in Hl. injection Hl as ->.
  by rewrite removelast_last.
Qed.

(** [RemoveAtSwap] takes out the element at the index; the others stay,
    possibly in another order. *)
Lemma RemoveAtSwap_Permutation {A} (i : nat) (l : list A) :
  (i < length l)%nat -> RemoveAtSwap i l ≡ₚ delete i l.
Proof.
  intros Hi. unfold RemoveAtSwap.
  destruct (last l) as [x|] eqn:Hlast.
  - apply last_snoc_inv in Hlast.
    set (l' := removelast l) in *. rewrite Hlast.
    rewrite Hlast, length_app in Hi. simpl in Hi.
    rewrite length_app. simpl.
    case_decide as Hlen.
    + assert (i = length l') as -> by lia.
      by rewrite delete_middle, app_nil_r.
    + rewrite decide_True by lia.
      assert (i < length l')%nat as Hi' by lia.
      rewrite insert_take_drop by done.
      rewrite delete_take_drop, take_app_le, drop_app_le by lia.
      apply Permutation_app_head, Permutation_cons_append.
  - destruct l; [simpl in Hi; lia|].
    by apply last_None in Hlast.
Qed.

End RegistryFacts.

(** ** The registry invariant of the global router *)

Module InvariantFacts.
Import MessageSubsystem MessageSubsystemSpec CallbackSpec DispatchFacts.
Import MessageSubsystemFacts RegistryFacts.

Lemma map_fmap {A B} (f : A -> B) (l : list A) : map f l = f <$> l.
Proof. induction l as [|x l IH]; simpl; [done | by rewrite IH]. Qed.

Lemma Insert_Permutation {A} (x : A) (k : nat) (l : list A) :
  Insert x k l ≡ₚ x :: l.
Proof.
  unfold Insert. rewrite <- Permutation_middle. by rewrite take_drop.
Qed.

Lemma RegistryInvariant_New self : RegistryInvariant (NewSubsystem self).
Proof. intros ty L Hl. simpl in Hl. by rewrite lookup_empty in Hl. Qed.

Lemma CountersBelow_New self : CountersBelow 0 (NewSubsystem self).
Proof. intros ty L Hl. simpl in Hl. by rewrite lookup_empty in Hl. Qed.

Lemma ListFor_bounds w ty n :
  RegistryInvariant w -> CountersBelow n w ->
  NoDup (map HandleID (ListenersFor ty w))
  /\ Forall (fun e => 0 < HandleID e <= LastHandleID (ListFor ty w))
       (ListenersFor ty w)
  /\ 0 <= LastHandleID (ListFor ty w) <= Z.max 0 n.
Proof.
  intros Hinv Hcnt. unfold ListenersFor, ListFor.
  destruct (ListenerMap w !! ty) as [L|] eqn:HL; simpl.
  - destruct (Hinv ty L HL) as (Hnd & Hall & _).
    specialize (Hcnt ty L HL). repeat split; [done | done | lia | lia].
  - repeat split; [constructor | constructor | lia | lia].
Qed.

(** One registration: the id handed out is the counter's next value; it
    exceeds every id in the list of its type. *)
Lemma Register_invariant r w n :
  RegistryInvariant w -> CountersBelow n w -> 0 <= n < INT32_MAX ->
  RegistryInvariant (Register r w)
  /\ CountersBelow (n + 1) (Register r w)
  /\ ID (HandleOf r w) = LastHandleID (ListFor (RegStructType r) w) + 1
  /\ Forall (fun e => HandleID e < ID (HandleOf r w))
       (ListenersFor (RegStructType r) w).
Proof.
  intros Hinv Hcnt Hn.
  destruct (ListFor_bounds w (RegStructType r) n Hinv Hcnt)
    as (Hnd & Hall & Hc).
  set (c := LastHandleID (ListFor (RegStructType r) w)) in *.
  assert (wrap32 (c + 1) = c + 1) as Hwrap.
  { apply wrap32_small. unfold INT32_MAX in Hn. lia. }
  assert (ID (HandleOf r w) = c + 1) as Hid by done.
  split; [|split; [|split; [done|]]].
  - intros ty L HL.
    destruct (decide (RegStructType r = ty)) as [<-|Hne].
    + pose proof (ListFor_Register_same r w) as Hsame.
      unfold ListFor at 1 in Hsame. rewrite HL in Hsame. simpl in Hsame.
      subst L. simpl. fold c. unfold PriorityInsert.
      set (E := EntryOf r (c + 1)).
      assert (HandleID E = c + 1) as HE by (simpl; by rewrite Hwrap).
      split; [|split].
      * rewrite (Insert_Permutation E). cbn [map]. rewrite HE.
        constructor; [|done].
        intros Hin. apply list_elem_of_In, in_map_iff in Hin as (e & He & Hin).
        rewrite Forall_forall in Hall.
        apply list_elem_of_In, Hall in Hin. lia.
      * rewrite (Insert_Permutation E). constructor; [lia|].
        eapply Forall_impl; [exact Hall|]. simpl. lia.
      * unfold Insert. by destruct (take _ _).
    + apply (Hinv ty L). unfold Register, RegisterListenerInternal in HL.
      simpl in HL. by rewrite lookup_insert_ne in HL.
  - intros ty L HL.
    destruct (decide (RegStructType r = ty)) as [<-|Hne].
    + pose proof (ListFor_Register_same r w) as Hsame.
      unfold ListFor at 1 in Hsame. rewrite HL in Hsame. simpl in Hsame.
      subst L. simpl. fold c. lia.
    + unfold Register, RegisterListenerInternal in HL. simpl in HL.
      rewrite lookup_insert_ne in HL by done.
      specialize (Hcnt ty L HL). lia.
  - rewrite Hid. eapply Forall_impl; [exact Hall|]. simpl. lia.
Qed.

(** What [UnregisterListenerInternal] leaves of the list of a type. *)
Lemma ListenersFor_Unregister ty id w :
  NoDup (map HandleID (ListenersFor ty w)) ->
  ListenersFor ty (UnregisterListenerInternal ty id w)
    ≡ₚ List.filter (fun e => negb (HandleID e =? id)) (ListenersFor ty w).
Proof.
  unfold UnregisterListenerInternal, ListenersFor, ListFor.
  destruct (ListenerMap w !! ty) as [L|] eqn:HL; simpl; [|by rewrite HL].
  intros Hnd.
  assert ((match IndexOfByPredicate (fun Other => HandleID Other =? id)
                   (Listeners L) with
           | Some MatchIndex => RemoveAtSwap MatchIndex (Listeners L)
           | None => Listeners L
           end)
          ≡ₚ List.filter (fun e => negb (HandleID e =? id)) (Listeners L))
    as Hperm.
  { destruct (IndexOfByPredicate _ _) as [i|] eqn:Hidx.
    - apply IndexOfByPredicate_Some in Hidx as (x & Hx & Hxid).
      apply Z.eqb_eq in Hxid.
      rewrite RemoveAtSwap_Permutation by by eapply lookup_lt_Some.
      clear HL. revert i Hx Hnd.
      induction (Listeners L) as [|y l IH]; intros i Hx Hnd; [done|].
      change (map HandleID (y :: l)) with (HandleID y :: map HandleID l) in Hnd.
      apply NoDup_cons in Hnd as [Hy Hnd].
      destruct i as [|i]; simpl in Hx |- *.
      + injection Hx as ->. rewrite Hxid, Z.eqb_refl. simpl.
        rewrite forallb_filter_id; [done|].
        apply forallb_forall. intros e He.
        apply negb_true_iff, Z.eqb_neq. intros Heid.
        apply Hy. rewrite Hxid, <- Heid.
        apply list_elem_of_In, in_map. done.
      + destruct (HandleID y =? id) eqn:Hyid; simpl.
        * exfalso. apply Hy. apply Z.eqb_eq in Hyid. rewrite Hyid, <- Hxid.
          apply list_elem_of_In, in_map, list_elem_of_In.
          by eapply list_elem_of_lookup_2.
        * by rewrite (IH i Hx Hnd).
    - apply IndexOfByPredicate_None in Hidx.
      rewrite forallb_filter_id; [done|].
      apply forallb_forall. intros e He.
      rewrite Forall_forall in Hidx.
      apply list_elem_of_In, Hidx in He. by rewrite He. }
  case_decide as Hlen; simpl.
  - rewrite lookup_delete_eq. simpl. rewrite <- Hperm.
    by apply length_zero_iff_nil in Hlen as ->.
  - by rewrite lookup_insert_eq.
Qed.

Lemma ListFor_Unregister_other ty ty' id w :
  ty <> ty' ->
  ListenerMap (UnregisterListenerInternal ty id w) !! ty' = ListenerMap w !! ty'.
Proof.
  intros Hne. unfold UnregisterListenerInternal.
  destruct (ListenerMap w !! ty) as [L|]; [|done].
  case_decide; simpl; [by rewrite lookup_delete_ne | by rewrite lookup_insert_ne].
Qed.

Lemma Unregister_invariant ty id w n :
  RegistryInvariant w -> CountersBelow n w ->
  RegistryInvariant (UnregisterListenerInternal ty id w)
  /\ CountersBelow n (UnregisterListenerInternal ty id w).
Proof.
  intros Hinv Hcnt.
  assert (forall ty' L',
            ListenerMap (UnregisterListenerInternal ty id w) !! ty' = Some L' ->
            (NoDup (map HandleID (Listeners L'))
             /\ Forall (fun e => 0 < HandleID e <= LastHandleID L') (Listeners L')
             /\ Listeners L' <> [])
            /\ 0 <= LastHandleID L' <= n) as Hboth.
  { intros ty' L' HL'.
    destruct (decide (ty = ty')) as [<-|Hne];
      [|rewrite ListFor_Unregister_other in HL' by done;
        split; [by apply (Hinv ty') | by apply (Hcnt ty')]].
    destruct (ListFor_bounds w ty n Hinv Hcnt) as (Hnd & Hall & _).
    pose proof (ListenersFor_Unregister ty id w Hnd) as Hperm.
    unfold ListenersFor, ListFor in Hperm, Hnd, Hall. rewrite HL' in Hperm.
    simpl in Hperm.
    unfold UnregisterListenerInternal in HL'.
    destruct (ListenerMap w !! ty) as [L|] eqn:HL; simpl in *;
      [|by rewrite HL in HL'].
    case_decide as Hlen; simpl in HL';
      [by rewrite lookup_delete_eq in HL'|].
    rewrite lookup_insert_eq in HL'. injection HL' as <-. simpl in *.
    set (p := fun e => negb (HandleID e =? id)) in *.
    split; [split; [|split]|].
    - rewrite Hperm.
      apply (sublist_NoDup _ (map HandleID (Listeners L))); [done|].
      clear. induction (Listeners L) as [|y l IH]; cbn [map List.filter];
        [constructor|].
      destruct (p y); cbn [map];
        [apply sublist_skip, IH | apply sublist_cons, IH].
    - rewrite Hperm. rewrite Forall_forall in Hall |- *.
      intros e He. apply Hall.
      apply list_elem_of_In, filter_In in He as [He _].
      by apply list_elem_of_In.
    - intros Hnil. by rewrite Hnil in Hlen.
    - by apply (Hcnt ty L). }
  split; intros ty' L' HL'; by destruct (Hboth ty' L' HL').
Qed.

(** Every state reached by registering and unregistering, as long as the
    counters cannot have overflowed. *)
Lemma RunOperations_invariant self ops :
  Z.of_nat (length ops) <= INT32_MAX ->
  RegistryInvariant (RunOperations ops (NewSubsystem self))
  /\ CountersBelow (Z.of_nat (length ops))
       (RunOperations ops (NewSubsystem self)).
Proof.
  induction ops as [|op ops IH] using rev_ind; intros Hlen.
  - split; [apply RegistryInvariant_New | apply CountersBelow_New].
  - unfold RunOperations. rewrite fold_left_app. simpl.
    fold (RunOperations ops (NewSubsystem self)).
    rewrite length_app in Hlen |- *. simpl in Hlen |- *.
    destruct IH as [Hinv Hcnt]; [lia|].
    destruct op as [r|ty id]; simpl.
    + destruct (Register_invariant r _ _ Hinv Hcnt) as (? & Hc & _); [lia|].
      split; [done|]. by replace (Z.of_nat (length ops + 1))
        with (Z.of_nat (length ops) + 1) by lia.
    + destruct (Unregister_invariant ty id _ _ Hinv Hcnt) as [? Hc].
      split; [done|]. intros ty' L' HL'. specialize (Hc ty' L' HL'). lia.
Qed.

End InvariantFacts.

(** ** Snapshot iteration, in both routers *)

Module SnapshotFacts.
Import Scenarios.



End SnapshotFacts.

(** ** Worked examples for the global router *)

Module GlobalExamples.
Import MessageSubsystem MessageSubsystemSpec CallbackSpec Scenarios.
Import DispatchFacts BroadcastFacts.




(** C5 (the code at the failing input).  With priorities 0, 10, 50
    registered in that order, unregistering the first listener moves the
    last entry into its place: the list reads 50, 10, is no longer sorted,
    and the next broadcast calls the listener of priority 50 before the one
    of priority 10. *)
Theorem unregister_swaps_last_into_slot :
  map (fun e => (Priority e, HandleID e)) (ListenersFor 7 ThreePriorities)
    = [(0, 1); (10, 2); (50, 3)]
  /\ exists w',
       UnregisterListener (HandleFor 1 7 1) ThreePriorities = Returned w'
       /\ map (fun e => (Priority e, HandleID e)) (ListenersFor 7 w')
          = [(50, 3); (10, 2)]
       /\ ~ StronglySorted (PriorityLe Priority) (ListenersFor 7 w')
       /\ exists w'',
            BroadcastMessageInternal 1 ["A"; "B"] 7 WeakNull w'
            = Returned (w'', ResetResult, [3; 2]).
Proof.
  split; [vm_compute; reflexivity|].
  eexists. split; [vm_compute; reflexivity|].
  split; [vm_compute; reflexivity|].
  split; [|eexists; vm_compute; reflexivity].
  intros Hs.
  match type of Hs with
  | StronglySorted _ ?l =>
      let l' := eval vm_compute in l in change l with l' in Hs
  end.
  apply StronglySorted_inv in Hs as [_ Hall].
  apply Forall_inv in Hall. unfold PriorityLe in Hall. simpl in Hall. lia.
Qed.

End GlobalExamples.

(** ** Handle ids *)

Module HandleFacts.
Import MessageSubsystem MessageSubsystemSpec CallbackSpec Scenarios.
Import MessageSubsystemFacts RegistryFacts InvariantFacts.

(** Two registrations on one subsystem that get the same handle id: the
    first listeners of two message types, and a listener registered after
    the list of its type had been emptied and dropped. *)
Lemma handle_ids_collide :
  let w0 := NewSubsystem 1 in
  let first := PlainListener ["A"] 7 50 in
  let other := PlainListener ["A"] 8 50 in
  let w1 := Register first w0 in
  ID (HandleOf first w0) = 1
  /\ ID (HandleOf other w1) = 1
  /\ ID (HandleOf first (UnregisterListenerInternal 7 1 w1)) = 1
  /\ ~ (ID (HandleOf first w0)
        < ID (HandleOf first (UnregisterListenerInternal 7 1 w1))).
Proof. vm_compute. repeat split; discriminate. Qed.

(** C6 (as the code has it).  In the global router handle ids come from
    the counter kept in the listener list of the message type.  After any
    run of fewer than [INT32_MAX] registrations and unregistrations on a new
    subsystem, the ids within the list of one type are pairwise different,
    and a further registration gets the counter's next value, which is
    greater than every id in the list of its type and again different from
    all of them.  In the spatial router all ids come from one counter, which
    registration advances by one and nothing else changes. *)
Theorem handle_ids_per_type :
  (forall self ops r,
     Z.of_nat (length ops) < INT32_MAX ->
     let w := RunOperations ops (NewSubsystem self) in
     RegistryInvariant w
     /\ ID (HandleOf r w) = LastHandleID (ListFor (RegStructType r) w) + 1
     /\ Forall (fun e => HandleID e < ID (HandleOf r w))
          (ListenersFor (RegStructType r) w)
     /\ RegistryInvariant (Register r w))
  /\ (forall w ch cb ty m p P R,
        0 <= WorldMessageSubsystem.GlobalHandleID w < INT32_MAX ->
        let r := WorldMessageSubsystem.RegisterListenerInternal
                   ch cb ty m p P R w in
        WorldMessageSubsystem.ID (snd r)
          = WorldMessageSubsystem.GlobalHandleID w + 1
        /\ WorldMessageSubsystem.GlobalHandleID (fst r)
           = WorldMessageSubsystem.GlobalHandleID w + 1)
  /\ (forall ty id w,
        WorldMessageSubsystem.GlobalHandleID
          (WorldMessageSubsystem.UnregisterListenerInternal ty id w)
        = WorldMessageSubsystem.GlobalHandleID w)
  /\ (forall h P R w,
        WorldMessageSubsystem.GlobalHandleID
          (fst (WorldMessageSubsystem.UpdateRegisterListenerLocation h P R w))
        = WorldMessageSubsystem.GlobalHandleID w).
Proof.
  split; [|split; [|split]].
  - intros self ops r Hlen w.
    destruct (RunOperations_invariant self ops) as [Hinv Hcnt]; [lia|].
    fold w in Hinv, Hcnt.
    destruct (Register_invariant r w _ Hinv Hcnt) as (Hinv' & _ & Hid & Hlt);
      [lia|].
    done.
  - intros w ch cb ty m p P R Hc. simpl.
    unfold INT32_MAX in Hc. rewrite wrap32_small by lia. done.
  - intros ty id w. unfold WorldMessageSubsystem.UnregisterListenerInternal.
    destruct (WorldMessageSubsystem.HandleToSpatialMap w !! id); [|done].
    by destruct (fold_left _ _ _) as [[? ?] ?].
  - intros h P R w.
    unfold WorldMessageSubsystem.UpdateRegisterListenerLocation.
    destruct (_ || _); [done|].
    destruct (WorldMessageSubsystem.HandleToSpatialMap w
                !! WorldMessageSubsystem.ID h); [|done].
    destruct (WorldMessageSubsystem.FindListenerData _ _ _); [|done].
    by destruct (fold_left _ _ _) as [[? ?] ?].
Qed.

Lemma handle_ids_per_type_witness :
  let w := RunOperations
             [OpRegister (PlainListener ["A"] 7 50);
              OpRegister (PlainListener ["A"] 7 10);
              OpUnregister 7 1]
             (NewSubsystem 1) in
  ID (HandleOf (PlainListener ["A"] 7 0) w) = 3
  /\ Forall (fun e => HandleID e < 3) (ListenersFor 7 w).
Proof.
  pose proof (proj1 handle_ids_per_type 1%nat
                [OpRegister (PlainListener ["A"] 7 50);
                 OpRegister (PlainListener ["A"] 7 10);
                 OpUnregister 7%nat 1]
                (PlainListener ["A"] 7 0)) as H.
  cbv zeta in H. destruct H as (_ & Hid & Hlt & _).
  - vm_compute. reflexivity.
  - cbv zeta. split; [vm_compute; reflexivity | exact Hlt].
Defined.

End HandleFacts.

(** ** The tag rule *)

Module TagFacts.
Import Scenarios.



End TagFacts.

Module TagRuleFacts.
Import Scenarios TagFacts.



End TagRuleFacts.

(** ** Unregistration and invalid handles *)

Module UnregisterFacts.
Import Scenarios.

Lemma WithHandle_nil_RemoveAll h l :
  WorldMessageSubsystemSpec.WithHandle h l = [] ->
  RemoveAll (WorldMessageSubsystemSpec.HasHandle h) l = l.
Proof.
  unfold WorldMessageSubsystemSpec.WithHandle, RemoveAll.
  induction l as [|x l IH]; simpl; [done|].
  destruct (WorldMessageSubsystemSpec.HasHandle h x); simpl; [done|].
  intros Hl. by rewrite IH.
Qed.

(** The spatial [UnregisterListenerInternal], for a listener on record:
    every cell loses the entries with its handle id, and so does the handle
    index. *)
Lemma World_Unregister_effect w E ty :
  WorldMessageSubsystemSpec.Tracked w E ->
  let w1 := WorldMessageSubsystem.UnregisterListenerInternal ty
              (WorldMessageSubsystem.HandleID E) w in
  (forall g,
     WorldMessageSubsystemSpec.EntriesAt g w1
     = RemoveAll (WorldMessageSubsystemSpec.HasHandle
                    (WorldMessageSubsystem.HandleID E))
         (WorldMessageSubsystemSpec.EntriesAt g w))
  /\ WorldMessageSubsystem.HandleToSpatialMap w1
       !! WorldMessageSubsystem.HandleID E = None.
Proof.
  intros [Hinfo Hcells] w1. subst w1.
  unfold WorldMessageSubsystem.UnregisterListenerInternal.
  rewrite Hinfo. simpl.
  set (Rel := WorldMessageSubsystem.RelevantGridsOf _ _) in *.
  destruct (WorldRegistryFacts.fold_RemoveFromGrid
              (WorldMessageSubsystem.HandleID E) true Rel
              (WorldMessageSubsystem.GridListenerMap w) []
              (WorldMessageSubsystem.LogOutput w)) as [Hm Hcl].
  cbv zeta in Hm, Hcl.
  destruct (fold_left _ Rel _) as [[m cl] log]. simpl in Hm, Hcl.
  simpl. split; [|by rewrite lookup_delete_eq].
  intros g. unfold WorldMessageSubsystemSpec.EntriesAt. simpl.
  change (WorldMessageSubsystem.Listeners (default _ (?m !! g)))
    with (WorldMessageSubsystemSpec.ListAt m g).
  rewrite WorldRegistryFacts.ListAt_CleanGrids.
  2:{ intros c Hc. destruct (Hcl c Hc) as [Hnil|?]; [|done].
      by apply elem_of_nil in Hnil. }
  rewrite Hm. case_bool_decide as Hg; [done|].
  symmetry. apply WithHandle_nil_RemoveAll.
  specialize (Hcells g). unfold WorldMessageSubsystemSpec.EntriesAt in Hcells.
  by rewrite bool_decide_eq_false_2 in Hcells.
Qed.

Lemma WithHandle_RemoveAll_nil h l e :
  e ∈ RemoveAll (WorldMessageSubsystemSpec.HasHandle h) l ->
  WorldMessageSubsystem.HandleID e <> h.
Proof.
  unfold RemoveAll. rewrite TrackingFacts.elem_of_List_filter.
  intros [_ He]. unfold WorldMessageSubsystemSpec.HasHandle in He.
  by apply negb_true_iff, Z.eqb_neq in He.
Qed.

(** A valid handle of another subsystem instance makes [UnregisterListener]
    fail its [check], in both routers. *)
Lemma foreign_handle_fails_check :
  MessageSubsystem.UnregisterListener (HandleFor 2 7 1) ThreePriorities
    = CheckFailed
  /\ WorldMessageSubsystem.UnregisterListener
       {| WorldMessageSubsystem.Subsystem := WeakLive 2;
          WorldMessageSubsystem.StructType := 7;
          WorldMessageSubsystem.ID := 1 |} ExampleRegistered
     = CheckFailed.
Proof. split; vm_compute; reflexivity. Qed.

(** C9 (as the code has it).  An invalid handle makes [UnregisterListener]
    and [UpdateRegisterListenerLocation] log a warning and change nothing
    else; so does, for [UpdateRegisterListenerLocation], a handle of another
    subsystem instance or a handle id that is not on record, and the update
    returns false; so does, for the spatial [UnregisterListener], a handle
    id that is not on record.  In the global router a handle id that is not
    in the list of its type changes nothing at all.  A valid handle of
    another subsystem instance makes [UnregisterListener] fail
    [check(Handle.Subsystem == this)]. *)
Theorem invalid_handles_are_ignored :
  (forall h w,
     MessageSubsystem.IsValid h = false ->
     MessageSubsystem.UnregisterListener h w
     = Returned (MessageSubsystem.UE_LOG
                   (LogWarning "Trying to unregister an invalid Handle.") w))
  /\ (forall h w,
        MessageSubsystem.IsValid h = true ->
        WeakEq (MessageSubsystem.Subsystem h)
          (MakeWeak (MessageSubsystem.this w)) = true ->
        MessageSubsystemSpec.RegistryInvariant w ->
        Forall (fun e => MessageSubsystem.HandleID e <> MessageSubsystem.ID h)
          (MessageSubsystemSpec.ListenersFor (MessageSubsystem.StructType h) w) ->
        MessageSubsystem.UnregisterListener h w = Returned w)
  /\ (forall h w,
        MessageSubsystem.IsValid h = true ->
        WeakEq (MessageSubsystem.Subsystem h)
          (MakeWeak (MessageSubsystem.this w)) = false ->
        MessageSubsystem.UnregisterListener h w = CheckFailed)
  /\ (forall h w,
        WorldMessageSubsystem.IsValid h = false ->
        WorldMessageSubsystem.UnregisterListener h w
        = Returned (WorldMessageSubsystem.UE_LOG
                      (LogWarning "Trying to unregister an invalid Handle.") w))
  /\ (forall h w,
        WorldMessageSubsystem.IsValid h = true ->
        WeakEq (WorldMessageSubsystem.Subsystem h)
          (MakeWeak (WorldMessageSubsystem.this w)) = true ->
        WorldMessageSubsystem.HandleToSpatialMap w
          !! WorldMessageSubsystem.ID h = None ->
        WorldMessageSubsystem.UnregisterListener h w
        = Returned (WorldMessageSubsystem.UE_LOG
                      (LogWarning
                         "Trying to unregister listener with unknown HandleID")
                      w))
  /\ (forall h w,
        WorldMessageSubsystem.IsValid h = true ->
        WeakEq (WorldMessageSubsystem.Subsystem h)
          (MakeWeak (WorldMessageSubsystem.this w)) = false ->
        WorldMessageSubsystem.UnregisterListener h w = CheckFailed)
  /\ (forall h P R w,
        WorldMessageSubsystem.IsValid h = false
        \/ WeakEq (WorldMessageSubsystem.Subsystem h)
             (MakeWeak (WorldMessageSubsystem.this w)) = false ->
        WorldMessageSubsystem.UpdateRegisterListenerLocation h P R w
        = (WorldMessageSubsystem.UE_LOG
             WorldMessageSubsystem.InvalidUpdateWarning w, false))
  /\ (forall h P R w,
        WorldMessageSubsystem.IsValid h = true ->
        WeakEq (WorldMessageSubsystem.Subsystem h)
          (MakeWeak (WorldMessageSubsystem.this w)) = true ->
        WorldMessageSubsystem.HandleToSpatialMap w
          !! WorldMessageSubsystem.ID h = None ->
        WorldMessageSubsystem.UpdateRegisterListenerLocation h P R w
        = (WorldMessageSubsystem.UE_LOG
             WorldMessageSubsystem.UnknownUpdateWarning w, false))
  /\ (forall line w,
        MessageSubsystem.ListenerMap (MessageSubsystem.UE_LOG line w)
          = MessageSubsystem.ListenerMap w
        /\ MessageSubsystem.BroadcastResultCache (MessageSubsystem.UE_LOG line w)
           = MessageSubsystem.BroadcastResultCache w)
  /\ (forall line w,
        WorldMessageSubsystem.GridListenerMap (WorldMessageSubsystem.UE_LOG line w)
          = WorldMessageSubsystem.GridListenerMap w
        /\ WorldMessageSubsystem.HandleToSpatialMap
             (WorldMessageSubsystem.UE_LOG line w)
           = WorldMessageSubsystem.HandleToSpatialMap w
        /\ WorldMessageSubsystem.BroadcastResultCache
             (WorldMessageSubsystem.UE_LOG line w)
           = WorldMessageSubsystem.BroadcastResultCache w
        /\ WorldMessageSubsystem.GlobalHandleID
             (WorldMessageSubsystem.UE_LOG line w)
           = WorldMessageSubsystem.GlobalHandleID w).
Proof.
  repeat split.
  - intros h w Hv. unfold MessageSubsystem.UnregisterListener. by rewrite Hv.
  - intros h w Hv Hsub Hinv Hnone.
    unfold MessageSubsystem.UnregisterListener. rewrite Hv, Hsub. f_equal.
    unfold MessageSubsystem.UnregisterListenerInternal.
    unfold MessageSubsystemSpec.ListenersFor, MessageSubsystemSpec.ListFor
      in Hnone.
    destruct (MessageSubsystem.ListenerMap w !! MessageSubsystem.StructType h)
      as [L|] eqn:HL; [|done].
    simpl in Hnone. destruct (Hinv _ _ HL) as (_ & _ & Hne).
    assert (IndexOfByPredicate
              (fun Other =>
                 MessageSubsystem.HandleID Other =? MessageSubsystem.ID h)
              (MessageSubsystem.Listeners L) = None) as ->.
    { destruct (IndexOfByPredicate _ _) as [i|] eqn:Hidx; [|done].
      apply RegistryFacts.IndexOfByPredicate_Some in Hidx as (x & Hx & Hxid).
      apply Z.eqb_eq in Hxid. rewrite Forall_forall in Hnone.
      exfalso. apply (Hnone x); [|done]. by eapply list_elem_of_lookup_2. }
    rewrite decide_False.
    2:{ intros Hlen. by apply length_zero_iff_nil in Hlen. }
    destruct w as [self m cache log]. destruct L as [ls c].
    unfold MessageSubsystem.SetListenerMap. simpl in *.
    by rewrite insert_id.
  - intros h w Hv Hsub.
    unfold MessageSubsystem.UnregisterListener. by rewrite Hv, Hsub.
  - intros h w Hv. unfold WorldMessageSubsystem.UnregisterListener.
    by rewrite Hv.
  - intros h w Hv Hsub Hnone.
    unfold WorldMessageSubsystem.UnregisterListener. rewrite Hv, Hsub.
    unfold WorldMessageSubsystem.UnregisterListenerInternal. by rewrite Hnone.
  - intros h w Hv Hsub.
    unfold WorldMessageSubsystem.UnregisterListener. by rewrite Hv, Hsub.
  - intros h P R w [Hv|Hsub];
      unfold WorldMessageSubsystem.UpdateRegisterListenerLocation.
    + by rewrite Hv.
    + rewrite Hsub. simpl. by rewrite orb_true_r.
  - intros h P R w Hv Hsub Hnone.
    unfold WorldMessageSubsystem.UpdateRegisterListenerLocation.
    by rewrite Hv, Hsub, Hnone.
Qed.

Lemma invalid_handles_are_ignored_witness :
  MessageSubsystem.UnregisterListener MessageSubsystem.FreshHandle
    ThreePriorities
  = Returned (MessageSubsystem.UE_LOG
                (LogWarning "Trying to unregister an invalid Handle.")
                ThreePriorities)
  /\ WorldMessageSubsystem.UpdateRegisterListenerLocation
       {| WorldMessageSubsystem.Subsystem := WeakLive 1;
          WorldMessageSubsystem.StructType := 7;
          WorldMessageSubsystem.ID := 5 |}
       ExamplePosition 10 ExampleRegistered
     = (WorldMessageSubsystem.UE_LOG
          WorldMessageSubsystem.UnknownUpdateWarning ExampleRegistered, false).
Proof.
  destruct invalid_handles_are_ignored
    as (Hinvalid & _ & _ & _ & _ & _ & _ & Hunknown & _).
  split.
  - apply Hinvalid. reflexivity.
  - apply Hunknown; vm_compute; reflexivity.
Defined.

End UnregisterFacts.

(** ** Handles unregister once *)

Module HandleUnregisterFacts.
Import Scenarios UnregisterFacts.

Lemma WeakEq_MakeWeak_refl self :
  self <> nullptr ->
  WeakIsValid (MakeWeak self) = true /\ WeakEq (MakeWeak self) (MakeWeak self) = true.
Proof.
  intros Hself. unfold MakeWeak. rewrite decide_False by done. simpl.
  by rewrite bool_decide_eq_true_2.
Qed.

(** C10.  [Unregister()] on the handle of a registered listener removes
    the listener's entry (the other entries stay) and leaves the handle
    equal to a default-constructed one, which is invalid; calling it again
    changes neither the subsystem nor the handle; and a broadcast made
    afterwards does not call the removed listener.  This holds for the
    handles of the global router (where the ids in the list of the type are
    pairwise different) and of the spatial router (for a listener on
    record). *)
Theorem handle_unregister_idempotent :
  (forall w h,
     MessageSubsystem.this w <> nullptr ->
     MessageSubsystem.Subsystem h = MakeWeak (MessageSubsystem.this w) ->
     MessageSubsystem.IsValid h = true ->
     NoDup (map MessageSubsystem.HandleID
              (MessageSubsystemSpec.ListenersFor (MessageSubsystem.StructType h) w)) ->
     exists w1,
       MessageSubsystem.Unregister h w
         = Returned (w1, MessageSubsystem.FreshHandle)
       /\ MessageSubsystem.IsValid MessageSubsystem.FreshHandle = false
       /\ MessageSubsystemSpec.ListenersFor (MessageSubsystem.StructType h) w1
            ≡ₚ List.filter
                 (fun e => negb (MessageSubsystem.HandleID e
                                 =? MessageSubsystem.ID h))
                 (MessageSubsystemSpec.ListenersFor
                    (MessageSubsystem.StructType h) w)
       /\ MessageSubsystem.Unregister MessageSubsystem.FreshHandle w1
          = Returned (w1, MessageSubsystem.FreshHandle)
       /\ forall d ch tgt w2 r inv,
            MessageSubsystem.BroadcastMessageInternal d ch
              (MessageSubsystem.StructType h) tgt w1 = Returned (w2, r, inv) ->
            MessageSubsystem.ID h ∉ inv)
  /\ (forall w h E,
        WorldMessageSubsystem.this w <> nullptr ->
        WorldMessageSubsystem.Subsystem h
          = MakeWeak (WorldMessageSubsystem.this w) ->
        WorldMessageSubsystem.IsValid h = true ->
        WorldMessageSubsystem.ID h = WorldMessageSubsystem.HandleID E ->
        WorldMessageSubsystemSpec.Tracked w E ->
        exists w1,
          WorldMessageSubsystem.Unregister h w
            = Returned (w1, WorldMessageSubsystem.FreshHandle)
          /\ WorldMessageSubsystem.IsValid WorldMessageSubsystem.FreshHandle
             = false
          /\ (forall g,
                WorldMessageSubsystemSpec.EntriesAt g w1
                = RemoveAll (WorldMessageSubsystemSpec.HasHandle
                               (WorldMessageSubsystem.ID h))
                    (WorldMessageSubsystemSpec.EntriesAt g w))
          /\ WorldMessageSubsystem.HandleToSpatialMap w1
               !! WorldMessageSubsystem.ID h = None
          /\ WorldMessageSubsystem.Unregister
               WorldMessageSubsystem.FreshHandle w1
             = Returned (w1, WorldMessageSubsystem.FreshHandle)
          /\ forall d ch ty pos w2 r inv,
               WorldMessageSubsystem.BroadcastMessageInternal d ch ty pos w1
                 = Returned (w2, r, inv) ->
               WorldMessageSubsystem.ID h ∉ inv).
Proof.
  split.
  - intros w h Hself Hsub Hvalid Hnd.
    destruct (WeakEq_MakeWeak_refl _ Hself) as [Hlive Heq].
    exists (MessageSubsystem.UnregisterListenerInternal
              (MessageSubsystem.StructType h) (MessageSubsystem.ID h) w).
    pose proof (InvariantFacts.ListenersFor_Unregister
                  (MessageSubsystem.StructType h) (MessageSubsystem.ID h) w Hnd)
      as Hperm.
    split; [|split; [done|split; [done|split; [done|]]]].
    + unfold MessageSubsystem.Unregister, MessageSubsystem.UnregisterListener.
      by rewrite Hsub, Hlive, Hvalid, Heq.
    + intros d ch tgt w2 r inv Hrun Hin.
      destruct (BroadcastFacts.Broadcast_snapshot _ _ _ _ _ _ _ _ Hrun)
        as [[k Hk] _].
      rewrite Hk in Hin. apply elem_of_take in Hin as (i & Hin & _).
      apply list_elem_of_lookup_2 in Hin.
      unfold CallbackSpec.InvokedOf in Hin.
      apply list_elem_of_In, in_map_iff in Hin as (e & He & Hin).
      apply filter_In in Hin as [Hin _].
      apply list_elem_of_In in Hin. rewrite Hperm in Hin.
      apply TrackingFacts.elem_of_List_filter in Hin as [_ Hne].
      apply negb_true_iff, Z.eqb_neq in Hne. done.
  - intros w h E Hself Hsub Hvalid Hid Htr.
    destruct (WeakEq_MakeWeak_refl _ Hself) as [Hlive Heq].
    destruct (World_Unregister_effect w E (WorldMessageSubsystem.StructType h) Htr)
      as [Hcells Hinfo].
    cbv zeta in Hcells, Hinfo. rewrite <- Hid in Hcells, Hinfo.
    exists (WorldMessageSubsystem.UnregisterListenerInternal
              (WorldMessageSubsystem.StructType h) (WorldMessageSubsystem.ID h) w).
    split; [|split; [done|split; [done|split; [done|split; [done|]]]]].
    + unfold WorldMessageSubsystem.Unregister,
        WorldMessageSubsystem.UnregisterListener.
      by rewrite Hsub, Hlive, Hvalid, Heq.
    + intros d ch ty pos w2 r inv Hrun Hin.
      destruct (WorldDispatchFacts.WorldBroadcast_snapshot _ _ _ _ _ _ _ _ Hrun)
        as [[k Hk] _].
      rewrite Hk in Hin. apply elem_of_take in Hin as (i & Hin & _).
      apply list_elem_of_lookup_2 in Hin.
      unfold WorldMessageSubsystemSpec.InvokedOf in Hin.
      apply list_elem_of_In, in_map_iff in Hin as (e & He & Hin).
      apply filter_In in Hin as [Hin _].
      apply list_elem_of_In in Hin. rewrite Hcells in Hin.
      by apply WithHandle_RemoveAll_nil in Hin.
Qed.

(** Registering a listener, unregistering it through its handle twice, and
    broadcasting: the listener is not called. *)
Lemma handle_unregister_idempotent_witness :
  (let r := MessageSubsystem.RegisterListenerInternal ["A"; "B"] [] 7
              ExactMatch 20 WeakNull ThreePriorities in
   exists w1,
     MessageSubsystem.Unregister (snd r) (fst r)
       = Returned (w1, MessageSubsystem.FreshHandle)
     /\ MessageSubsystem.Unregister MessageSubsystem.FreshHandle w1
        = Returned (w1, MessageSubsystem.FreshHandle)
     /\ exists w2,
          MessageSubsystem.BroadcastMessageInternal 1 ["A"; "B"] 7 WeakNull w1
          = Returned (w2, ResetResult, [1; 2; 3]))
  /\ (exists w1,
        WorldMessageSubsystem.Unregister ExampleHandle ExampleRegistered
          = Returned (w1, WorldMessageSubsystem.FreshHandle)
        /\ WorldMessageSubsystem.GridListenerMap w1 = ∅
        /\ WorldMessageSubsystem.Unregister
             WorldMessageSubsystem.FreshHandle w1
           = Returned (w1, WorldMessageSubsystem.FreshHandle)).
Proof.
  split.
  - cbv zeta.
    destruct (proj1 handle_unregister_idempotent
                (fst (MessageSubsystem.RegisterListenerInternal ["A"; "B"] [] 7
                        ExactMatch 20 WeakNull ThreePriorities))
                (snd (MessageSubsystem.RegisterListenerInternal ["A"; "B"] [] 7
                        ExactMatch 20 WeakNull ThreePriorities)))
      as (w1 & Hfirst & _ & _ & Hsecond & _).
    + discriminate.
    + reflexivity.
    + reflexivity.
    + vm_compute. repeat constructor; rewrite ?elem_of_cons, ?elem_of_nil;
        intuition discriminate.
    + exists w1. split; [done|]. split; [done|].
      vm_compute in Hfirst. injection Hfirst as <-.
      eexists. vm_compute. reflexivity.
  - pose proof (TrackingFacts.Register_Tracked ["A"] [] 7%nat ExactMatch 50
                  ExamplePosition 2000 (WorldMessageSubsystem.NewSubsystem 1))
      as Htr.
    cbv zeta in Htr. destruct Htr as [Htr _].
    + unfold WorldMessageSubsystemSpec.FitsGrid, WorldMessageSubsystemSpec.IsInt32.
      vm_compute. repeat split; discriminate.
    + apply CoverageExamples.Unused_NewSubsystem.
    + match type of Htr with
      | WorldMessageSubsystemSpec.Tracked _ ?E =>
          destruct (proj2 handle_unregister_idempotent ExampleRegistered
                      ExampleHandle E)
            as (w1 & Hfirst & _ & _ & _ & Hsecond & _);
            [discriminate | reflexivity | reflexivity | reflexivity
            | exact Htr |]
      end.
      exists w1. split; [done|]. split; [|done].
      vm_compute in Hfirst. by injection Hfirst as <-.
Defined.

End HandleUnregisterFacts.

Module WorldEffectFacts.
Import WorldMessageSubsystem WorldMessageSubsystemSpec WorldOperations.
Import WorldRegistryFacts TrackingFacts.

Section Preserved.
Context (Phi : list FGameplayWorldMessageListenerData -> Prop).

Lemma fold_AddToGrid_preserves E grids :
  (forall l, Phi l -> Phi (PriorityInsert Priority E l)) ->
  forall m g, Phi (ListAt m g) -> Phi (ListAt (fold_left (AddToGrid E) grids m) g).
Proof.
  intros HPhi. induction grids as [|a grids IH]; intros m g Hm; [done|].
  simpl. apply IH. rewrite ListAt_AddToGrid. destruct (decide (a = g)); auto.
Qed.

Lemma Register_preserves ch cb ty mt p P R w g :
  (forall E l, HandleID E = wrap32 (GlobalHandleID w + 1) ->
               Phi l -> Phi (PriorityInsert Priority E l)) ->
  Phi (EntriesAt g w) ->
  Phi (EntriesAt g (fst (RegisterListenerInternal ch cb ty mt p P R w))).
Proof.
  intros HPhi Hg. unfold RegisterListenerInternal, EntriesAt. simpl.
  change (Listeners (default EmptyGrid (?m !! g))) with (ListAt m g).
  apply fold_AddToGrid_preserves; [|done].
  intros l. by apply HPhi.
Qed.

Lemma ListAt_Unregister ty id w g :
  EntriesAt g (UnregisterListenerInternal ty id w)
  = match HandleToSpatialMap w !! id with
    | Some info =>
        if bool_decide (g ∈ RelevantGridsOf (InfoListenPosition info)
                              (InfoListenRadius info))
        then RemoveAll (HasHandle id) (EntriesAt g w)
        else EntriesAt g w
    | None => EntriesAt g w
    end.
Proof.
  unfold UnregisterListenerInternal.
  destruct (HandleToSpatialMap w !! id) as [info|] eqn:Hinfo; [|done].
  set (Rel := RelevantGridsOf _ _).
  destruct (fold_RemoveFromGrid id true Rel (GridListenerMap w) []
              (LogOutput w)) as [Hm Hcl].
  cbv zeta in Hm, Hcl.
  destruct (fold_left _ Rel _) as [[m cl] log]. simpl in Hm, Hcl.
  unfold EntriesAt. simpl.
  change (Listeners (default EmptyGrid (?m !! g))) with (ListAt m g).
  rewrite ListAt_CleanGrids.
  2:{ intros c Hc. destruct (Hcl c Hc) as [Hnil|?]; [|done].
      by apply elem_of_nil in Hnil. }
  by rewrite Hm.
Qed.

Lemma Unregister_preserves ty id w g :
  (forall l, Phi l -> Phi (RemoveAll (HasHandle id) l)) ->
  Phi (EntriesAt g w) -> Phi (EntriesAt g (UnregisterListenerInternal ty id w)).
Proof.
  intros HPhi Hg. rewrite ListAt_Unregister.
  destruct (HandleToSpatialMap w !! id); [|done].
  case_bool_decide; auto.
Qed.

Lemma FindListenerData_Some id m grids L :
  FindListenerData id m grids = Some L ->
  HandleID L = id /\ exists g, g ∈ grids /\ L ∈ ListAt m g.
Proof.
  induction grids as [|a grids IH]; simpl; [done|].
  unfold ListAt.
  destruct (m !! a) as [GL|] eqn:Ha; simpl.
  - destruct (List.find _ (Listeners GL)) as [L'|] eqn:Hf.
    + intros [= ->]. apply List.find_some in Hf as [Hin Hid].
      split; [lia|]. exists a. split; [by left|].
      rewrite Ha. simpl. by apply list_elem_of_In.
    + intros H. destruct (IH H) as [? [g [? ?]]].
      split; [done|]. exists g. split; [by right|done].
  - intros H. destruct (IH H) as [? [g [? ?]]].
    split; [done|]. exists g. split; [by right|done].
Qed.

Lemma Update_preserves h P R w g :
  (forall l, Phi l -> Phi (RemoveAll (HasHandle (ID h)) l)) ->
  (forall E P' R' l,
     HandleID E = ID h -> (exists g', E ∈ EntriesAt g' w) ->
     Phi l -> Phi (PriorityInsert Priority (MovedTo P' R' E) l)) ->
  (forall P' R' l, Phi l -> Phi (UpdateFirst (ID h) P' R' l)) ->
  Phi (EntriesAt g w) ->
  Phi (EntriesAt g (fst (UpdateRegisterListenerLocation h P R w))).
Proof.
  intros Hrem Hins Hupd Hg. unfold UpdateRegisterListenerLocation.
  destruct (negb (IsValid h) || _); [done|].
  destruct (HandleToSpatialMap w !! ID h) as [info|] eqn:Hinfo; [|done].
  set (R'' := if Qle_bool 0 R then R else InfoListenRadius info).
  set (Old := RelevantGridsOf _ _).
  set (New := RelevantGridsOf P R'').
  destruct (FindListenerData (ID h) (GridListenerMap w) Old) as [L|] eqn:HL;
    [|done].
  apply FindListenerData_Some in HL as [HLid [g' [_ HLin]]].
  set (ToRemove := List.filter _ Old).
  set (ToAdd := List.filter _ New).
  destruct (fold_RemoveFromGrid (ID h) false ToRemove
              (GridListenerMap w) [] []) as [Hm1 Hcl].
  cbv zeta in Hm1, Hcl.
  destruct (fold_left (RemoveFromGrid (ID h) false) ToRemove
              (GridListenerMap w, [], [])) as [[m1 cl] log1].
  simpl in Hm1, Hcl. unfold EntriesAt. simpl.
  change (Listeners (default EmptyGrid (?m !! g))) with (ListAt m g).
  rewrite ListAt_fold_UpdateInGrid.
  assert (Phi (ListAt
                 (fold_left
                    (AddToGrid (MovedTo P R'' L)) ToAdd (CleanGrids cl m1)) g))
    as H3.
  { apply fold_AddToGrid_preserves.
    - intros l. apply Hins; [done|]. by exists g'.
    - rewrite ListAt_CleanGrids.
      2:{ intros c Hc. destruct (Hcl c Hc) as [Hnil|?]; [|done].
          by apply elem_of_nil in Hnil. }
      rewrite Hm1. case_bool_decide; auto. }
  case_bool_decide; auto.
Qed.

End Preserved.
End WorldEffectFacts.

Module WorldFrameFacts.
Import WorldMessageSubsystem WorldMessageSubsystemSpec WorldOperations.
Import WorldRegistryFacts TrackingFacts WorldEffectFacts.

Lemma WithHandle_PriorityInsert_other h E l :
  HandleID E <> h -> WithHandle h (PriorityInsert Priority E l) = WithHandle h l.
Proof.
  intros Hne. unfold PriorityInsert, Insert.
  rewrite WithHandle_app.
  assert (WithHandle h (E :: drop (InsertIndex Priority l (Priority E)) l)
          = WithHandle h (drop (InsertIndex Priority l (Priority E)) l)) as ->.
  { unfold WithHandle. cbn [List.filter]. unfold HasHandle at 1.
    by rewrite (proj2 (Z.eqb_neq _ _) Hne). }
  rewrite <- WithHandle_app. by rewrite take_drop.
Qed.

Lemma WithHandle_RemoveAll_other h id l :
  id <> h -> WithHandle h (RemoveAll (HasHandle id) l) = WithHandle h l.
Proof.
  intros Hne. unfold WithHandle, RemoveAll, HasHandle.
  induction l as [|x l IH]; [done|]. cbn [List.filter].
  destruct (HandleID x =? id) eqn:Hx; cbn [negb List.filter].
  - apply Z.eqb_eq in Hx.
    assert ((HandleID x =? h) = false) as -> by (apply Z.eqb_neq; lia). done.
  - destruct (HandleID x =? h); by rewrite IH.
Qed.

Lemma WithHandle_UpdateFirst_other h id P R l :
  id <> h -> WithHandle h (UpdateFirst id P R l) = WithHandle h l.
Proof.
  intros Hne. unfold WithHandle, HasHandle.
  induction l as [|x l IH]; [done|]. cbn [UpdateFirst].
  destruct (HandleID x =? id) eqn:Hx; cbn [List.filter HandleID].
  - apply Z.eqb_eq in Hx.
    assert ((HandleID x =? h) = false) as -> by (apply Z.eqb_neq; lia). done.
  - destruct (HandleID x =? h); by rewrite IH.
Qed.

Lemma Tracked_Register_other ch cb ty mt p P R w E :
  Tracked w E ->
  HandleID E <> wrap32 (GlobalHandleID w + 1) ->
  Tracked (fst (RegisterListenerInternal ch cb ty mt p P R w)) E.
Proof.
  intros [Hinfo Hcells] Hne. split.
  - simpl. by rewrite lookup_insert_ne.
  - intros g.
    apply (Register_preserves
             (fun l => WithHandle (HandleID E) l = _)); [|apply Hcells].
    intros E' l HE' <-. apply WithHandle_PriorityInsert_other. congruence.
Qed.

Lemma Tracked_Unregister_other ty id w E :
  Tracked w E -> HandleID E <> id ->
  Tracked (UnregisterListenerInternal ty id w) E.
Proof.
  intros [Hinfo Hcells] Hne. split.
  - unfold UnregisterListenerInternal.
    destruct (HandleToSpatialMap w !! id); [|done].
    destruct (fold_left _ _ _) as [[m cl] log]. simpl.
    by rewrite lookup_delete_ne.
  - intros g.
    apply (Unregister_preserves
             (fun l => WithHandle (HandleID E) l = _)); [|apply Hcells].
    intros l <-. by apply WithHandle_RemoveAll_other.
Qed.

Lemma Tracked_Update_other h P R w E :
  Tracked w E -> HandleID E <> ID h ->
  Tracked (fst (UpdateRegisterListenerLocation h P R w)) E.
Proof.
  intros [Hinfo Hcells] Hne. split.
  - unfold UpdateRegisterListenerLocation.
    destruct (negb (IsValid h) || _); [done|].
    destruct (HandleToSpatialMap w !! ID h); [|done].
    destruct (FindListenerData _ _ _); [|done].
    destruct (fold_left _ _ _) as [[m cl] log]. simpl.
    by rewrite lookup_insert_ne.
  - intros g.
    apply (Update_preserves
             (fun l => WithHandle (HandleID E) l = _)); [| | |apply Hcells].
    + intros l <-. by apply WithHandle_RemoveAll_other.
    + intros E' P' R' l HE' _ <-.
      apply WithHandle_PriorityInsert_other. simpl. congruence.
    + intros P' R' l <-. by apply WithHandle_UpdateFirst_other.
Qed.

End WorldFrameFacts.

Module WorldInvariantFacts.
Import WorldMessageSubsystem WorldMessageSubsystemSpec WorldOperations.
Import WorldRegistryFacts TrackingFacts WorldEffectFacts WorldFrameFacts.

Lemma RunOperations_snoc ops op w :
  RunOperations (ops ++ [op]) w = RunOperation (RunOperations ops w) op.
Proof. unfold RunOperations. by rewrite fold_left_app. Qed.

(** *** Priority order *)

Lemma RemoveAll_sorted {A} (R : relation A) (p : A -> bool) (l : list A) :
  StronglySorted R l -> StronglySorted R (RemoveAll p l).
Proof.
  unfold RemoveAll. induction 1 as [|x l Hl IH Hx]; cbn [List.filter]; [constructor|].
  destruct (negb (p x)); [|done]. constructor; [done|].
  rewrite Forall_forall in Hx |- *. intros y Hy.
  apply elem_of_List_filter in Hy as [Hy _]. by apply Hx.
Qed.

Lemma UpdateFirst_Forall_priority (Q : Z -> Prop) h P R l :
  Forall (fun e => Q (Priority e)) l ->
  Forall (fun e => Q (Priority e)) (UpdateFirst h P R l).
Proof.
  induction 1 as [|x l Hx Hl IH]; cbn [UpdateFirst]; [constructor|].
  destruct (HandleID x =? h); constructor; done.
Qed.

Lemma UpdateFirst_sorted h P R l :
  StronglySorted (PriorityLe Priority) l ->
  StronglySorted (PriorityLe Priority) (UpdateFirst h P R l).
Proof.
  induction 1 as [|x l Hl IH Hx]; cbn [UpdateFirst]; [constructor|].
  destruct (HandleID x =? h).
  - constructor; [done|]. exact Hx.
  - constructor; [done|].
    by apply (UpdateFirst_Forall_priority (fun q => Priority x <= q)).
Qed.

Lemma CellsSorted_step w op : CellsSorted w -> CellsSorted (RunOperation w op).
Proof.
  intros Hw g. destruct op as [r|ty id|h P R]; simpl.
  - apply (Register_preserves (StronglySorted (PriorityLe Priority)));
      [|apply Hw].
    intros E l _. apply PriorityInsert_sorted.
  - apply (Unregister_preserves (StronglySorted (PriorityLe Priority)));
      [|apply Hw].
    intros l. apply RemoveAll_sorted.
  - apply (Update_preserves (StronglySorted (PriorityLe Priority)));
      [| | |apply Hw].
    + intros l. apply RemoveAll_sorted.
    + intros E P' R' l _ _. apply PriorityInsert_sorted.
    + intros P' R' l. apply UpdateFirst_sorted.
Qed.

(** *** Empty cells *)

Lemma PriorityInsert_nonempty E l : PriorityInsert Priority E l <> [].
Proof. unfold PriorityInsert, Insert. intros H. by apply app_eq_nil in H as [_ ?]. Qed.

Lemma NoEmptyCell_AddToGrid E m a :
  NoEmptyCell m -> NoEmptyCell (AddToGrid E m a).
Proof.
  intros H g L. unfold AddToGrid.
  destruct (decide (a = g)) as [->|Hne].
  - rewrite lookup_insert_eq. intros [= <-]. simpl. apply PriorityInsert_nonempty.
  - rewrite lookup_insert_ne by done. apply H.
Qed.

Lemma NoEmptyCell_fold_AddToGrid E grids :
  forall m, NoEmptyCell m -> NoEmptyCell (fold_left (AddToGrid E) grids m).
Proof.
  induction grids as [|a grids IH]; intros m Hm; [done|].
  simpl. apply IH. by apply NoEmptyCell_AddToGrid.
Qed.

Lemma EmptiesMarked_RemoveFromGrid h b m cl log a :
  EmptiesMarked m cl ->
  EmptiesMarked (RemoveFromGrid h b (m, cl, log) a).1.1
    (RemoveFromGrid h b (m, cl, log) a).1.2.
Proof.
  intros H. unfold RemoveFromGrid.
  destruct (m !! a) as [GL|] eqn:Ha; simpl; [|done].
  intros g L. destruct (decide (a = g)) as [->|Hne].
  - rewrite lookup_insert_eq. intros [= <-]. simpl. intros Hnil.
    rewrite Hnil. simpl. apply elem_of_app. right. by left.
  - rewrite lookup_insert_ne by done. intros Hg Hnil.
    specialize (H g L Hg Hnil). destruct (decide _); [|done].
    apply elem_of_app. by left.
Qed.

Lemma EmptiesMarked_fold h b grids :
  forall m cl log,
    EmptiesMarked m cl ->
    EmptiesMarked (fold_left (RemoveFromGrid h b) grids (m, cl, log)).1.1
      (fold_left (RemoveFromGrid h b) grids (m, cl, log)).1.2.
Proof.
  induction grids as [|a grids IH]; intros m cl log Hm; [done|].
  cbn [fold_left].
  pose proof (EmptiesMarked_RemoveFromGrid h b m cl log a Hm) as H1.
  destruct (RemoveFromGrid h b (m, cl, log) a) as [[m1 cl1] log1].
  by apply IH.
Qed.

Lemma lookup_CleanGrids cl :
  forall m g, CleanGrids cl m !! g = if bool_decide (g ∈ cl) then None else m !! g.
Proof.
  unfold CleanGrids.
  induction cl as [|c cl IH]; intros m g; cbn [fold_left]; [done|].
  rewrite IH. case_bool_decide as H1; case_bool_decide as H2; try done.
  - exfalso. apply H2. by right.
  - apply elem_of_cons in H2 as [->|?]; [|done]. by rewrite lookup_delete_eq.
  - rewrite lookup_delete_ne; [done|]. intros ->. apply H2. by left.
Qed.

Lemma NoEmptyCell_CleanGrids m cl :
  EmptiesMarked m cl -> NoEmptyCell (CleanGrids cl m).
Proof.
  intros H g L. rewrite lookup_CleanGrids. case_bool_decide as Hg; [done|].
  intros HL Hnil. apply Hg. by apply (H g L).
Qed.

Lemma UpdateFirst_nil h P R l : UpdateFirst h P R l = [] -> l = [].
Proof. destruct l as [|x l]; [done|]. simpl. by destruct (HandleID x =? h). Qed.

Lemma NoEmptyCell_UpdateInGrid h P R New m a :
  NoEmptyCell m -> NoEmptyCell (UpdateInGrid h P R New m a).
Proof.
  intros H. unfold UpdateInGrid. case_bool_decide; [|done].
  destruct (m !! a) as [GL|] eqn:Ha; [|done].
  intros g L. destruct (decide (a = g)) as [->|Hne].
  - rewrite lookup_insert_eq. intros [= <-]. simpl. intros Hnil.
    apply UpdateFirst_nil in Hnil. by apply (H g GL).
  - rewrite lookup_insert_ne by done. apply H.
Qed.

Lemma NoEmptyCell_fold_UpdateInGrid h P R New Old :
  forall m, NoEmptyCell m ->
            NoEmptyCell (fold_left (UpdateInGrid h P R New) Old m).
Proof.
  induction Old as [|a Old IH]; intros m Hm; [done|].
  simpl. apply IH. by apply NoEmptyCell_UpdateInGrid.
Qed.

Lemma EmptiesMarked_nil m : NoEmptyCell m -> EmptiesMarked m [].
Proof. intros H g L HL Hnil. by destruct (H g L HL). Qed.

Lemma NoEmptyCell_step w op :
  NoEmptyCell (GridListenerMap w) ->
  NoEmptyCell (GridListenerMap (RunOperation w op)).
Proof.
  intros Hw. destruct op as [r|ty id|h P R]; simpl.
  - by apply NoEmptyCell_fold_AddToGrid.
  - unfold UnregisterListenerInternal.
    destruct (HandleToSpatialMap w !! id) as [info|]; [|done].
    pose proof (EmptiesMarked_fold id true
                  (RelevantGridsOf (InfoListenPosition info)
                     (InfoListenRadius info))
                  (GridListenerMap w) [] (LogOutput w)
                  (EmptiesMarked_nil _ Hw)) as H.
    destruct (fold_left _ _ _) as [[m cl] log]. simpl in *.
    by apply NoEmptyCell_CleanGrids.
  - unfold UpdateRegisterListenerLocation.
    destruct (negb (IsValid h) || _); [done|].
    destruct (HandleToSpatialMap w !! ID h) as [info|]; [|done].
    destruct (FindListenerData _ _ _) as [L|]; [|done].
    match goal with
    | |- context [fold_left (RemoveFromGrid ?i ?b) ?gs (?m, [], [])] =>
        pose proof (EmptiesMarked_fold i b gs m [] []
                      (EmptiesMarked_nil _ Hw)) as H;
        destruct (fold_left (RemoveFromGrid i b) gs (m, [], []))
          as [[m1 cl] log1]
    end.
    simpl in *.
    apply NoEmptyCell_fold_UpdateInGrid, NoEmptyCell_fold_AddToGrid.
    by apply NoEmptyCell_CleanGrids.
Qed.

(** *** Handle ids *)

Lemma Forall_PriorityInsert (Q : FGameplayWorldMessageListenerData -> Prop) E l :
  Q E -> Forall Q l -> Forall Q (PriorityInsert Priority E l).
Proof.
  intros HE Hl. unfold PriorityInsert, Insert.
  apply Forall_app. split; [by apply Forall_take|].
  constructor; [done|by apply Forall_drop].
Qed.

Lemma Forall_RemoveAll {A} (Q : A -> Prop) (p : A -> bool) l :
  Forall Q l -> Forall Q (RemoveAll p l).
Proof.
  rewrite !Forall_forall. intros H x Hx.
  apply elem_of_List_filter in Hx as [Hx _]. by apply H.
Qed.

Lemma UpdateFirst_Forall_id (Q : Z -> Prop) h P R l :
  Forall (fun e => Q (HandleID e)) l ->
  Forall (fun e => Q (HandleID e)) (UpdateFirst h P R l).
Proof.
  induction 1 as [|x l Hx Hl IH]; cbn [UpdateFirst]; [constructor|].
  destruct (HandleID x =? h); constructor; done.
Qed.

Lemma GlobalHandleID_Unregister ty id w :
  GlobalHandleID (UnregisterListenerInternal ty id w) = GlobalHandleID w.
Proof.
  unfold UnregisterListenerInternal.
  destruct (HandleToSpatialMap w !! id); [|done].
  by destruct (fold_left _ _ _) as [[m cl] log].
Qed.

Lemma GlobalHandleID_Update h P R w :
  GlobalHandleID (fst (UpdateRegisterListenerLocation h P R w))
  = GlobalHandleID w.
Proof.
  unfold UpdateRegisterListenerLocation.
  destruct (negb (IsValid h) || _); [done|].
  destruct (HandleToSpatialMap w !! ID h); [|done].
  destruct (FindListenerData _ _ _); [|done].
  by destruct (fold_left _ _ _) as [[m cl] log].
Qed.

(** The handle index after a location update. *)
Lemma Index_Update h P R w k :
  HandleToSpatialMap (fst (UpdateRegisterListenerLocation h P R w)) !! k
  = if bool_decide (k = ID h
                    /\ snd (UpdateRegisterListenerLocation h P R w) = true)
    then Some {| InfoListenPosition := P;
                 InfoListenRadius :=
                   if Qle_bool 0 R then R
                   else from_option InfoListenRadius 0%Q
                          (HandleToSpatialMap w !! ID h) |}
    else HandleToSpatialMap w !! k.
Proof.
  unfold UpdateRegisterListenerLocation.
  destruct (negb (IsValid h) || _);
    [rewrite bool_decide_eq_false_2; [done|simpl; naive_solver]|].
  destruct (HandleToSpatialMap w !! ID h) as [info|] eqn:Hinfo;
    [|rewrite bool_decide_eq_false_2; [done|simpl; naive_solver]].
  destruct (FindListenerData _ _ _);
    [|rewrite bool_decide_eq_false_2; [done|simpl; naive_solver]].
  destruct (fold_left _ _ _) as [[m cl] log]. simpl.
  case_bool_decide as Hk.
  - destruct Hk as [-> _]. by rewrite lookup_insert_eq.
  - rewrite lookup_insert_ne; [done|]. intros <-. by apply Hk.
Qed.

Lemma Index_Update_mono h P R w k :
  is_Some (HandleToSpatialMap w !! k) ->
  is_Some (HandleToSpatialMap (fst (UpdateRegisterListenerLocation h P R w)) !! k).
Proof. rewrite Index_Update. by case_bool_decide. Qed.

Lemma Index_Update_key h P R w :
  snd (UpdateRegisterListenerLocation h P R w) = true ->
  is_Some (HandleToSpatialMap w !! ID h).
Proof.
  unfold UpdateRegisterListenerLocation.
  destruct (negb (IsValid h) || _); [done|].
  by destruct (HandleToSpatialMap w !! ID h).
Qed.

Lemma IdsIssued_step w op n :
  IdsIssued w -> 0 <= GlobalHandleID w <= n -> n < INT32_MAX ->
  IdsIssued (RunOperation w op)
  /\ 0 <= GlobalHandleID (RunOperation w op) <= n + 1.
Proof.
  intros [Hcells Hkeys] Hc Hn. unfold INT32_MAX in Hn.
  destruct op as [r|ty id|h P R]; cbn [RunOperation].
  - assert (wrap32 (GlobalHandleID w + 1) = GlobalHandleID w + 1) as Hid
      by (apply MessageSubsystemFacts.wrap32_small; lia).
    unfold Register.
    assert (GlobalHandleID
              (fst (RegisterListenerInternal (RegChannel r) (RegCallback r)
                      (RegStructType r) (RegMatchType r) (RegPriority r)
                      (RegListenPosition r) (RegListenRadius r) w))
            = GlobalHandleID w + 1) as Hg by (simpl; done).
    unfold IdsIssued. rewrite Hg. split; [split|lia].
    + intros g.
      apply (Register_preserves
               (Forall (fun e => 0 < HandleID e <= GlobalHandleID w + 1))).
      * intros E l HE Hl. apply Forall_PriorityInsert; [|done]. lia.
      * eapply Forall_impl; [apply Hcells|]. simpl. intros e ?. lia.
    + simpl. intros k info. rewrite Hid.
      destruct (decide (k = GlobalHandleID w + 1)) as [->|Hne]; [lia|].
      rewrite lookup_insert_ne by done. intros Hk.
      specialize (Hkeys k info Hk). lia.
  - unfold IdsIssued. rewrite GlobalHandleID_Unregister. split; [split|lia].
    + intros g. apply Unregister_preserves; [|apply Hcells].
      intros l. apply Forall_RemoveAll.
    + unfold UnregisterListenerInternal.
      destruct (HandleToSpatialMap w !! id) as [?|]; [|exact Hkeys].
      destruct (fold_left _ _ _) as [[m cl] log]. simpl.
      intros k info' Hk. apply lookup_delete_Some in Hk as [_ Hk].
      by apply (Hkeys k info').
  - unfold IdsIssued. rewrite GlobalHandleID_Update. split; [split|lia].
    + intros g. apply Update_preserves; [| | |apply Hcells].
      * intros l. apply Forall_RemoveAll.
      * intros E P' R' l HE [g' Hg'] Hl.
        apply Forall_PriorityInsert; [|done]. simpl.
        specialize (Hcells g'). rewrite Forall_forall in Hcells.
        by apply Hcells.
      * intros P' R' l.
        apply (UpdateFirst_Forall_id (fun i => 0 < i <= GlobalHandleID w)).
    + intros k info. rewrite Index_Update. case_bool_decide as Hk.
      * destruct Hk as [-> Hs]. intros _.
        apply Index_Update_key in Hs as [info' Hs]. by apply (Hkeys _ info').
      * apply Hkeys.
Qed.

(** *** Agreement of the handle index with the cells *)

Lemma WithHandle_nil_Forall h l :
  Forall (fun e => HandleID e <> h) l -> WithHandle h l = [].
Proof.
  unfold WithHandle, HasHandle.
  induction 1 as [|x l Hx Hl IH]; [done|]. cbn [List.filter].
  by rewrite (proj2 (Z.eqb_neq _ _) Hx).
Qed.

Lemma Unused_above w k :
  IdsIssued w -> GlobalHandleID w < k -> Unused k w.
Proof.
  intros [Hcells _] Hk g. apply WithHandle_nil_Forall.
  eapply Forall_impl; [apply Hcells|]. simpl. intros e ?. lia.
Qed.

Lemma OnRecord_step w op n :
  OnRecord w -> IdsIssued w -> 0 <= GlobalHandleID w <= n -> n < INT32_MAX ->
  InRange op -> OnRecord (RunOperation w op).
Proof.
  intros [Htr Hent] Hids Hc Hn Hop. pose proof Hids as [Hcells Hkeys].
  unfold INT32_MAX in Hn.
  destruct op as [r|ty id|h P R]; cbn [RunOperation InRange] in *.
  - assert (wrap32 (GlobalHandleID w + 1) = GlobalHandleID w + 1) as Hid
      by (apply MessageSubsystemFacts.wrap32_small; lia).
    assert (Unused (wrap32 (GlobalHandleID w + 1)) w) as Hun
      by (apply Unused_above; [done|lia]).
    destruct (Register_Tracked (RegChannel r) (RegCallback r)
                (RegStructType r) (RegMatchType r) (RegPriority r)
                (RegListenPosition r) (RegListenRadius r) w Hop Hun)
      as [HE _].
    unfold Register. split.
    + intros k info.
      destruct (decide (k = wrap32 (GlobalHandleID w + 1))) as [->|Hne].
      * intros _. eexists. split; [|exact HE]. done.
      * simpl. rewrite lookup_insert_ne by done. intros Hk.
        destruct (Htr k info Hk) as [E [HEk HEt]]. exists E. split; [done|].
        apply Tracked_Register_other; [done|]. congruence.
    + intros g. simpl HandleToSpatialMap.
      set (M' := <[_ := _]> (HandleToSpatialMap w)).
      apply (Register_preserves
               (Forall (fun e => is_Some (M' !! HandleID e)))).
      * intros E l HE' Hl. apply Forall_PriorityInsert; [|done].
        rewrite HE'. unfold M'. by rewrite lookup_insert_eq.
      * eapply Forall_impl; [apply Hent|]. simpl. intros e He. unfold M'.
        destruct (decide (HandleID e = wrap32 (GlobalHandleID w + 1)))
          as [->|Hne]; [by rewrite lookup_insert_eq|].
        by rewrite lookup_insert_ne.
  - destruct (HandleToSpatialMap w !! id) as [info|] eqn:Hinfo.
    2:{ unfold UnregisterListenerInternal. rewrite Hinfo.
        split; [exact Htr|exact Hent]. }
    destruct (Htr id info Hinfo) as [E [<- HE]].
    destruct (UnregisterFacts.World_Unregister_effect w E ty HE)
      as [Heff Hgone]. cbv zeta in Heff, Hgone.
    assert (forall k, k <> HandleID E ->
              HandleToSpatialMap
                (UnregisterListenerInternal ty (HandleID E) w) !! k
              = HandleToSpatialMap w !! k) as Hother.
    { intros k Hk. unfold UnregisterListenerInternal. rewrite Hinfo.
      destruct (fold_left _ _ _) as [[m cl] log]. simpl.
      by rewrite lookup_delete_ne. }
    split.
    + intros k info'.
      destruct (decide (k = HandleID E)) as [->|Hne]; [by rewrite Hgone|].
      rewrite Hother by done. intros Hk.
      destruct (Htr k info' Hk) as [E' [HEk HEt]]. exists E'. split; [done|].
      apply Tracked_Unregister_other; [done|]. congruence.
    + intros g. rewrite Heff. apply Forall_forall. intros e He.
      pose proof (UnregisterFacts.WithHandle_RemoveAll_nil _ _ _ He) as Hne.
      apply elem_of_List_filter in He as [He _].
      rewrite Hother by done.
      specialize (Hent g). rewrite Forall_forall in Hent. by apply Hent.
  - destruct Hop as [HR Hfit].
    assert (Qle_bool 0 R = true) as HRb by by apply Qle_bool_iff.
    split.
    + intros k info. rewrite Index_Update, HRb. case_bool_decide as Hk.
      * destruct Hk as [-> Hs]. intros [= <-].
        destruct (Index_Update_key _ _ _ _ Hs) as [info' Hi].
        destruct (Htr _ _ Hi) as [E [HEk HEt]].
        assert (IsValid h = true
                /\ WeakEq (Subsystem h) (MakeWeak (this w)) = true)
          as [Hv Hsub].
        { revert Hs. unfold UpdateRegisterListenerLocation.
          destruct (IsValid h); [|done].
          by destruct (WeakEq (Subsystem h) (MakeWeak (this w))). }
        destruct (Update_Tracked h P R E w HEt Hv Hsub (eq_sym HEk))
          as [_ Hmoved].
        { by rewrite HRb. }
        rewrite HRb in Hmoved. exists (MovedTo P R E). by split.
      * intros Hk'. destruct (Htr k info Hk') as [E [HEk HEt]].
        exists E. split; [done|].
        destruct (decide (HandleID E = ID h)) as [Heq|Hne];
          [|by apply Tracked_Update_other].
        assert (snd (UpdateRegisterListenerLocation h P R w) = false) as Hf.
        { destruct (snd (UpdateRegisterListenerLocation h P R w)); [|done].
          exfalso. apply Hk. split; [congruence|done]. }
        revert Hf. unfold UpdateRegisterListenerLocation.
        destruct (negb (IsValid h) || _); [done|].
        destruct (HandleToSpatialMap w !! ID h); [|done].
        destruct (FindListenerData _ _ _); [|done].
        by destruct (fold_left _ _ _) as [[m cl] log].
    + intros g.
      set (M' := HandleToSpatialMap
                   (fst (UpdateRegisterListenerLocation h P R w))).
      apply (Update_preserves
               (Forall (fun e => is_Some (M' !! HandleID e))));
        [| | |].
      * intros l. apply Forall_RemoveAll.
      * intros E P' R' l HE [g' Hg'] Hl.
        apply Forall_PriorityInsert; [|done]. simpl.
        apply Index_Update_mono.
        specialize (Hent g'). rewrite Forall_forall in Hent. by apply Hent.
      * intros P' R' l.
        apply (UpdateFirst_Forall_id (fun i => is_Some (M' !! i))).
      * eapply Forall_impl; [apply Hent|]. simpl. intros e He.
        by apply Index_Update_mono.
Qed.

Lemma NewSubsystem_invariants self :
  OnRecord (NewSubsystem self) /\ IdsIssued (NewSubsystem self)
  /\ CellsSorted (NewSubsystem self)
  /\ NoEmptyCell (GridListenerMap (NewSubsystem self)).
Proof.
  repeat split; try done.
  all: intros g; unfold EntriesAt; simpl; try rewrite lookup_empty;
    try constructor.
Qed.

Lemma RunOperations_invariants self ops :
  let w := RunOperations ops (NewSubsystem self) in
  CellsSorted w /\ NoEmptyCell (GridListenerMap w)
  /\ (Z.of_nat (length ops) <= INT32_MAX ->
      IdsIssued w /\ 0 <= GlobalHandleID w <= Z.of_nat (length ops)
      /\ (Forall InRange ops -> OnRecord w)).
Proof.
  induction ops as [|op ops IH] using rev_ind.
  - destruct (NewSubsystem_invariants self) as (H1 & H2 & H3 & H4).
    cbv zeta. cbn [RunOperations fold_left length].
    split; [done|]. split; [done|]. intros _.
    split; [done|]. split; [simpl; lia|]. done.
  - cbv zeta in *. rewrite RunOperations_snoc.
    destruct IH as (Hs & He & Hrest).
    split; [by apply CellsSorted_step|].
    split; [by apply NoEmptyCell_step|].
    rewrite length_app. cbn [length]. intros Hlen.
    destruct Hrest as (Hids & Hc & Hrec); [lia|].
    destruct (IdsIssued_step _ op _ Hids Hc) as [Hids' Hc']; [lia|].
    split; [done|]. split; [lia|].
    intros Hall. apply Forall_app in Hall as [Hall Hop].
    apply (OnRecord_step _ _ (Z.of_nat (length ops))); auto; try lia.
    by inversion Hop.
Qed.

End WorldInvariantFacts.

(** ** The spatial registry over whole histories *)

Module WorldHistoryFacts.
Import WorldMessageSubsystem WorldMessageSubsystemSpec WorldOperations.
Import WorldRegistryFacts WorldDispatchFacts TrackingFacts CoverageFacts.
Import WorldEffectFacts WorldFrameFacts WorldInvariantFacts.

Lemma List_filter_sorted {A} (R : relation A) (p : A -> bool) (l : list A) :
  StronglySorted R l -> StronglySorted R (List.filter p l).
Proof.
  induction 1 as [|x l Hl IH Hx]; cbn [List.filter]; [constructor|].
  destruct (p x); [|done]. constructor; [done|].
  rewrite Forall_forall in Hx |- *. intros y Hy.
  apply elem_of_List_filter in Hy as [Hy _]. by apply Hx.
Qed.

(** X1.  Whatever listeners have been registered, unregistered and moved
    on a new spatial router, every cell's listener array is in ascending
    priority order (removal goes through [RemoveAll], which keeps the order
    of the entries that stay), so the entries of the cell that a broadcast
    calls are called in ascending priority order. *)
Theorem spatial_cells_stay_sorted self ops :
  let w := RunOperations ops (NewSubsystem self) in
  (forall g, StronglySorted (PriorityLe Priority) (EntriesAt g w))
  /\ forall d ch ty pos w' r inv,
       BroadcastMessageInternal d ch ty pos w = Returned (w', r, inv) ->
       exists ls, inv = map HandleID ls
                  /\ Forall (fun e => e ∈ EntriesAt (GetGridID pos) w) ls
                  /\ StronglySorted (PriorityLe Priority) ls.
Proof.
  cbv zeta.
  destruct (RunOperations_invariants self ops) as [Hs _]. cbv zeta in Hs.
  split; [exact Hs|].
  intros d ch ty pos w' r inv Hb.
  apply WorldBroadcast_snapshot in Hb as [[k ->] _].
  set (l := EntriesAt (GetGridID pos) (RunOperations ops (NewSubsystem self))).
  exists (take k (List.filter (IsInvoked ch ty pos) l)).
  split; [unfold InvokedOf; by rewrite firstn_map|]. split.
  - apply Forall_forall. intros e He.
    apply elem_of_take in He as (i & He & _).
    apply list_elem_of_lookup_2, elem_of_List_filter in He. apply He.
  - eapply StronglySorted_app_1_l. rewrite take_drop.
    apply List_filter_sorted, Hs.
Qed.

(** X2.  The grid map never keeps a cell whose listener array is empty:
    unregistrations and location updates remove the cells they empty. *)
Theorem spatial_empty_cells_are_dropped self ops :
  NoEmptyCell (GridListenerMap (RunOperations ops (NewSubsystem self))).
Proof. apply (RunOperations_invariants self ops). Qed.





End WorldHistoryFacts.

(** ** Registering and unregistering again *)

Module RoundTripFacts.
Import WorldMessageSubsystem WorldMessageSubsystemSpec WorldOperations.
Import GridFacts WorldRegistryFacts TrackingFacts.
Import WorldEffectFacts WorldFrameFacts WorldInvariantFacts.

Lemma lookup_AddToGrid E m a g :
  AddToGrid E m a !! g
  = if decide (a = g)
    then Some (SetListeners (PriorityInsert Priority E (ListAt m g))
                 (default EmptyGrid (m !! g)))
    else m !! g.
Proof.
  unfold AddToGrid. destruct (decide (a = g)) as [->|Hne].
  - by rewrite lookup_insert_eq.
  - by rewrite lookup_insert_ne.
Qed.

Lemma lookup_fold_AddToGrid E grids :
  NoDup grids ->
  forall m g,
    fold_left (AddToGrid E) grids m !! g
    = if bool_decide (g ∈ grids)
      then Some (SetListeners (PriorityInsert Priority E (ListAt m g))
                   (default EmptyGrid (m !! g)))
      else m !! g.
Proof.
  induction 1 as [|a grids Ha Hnd IH]; intros m g; [done|].
  cbn [fold_left]. rewrite IH.
  assert ({g ∈ grids} + {g ∉ grids}) as [Hg|Hg] by exact (decide _).
  - rewrite (bool_decide_eq_true_2 (g ∈ grids)) by done.
    rewrite (bool_decide_eq_true_2 (g ∈ a :: grids)) by by right.
    assert (a <> g) as Hne by (intros ->; done).
    rewrite ListAt_AddToGrid, lookup_AddToGrid.
    by rewrite !decide_False by done.
  - rewrite (bool_decide_eq_false_2 (g ∈ grids)) by done.
    rewrite lookup_AddToGrid. destruct (decide (a = g)) as [->|Hne].
    + by rewrite bool_decide_eq_true_2 by by left.
    + rewrite bool_decide_eq_false_2; [done|].
      intros [->|?]%elem_of_cons; done.
Qed.

Lemma RemoveAll_shorter h l :
  WithHandle h l <> [] ->
  (length l - length (RemoveAll (HasHandle h) l))%nat <> 0%nat.
Proof.
  intros Hne. pose proof (filter_length (HasHandle h) l) as Hlen.
  unfold RemoveAll. fold (WithHandle h l) in Hlen.
  destruct (WithHandle h l); [done|]. simpl in Hlen. lia.
Qed.

(** Removing a listener from cells that all hold it: nothing is logged. *)
Lemma fold_RemoveFromGrid_present id grids :
  NoDup grids ->
  forall m cl log,
    (forall g, g ∈ grids -> WithHandle id (ListAt m g) <> []) ->
    let r := fold_left (RemoveFromGrid id true) grids (m, cl, log) in
    (forall g,
       r.1.1 !! g
       = if bool_decide (g ∈ grids)
         then (fun GL => SetListeners
                           (RemoveAll (HasHandle id) (Listeners GL)) GL)
                <$> m !! g
         else m !! g)
    /\ (forall c, c ∈ r.1.2 <->
                  c ∈ cl \/ (c ∈ grids
                             /\ RemoveAll (HasHandle id) (ListAt m c) = []))
    /\ r.2 = log.
Proof.
  induction 1 as [|a grids Ha Hnd IH]; intros m cl log Hall.
  { cbv zeta. cbn [fold_left fst snd]. split; [done|]. split; [|done].
    intros c. split; [by left|]. intros [?|[H _]]; [done|].
    by apply elem_of_nil in H. }
  cbv zeta. cbn [fold_left].
  assert (WithHandle id (ListAt m a) <> []) as Hpres by (apply Hall; by left).
  destruct (m !! a) as [GL|] eqn:Hma.
  2:{ unfold ListAt in Hpres. by rewrite Hma in Hpres. }
  assert (RemoveFromGrid id true (m, cl, log) a
          = (<[a := SetListeners (RemoveAll (HasHandle id) (Listeners GL)) GL]> m,
             if decide (length (RemoveAll (HasHandle id) (Listeners GL)) = 0%nat)
             then cl ++ [a] else cl,
             log)) as ->.
  { unfold RemoveFromGrid. rewrite Hma. f_equal.
    unfold ListAt in Hpres. rewrite Hma in Hpres. simpl in Hpres.
    rewrite bool_decide_eq_false_2; [done|]. by apply RemoveAll_shorter. }
  set (m1 := <[a := _]> m). set (cl1 := if decide _ then _ else _).
  specialize (IH m1 cl1 log). cbv zeta in IH.
  destruct IH as (Hm & Hcl & Hlog).
  { intros g Hg. assert (a <> g) as Hne by (intros ->; done).
    unfold m1. rewrite ListAt_insert, decide_False by done.
    apply Hall. by right. }
  split; [|split; [|done]].
  - intros g. rewrite Hm. unfold m1.
    assert ({g ∈ grids} + {g ∉ grids}) as [Hg|Hg] by exact (decide _).
    + assert (a <> g) as Hne by (intros ->; done).
      rewrite (bool_decide_eq_true_2 (g ∈ grids)) by done.
      rewrite (bool_decide_eq_true_2 (g ∈ a :: grids)) by by right.
      by rewrite lookup_insert_ne.
    + rewrite (bool_decide_eq_false_2 (g ∈ grids)) by done.
      destruct (decide (a = g)) as [->|Hne].
      * rewrite bool_decide_eq_true_2 by by left.
        by rewrite lookup_insert_eq, Hma.
      * rewrite lookup_insert_ne by done.
        rewrite bool_decide_eq_false_2; [done|].
        intros [->|?]%elem_of_cons; done.
  - intros c. rewrite Hcl. unfold cl1, m1.
    assert (ListAt m a = Listeners GL) as HLa
      by (unfold ListAt; by rewrite Hma).
    split.
    + intros [Hc|[Hc Hnil]].
      * destruct (decide _) as [Hlen|]; [|by left].
        apply elem_of_app in Hc as [?|Hc]; [by left|].
        apply list_elem_of_singleton in Hc as ->. right.
        split; [by left|]. rewrite HLa. by apply length_zero_iff_nil.
      * right. split; [by right|].
        assert (a <> c) as Hne by (intros ->; done).
        by rewrite ListAt_insert, decide_False in Hnil.
    + intros [Hc|[Hc Hnil]].
      * left. destruct (decide _); [|done]. apply elem_of_app. by left.
      * apply elem_of_cons in Hc as [->|Hc].
        -- left. rewrite HLa in Hnil. rewrite Hnil.
           cbn. apply elem_of_app. right. by left.
        -- right. split; [done|].
           assert (a <> c) as Hne by (intros ->; done).
           by rewrite ListAt_insert, decide_False.
Qed.

Lemma RemoveAll_PriorityInsert h E l :
  HandleID E = h -> WithHandle h l = [] ->
  RemoveAll (HasHandle h) (PriorityInsert Priority E l) = l.
Proof.
  intros HE Hl. unfold PriorityInsert, Insert, RemoveAll.
  rewrite List.filter_app. cbn [List.filter]. unfold HasHandle at 2.
  rewrite HE, Z.eqb_refl. cbn [negb].
  rewrite <- List.filter_app, take_drop.
  by apply UnregisterFacts.WithHandle_nil_RemoveAll.
Qed.

Lemma SetListeners_id GL : SetListeners (Listeners GL) GL = GL.
Proof. by destruct GL. Qed.

(** X7.  Registering a spatial listener and unregistering it again gives
    back the router as it was, the id counter apart: every cell holds the
    entries it held before, cells created for the listener are gone, the
    handle index is as before and nothing is written to the log. *)
Theorem spatial_register_unregister_round_trip w ch cb ty mt p P R :
  FitsGrid P R ->
  NoEmptyCell (GridListenerMap w) ->
  Unused (wrap32 (GlobalHandleID w + 1)) w ->
  HandleToSpatialMap w !! wrap32 (GlobalHandleID w + 1) = None ->
  let r := RegisterListenerInternal ch cb ty mt p P R w in
  UnregisterListenerInternal ty (ID (snd r)) (fst r)
  = SetGlobalHandleID (ID (snd r)) w.
Proof.
  intros Hfit Hne Hun Hidx. cbv zeta.
  set (id := wrap32 (GlobalHandleID w + 1)) in *.
  unfold RegisterListenerInternal. cbn [fst snd ID]. fold id.
  set (E := {| ReceivedCallback := cb; HandleID := id; MatchType := mt;
               ListenerStructType := MakeWeak ty; Channel := ch;
               Priority := p; ListenPosition := P; ListenRadius := R |}).
  set (Rel := RelevantGridsOf P R).
  assert (NoDup Rel) as Hnd by by apply NoDup_RelevantGridsOf.
  unfold UnregisterListenerInternal. cbn [HandleToSpatialMap SetHandleToSpatialMap].
  rewrite lookup_insert_eq.
  cbn [InfoListenPosition InfoListenRadius GridListenerMap SetGridListenerMap
       SetHandleToSpatialMap SetGlobalHandleID LogOutput].
  fold Rel.
  set (m1 := fold_left (AddToGrid E) Rel (GridListenerMap w)).
  assert (forall g, ListAt m1 g
                    = if bool_decide (g ∈ Rel)
                      then PriorityInsert Priority E (ListAt (GridListenerMap w) g)
                      else ListAt (GridListenerMap w) g) as Hm1
    by (intros g; by apply ListAt_fold_AddToGrid).
  destruct (fold_RemoveFromGrid_present id Rel Hnd m1 [] (LogOutput w))
    as (Hm & Hcl & Hlog).
  { intros g Hg. rewrite Hm1, bool_decide_eq_true_2 by done.
    rewrite (WithHandle_PriorityInsert id E) by (done || apply Hun). done. }
  cbv zeta in Hm, Hcl, Hlog.
  destruct (fold_left (RemoveFromGrid id true) Rel (m1, [], LogOutput w))
    as [[m2 cl] log]. cbn [fst snd] in Hm, Hcl, Hlog. subst log.
  unfold SetGlobalHandleID. cbn. f_equal.
  - apply map_eq. intros g. rewrite lookup_CleanGrids, Hm.
    unfold m1. rewrite lookup_fold_AddToGrid by done.
    assert ({g ∈ Rel} + {g ∉ Rel}) as [Hg|Hg] by exact (decide _).
    + rewrite !(bool_decide_eq_true_2 (g ∈ Rel)) by done.
      cbn [fmap option_fmap option_map Listeners SetListeners].
      rewrite RemoveAll_PriorityInsert by (done || apply Hun).
      case_bool_decide as Hc.
      * apply Hcl in Hc as [Hc|[_ Hc]]; [by apply elem_of_nil in Hc|].
        rewrite Hm1, bool_decide_eq_true_2 in Hc by done.
        rewrite RemoveAll_PriorityInsert in Hc by (done || apply Hun).
        destruct (GridListenerMap w !! g) as [GL|] eqn:HGL; [|done].
        exfalso. apply (Hne g GL HGL). unfold ListAt in Hc.
        by rewrite HGL in Hc.
      * destruct (GridListenerMap w !! g) as [GL|] eqn:HGL.
        -- unfold ListAt. rewrite HGL. cbn. unfold SetListeners. cbn.
           by destruct GL.
        -- exfalso. apply Hc. apply Hcl. right. split; [done|].
           rewrite Hm1, bool_decide_eq_true_2 by done.
           rewrite RemoveAll_PriorityInsert by (done || apply Hun).
           unfold ListAt. by rewrite HGL.
    + rewrite !(bool_decide_eq_false_2 (g ∈ Rel)) by done.
      rewrite bool_decide_eq_false_2; [done|].
      intros Hc. apply Hcl in Hc as [Hc|[Hc _]]; [|done].
      by apply elem_of_nil in Hc.
  - by apply delete_insert_id.
Qed.

End RoundTripFacts.

(** ** Grid cells *)

Module GridCellFacts.
Import WorldMessageSubsystem WorldMessageSubsystemSpec GridCoordinates.
Import GridFacts TrackingFacts.






Lemma FromTo_same a : FromTo a a = [a].
Proof.
  unfold FromTo. replace (a - a + 1) with 1 by lia.
  rewrite seqZ_cons by lia. by rewrite seqZ_nil by lia.
Qed.

Lemma FromTo_empty a b : b < a -> FromTo a b = [].
Proof. intros H. unfold FromTo. apply seqZ_nil. lia. Qed.

Lemma own_cell_intersects (P : FVector) (R : Q) :
  GridIntersectsRadius P R (FloorToInt (VecX P / GRID_SIZE))
    (FloorToInt (VecY P / GRID_SIZE)) = true.
Proof.
  unfold GridIntersectsRadius. cbv zeta. apply Qle_bool_iff.
  unfold DistSquared. cbn [VecX VecY VecZ].
  destruct (FloorToInt_cell (VecX P)) as [Hx1 Hx2].
  destruct (FloorToInt_cell (VecY P)) as [Hy1 Hy2].
  pose proof (Clamp_closest (VecX P) _ _ (VecX P) Hx1 Hx2) as Hcx.
  pose proof (Clamp_closest (VecY P) _ _ (VecY P) Hy1 Hy2) as Hcy.
  pose proof (Qsquare_nonneg R).
  set (cx := Clamp (VecX P) _ _) in *. set (cy := Clamp (VecY P) _ _) in *.
  nra.
Qed.

Lemma Qfloor_div_le (x y : Q) :
  (x <= y)%Q -> FloorToInt (x / GRID_SIZE) <= FloorToInt (y / GRID_SIZE).
Proof. intros H. apply Qfloor_resp_le. by apply div_GRID_SIZE_le. Qed.

(** With a radius that is not positive the bounding box of
    [GetGridsInRadius] is empty or the cell of the centre. *)
Lemma GetGridsInRadius_nonpositive (P : FVector) (R : Q) :
  (R <= 0)%Q ->
  GetGridsInRadius P R = [] \/ GetGridsInRadius P R = [GetGridID P].
Proof.
  intros HR. unfold GetGridsInRadius. cbv zeta.
  set (kx := FloorToInt (VecX P / GRID_SIZE)).
  set (ky := FloorToInt (VecY P / GRID_SIZE)).
  set (ax := FloorToInt ((VecX P - R) / GRID_SIZE)).
  set (bx := FloorToInt ((VecX P + R) / GRID_SIZE)).
  set (ay := FloorToInt ((VecY P - R) / GRID_SIZE)).
  set (by' := FloorToInt ((VecY P + R) / GRID_SIZE)).
  assert (bx <= kx <= ax) as Hx
    by (split; apply Qfloor_div_le; lra).
  assert (by' <= ky <= ay) as Hy
    by (split; apply Qfloor_div_le; lra).
  change (GetGridID P) with (PackGridID kx ky).
  destruct (decide (bx < ax)) as [Hlt|Hge].
  { rewrite (FromTo_empty ax bx) by done. by left. }
  assert (ax = kx /\ bx = kx) as [-> ->] by lia.
  rewrite FromTo_same. cbn [flat_map]. rewrite app_nil_r.
  destruct (decide (by' < ay)) as [Hlt|Hge'].
  { rewrite (FromTo_empty ay by') by done. by left. }
  assert (ay = ky /\ by' = ky) as [-> ->] by lia.
  rewrite FromTo_same. cbn [flat_map]. rewrite app_nil_r.
  unfold kx, ky. rewrite own_cell_intersects. by right.
Qed.

(** X10.  A listener whose radius is zero or negative is filed under the
    cell of its listen position and under no other cell. *)
Theorem nonpositive_radius_files_one_cell (P : FVector) (R : Q) :
  (R <= 0)%Q -> RelevantGridsOf P R = [GetGridID P].
Proof.
  intros HR. unfold RelevantGridsOf. cbv zeta.
  destruct (GetGridsInRadius_nonpositive P R HR) as [-> | ->].
  - by rewrite decide_True.
  - by rewrite decide_False.
Qed.



End GridCellFacts.

(** ** Delivery in the global router *)

Module DeliveryFacts.
Import MessageSubsystem MessageSubsystemSpec CallbackSpec.
Import MessageSubsystemFacts DispatchFacts BroadcastFacts InvariantFacts.

Lemma Broadcast_quiet d ch ty tgt w :
  Forall (QuietListener (this w)) (ListenersFor ty w) ->
  exists w',
    BroadcastMessageInternal (S d) ch ty tgt w
    = Returned (w', ResetResult, InvokedOf ch ty tgt (ListenersFor ty w)).
Proof.
  intros Hq. simpl. unfold BroadcastBody, ListenersFor, ListFor in *. simpl.
  destruct (ListenerMap w !! ty) as [pList|]; simpl in *.
  - destruct (DispatchLoop_quiet (BroadcastMessageInternal d) ch ty tgt
                (Listeners pList) (SetBroadcastResultCache ResetResult w))
      as (w' & -> & Hb); [done | done |].
    exists w'. simpl. by rewrite Hb.
  - by eexists.
Qed.

Lemma elem_of_InvokedOf id ch ty tgt ls :
  id ∈ InvokedOf ch ty tgt ls
  <-> exists e, e ∈ ls /\ HandleID e = id /\ IsInvoked ch ty tgt e = true.
Proof.
  unfold InvokedOf. rewrite InvariantFacts.map_fmap, list_elem_of_fmap.
  split.
  - intros (e & -> & He). apply TrackingFacts.elem_of_List_filter in He.
    exists e. naive_solver.
  - intros (e & He & <- & Hi). exists e. split; [done|].
    by apply TrackingFacts.elem_of_List_filter.
Qed.

Lemma elem_of_PriorityInsert {A} (f : A -> Z) (E e : A) (l : list A) :
  e ∈ PriorityInsert f E l <-> e = E \/ e ∈ l.
Proof.
  unfold PriorityInsert, Insert.
  rewrite elem_of_app, elem_of_cons.
  rewrite <- (take_drop (InsertIndex f l (f E)) l) at 5.
  rewrite elem_of_app. tauto.
Qed.

(** Which broadcasts call the listener that a registration creates, in a
    state where the ids of its type are below the id it receives. *)
Lemma Register_delivery r w d bch tgt w' res inv :
  RegStructType r <> nullptr ->
  Forall (fun e => HandleID e < ID (HandleOf r w))
    (ListenersFor (RegStructType r) w) ->
  BroadcastMessageInternal d bch (RegStructType r) tgt (Register r w)
    = Returned (w', res, inv) ->
  (ID (HandleOf r w) ∈ inv ->
   TagRule (RegMatchType r) (RegChannel r) bch
   /\ TargetAccepts (RegTargetObject r) tgt)
  /\ (TagRule (RegMatchType r) (RegChannel r) bch ->
      TargetAccepts (RegTargetObject r) tgt ->
      bInterrupted res = false -> ID (HandleOf r w) ∈ inv).
Proof.
  intros Hty Hbelow Hb.
  apply Broadcast_snapshot in Hb as [[k Hk] Hfull].
  pose proof (ListFor_Register_same r w) as Hsame.
  assert (ListenersFor (RegStructType r) (Register r w)
          = PriorityInsert Priority
              (EntryOf r (LastHandleID (ListFor (RegStructType r) w) + 1))
              (ListenersFor (RegStructType r) w)) as HL
    by (unfold ListenersFor at 1; by rewrite Hsame).
  set (E := EntryOf r (LastHandleID (ListFor (RegStructType r) w) + 1)) in *.
  assert (HandleID E = ID (HandleOf r w)) as HE by done.
  assert (IsInvoked bch (RegStructType r) tgt E = true
          <-> TagRule (RegMatchType r) (RegChannel r) bch
              /\ TargetAccepts (RegTargetObject r) tgt) as Hspec.
  { rewrite IsInvoked_spec. simpl. unfold MakeWeak.
    rewrite decide_False by done. simpl. tauto. }
  split.
  - intros Hin. rewrite Hk in Hin. apply elem_of_take in Hin as (i & Hin & _).
    apply list_elem_of_lookup_2 in Hin.
    apply elem_of_InvokedOf in Hin as (e & He & Hid & Hi).
    rewrite HL in He. apply elem_of_PriorityInsert in He as [->|He].
    + by apply Hspec.
    + rewrite Forall_forall in Hbelow. specialize (Hbelow e He). lia.
  - intros Htag Htgt Hni. rewrite (Hfull Hni).
    apply elem_of_InvokedOf. exists E. split; [|split; [done|]].
    + rewrite HL. apply elem_of_PriorityInsert. by left.
    + apply Hspec. by split.
Qed.

(** X13.  After any history of registrations and unregistrations on a new
    global router, the listener created by a further registration is
    called by exactly the broadcasts of its message type whose channel
    satisfies its match rule and whose target it accepts: no other
    broadcast calls it, every such broadcast that is not interrupted calls
    it, and such a broadcast returns, having called it, when the listeners
    of the type leave broadcasts and cancellation alone. *)
Theorem registered_listener_is_called self ops r :
  Z.of_nat (length ops) < INT32_MAX ->
  RegStructType r <> nullptr ->
  let w := RunOperations ops (NewSubsystem self) in
  let id := ID (HandleOf r w) in
  (forall d bch tgt w' res inv,
     BroadcastMessageInternal d bch (RegStructType r) tgt (Register r w)
       = Returned (w', res, inv) ->
     (id ∈ inv ->
      TagRule (RegMatchType r) (RegChannel r) bch
      /\ TargetAccepts (RegTargetObject r) tgt)
     /\ (TagRule (RegMatchType r) (RegChannel r) bch ->
         TargetAccepts (RegTargetObject r) tgt ->
         bInterrupted res = false -> id ∈ inv))
  /\ (forall d bch tgt,
        Forall (QuietListener self)
          (ListenersFor (RegStructType r) (Register r w)) ->
        TagRule (RegMatchType r) (RegChannel r) bch ->
        TargetAccepts (RegTargetObject r) tgt ->
        exists w' inv,
          BroadcastMessageInternal (S d) bch (RegStructType r) tgt
            (Register r w) = Returned (w', ResetResult, inv)
          /\ id ∈ inv).
Proof.
  intros Hlen Hty. cbv zeta.
  destruct (RunOperations_invariant self ops) as [Hinv Hcnt]; [lia|].
  set (w := RunOperations ops (NewSubsystem self)) in *.
  destruct (Register_invariant r w _ Hinv Hcnt) as (_ & _ & _ & Hbelow);
    [lia|].
  split.
  - intros d bch tgt w' res inv Hb. by eapply Register_delivery.
  - intros d bch tgt Hq Htag Htgt.
    assert (this (Register r w) = self) as Hthis.
    { unfold Register. simpl. unfold w. clear.
      induction ops as [|op ops IH] using rev_ind; [done|].
      unfold RunOperations. rewrite fold_left_app. simpl.
      destruct op as [r'|ty id]; simpl; [done|].
      rewrite (proj2 (UnregisterListenerInternal_frame _ _ _)).
      apply IH. }
    rewrite <- Hthis in Hq.
    destruct (Broadcast_quiet d bch _ tgt _ Hq) as [w' Hb].
    eexists w', _. split; [exact Hb|].
    by apply (proj2 (Register_delivery r w _ bch tgt _ _ _ Hty Hbelow Hb)).
Qed.

End DeliveryFacts.

(** ** Handle ids of an emptied list *)

Module HandleReuseFacts.
Import MessageSubsystem MessageSubsystemSpec.

Lemma WeakEq_refl p : WeakEq p p = true.
Proof. destruct p; simpl; [done|done|]. by apply bool_decide_eq_true_2. Qed.

Lemma Register_Unregister_first w r :
  ListenerMap w !! RegStructType r = None ->
  IsValid (HandleOf r w) = true
  /\ UnregisterListener (HandleOf r w) (Register r w) = Returned w.
Proof.
  intros Hnone. unfold HandleOf, Register, RegisterListenerInternal.
  rewrite Hnone. cbn [default EmptyList Listeners LastHandleID fst snd].
  split; [done|].
  unfold UnregisterListener, IsValid. cbn [ID Subsystem StructType this SetListenerMap].
  change (wrap32 (0 + 1)) with 1. cbn [Z.eqb negb].
  rewrite WeakEq_refl. f_equal.
  unfold UnregisterListenerInternal. cbn [ListenerMap SetListenerMap].
  rewrite lookup_insert_eq. cbn [Listeners LastHandleID].
  unfold InsertIndex, Insert. cbn.
  unfold SetListenerMap. cbn.
  rewrite delete_insert_id by done. by destruct w.
Qed.

(** X14.  In the global router the id counter lives in the list of a
    message type and goes away with it.  When the only listener of a type
    is unregistered the router is back in the state it had before the
    registration; the next registration of that type is handed the same
    handle, so a copy of the first handle kept by its owner unregisters
    the new listener. *)
Theorem emptied_type_reuses_handle_ids w r1 r2 :
  RegStructType r1 = RegStructType r2 ->
  ListenerMap w !! RegStructType r1 = None ->
  IsValid (HandleOf r1 w) = true
  /\ UnregisterListener (HandleOf r1 w) (Register r1 w) = Returned w
  /\ HandleOf r2 w = HandleOf r1 w
  /\ UnregisterListener (HandleOf r1 w) (Register r2 w) = Returned w.
Proof.
  intros Hty Hnone.
  destruct (Register_Unregister_first w r1 Hnone) as [Hv H1].
  assert (HandleOf r2 w = HandleOf r1 w) as Hh.
  { unfold HandleOf, RegisterListenerInternal. cbn [snd]. by rewrite Hty. }
  split; [done|]. split; [done|]. split; [done|].
  rewrite <- Hh. apply Register_Unregister_first. by rewrite <- Hty.
Qed.

End HandleReuseFacts.

(** ** Cancellation and interruption in the spatial router *)

Module WorldCancelFacts.
Import WorldMessageSubsystem WorldMessageSubsystemSpec WorldCallbackSpec.
Import WorldDispatchFacts.

Section Loop.
Variable N : FGameplayTag -> ObjectPtr -> FVector ->
             UGameplayWorldMessageSubsystem -> Outcome BroadcastReturn.


Lemma WorldRunCallback_app cs cs' w :
  RunCallback N (cs ++ cs') w = (w' <-! RunCallback N cs w; RunCallback N cs' w').
Proof.
  revert w. induction cs as [|c cs IH]; intros w; simpl; [done|].
  destruct (RunCall N c w); simpl; auto.
Qed.



End Loop.


Lemma WorldBroadcast_returns_cache d ch ty pos w w' r inv :
  BroadcastMessageInternal d ch ty pos w = Returned (w', r, inv) ->
  r = BroadcastResultCache w'.
Proof.
  destruct d as [|d]; [done|]. simpl. unfold BroadcastBody. simpl.
  destruct (GridListenerMap w !! GetGridID pos) as [pList|].
  - destruct (DispatchLoop _ _ _ _ _ _) as [[w1 inv1]| |]; simpl; try done.
    by intros [= <- <- <-].
  - by intros [= <- <- <-].
Qed.

(** X16.  The spatial router, like the global one, keeps one
    [BroadcastResultCache] for all its broadcasts.  What a broadcast
    returns is that cache as it stands when its loop ends; and after a
    callback that finishes with a nested broadcast, the interruption test
    of the enclosing loop reads the result the nested broadcast left
    there. *)
Theorem spatial_nested_broadcast_shares_cache d :
  (forall ch ty pos w w' r inv,
     BroadcastMessageInternal d ch ty pos w = Returned (w', r, inv) ->
     r = BroadcastResultCache w')
  /\ (forall ch ty pos L post w cs ch' ty' pos' w1 w2 r2 inv2,
        IsInvoked ch ty pos L = true ->
        ReceivedCallback L = cs ++ [CallBroadcastMessage ch' ty' pos'] ->
        RunCallback (BroadcastMessageInternal d) cs w = Returned w1 ->
        BroadcastMessageInternal d ch' ty' pos' w1 = Returned (w2, r2, inv2) ->
        DispatchLoop (BroadcastMessageInternal d) ch ty pos (L :: post) w
        = if bInterrupted r2
          then Returned (w2, [HandleID L])
          else r <-! DispatchLoop (BroadcastMessageInternal d) ch ty pos post w2;
               Returned (fst r, HandleID L :: snd r)).
Proof.
  split.
  - intros. by eapply WorldBroadcast_returns_cache.
  - intros ch ty pos L post w cs ch' ty' pos' w1 w2 r2 inv2
      Hinv Hcb Hcs Hnested.
    rewrite WorldDispatchLoop_invoke by done.
    rewrite Hcb, WorldRunCallback_app, Hcs. simpl. rewrite Hnested. simpl.
    by rewrite (WorldBroadcast_returns_cache _ _ _ _ _ _ _ _ Hnested).
Qed.

End WorldCancelFacts.

(** ** Shutting a router down *)

Module DeinitializeFacts.

(** X17.  [Deinitialize] drops every registration.  Afterwards a
    broadcast finds no listener and returns the reset result; a handle
    issued before unregisters nothing (the spatial router logs that it does
    not know the id) and cannot be moved.  The global router starts its
    handle ids again at 1, while the spatial router goes on counting. *)
Theorem deinitialize_drops_every_listener :
  (forall w d ch ty tgt,
     MessageSubsystem.BroadcastMessageInternal (S d) ch ty tgt
       (MessageSubsystemAPI.Deinitialize w)
     = Returned (MessageSubsystem.SetBroadcastResultCache ResetResult
                   (MessageSubsystemAPI.Deinitialize w), ResetResult, []))
  /\ (forall w h,
        MessageSubsystem.IsValid h = true ->
        WeakEq (MessageSubsystem.Subsystem h)
          (MakeWeak (MessageSubsystem.this w)) = true ->
        MessageSubsystem.UnregisterListener h
          (MessageSubsystemAPI.Deinitialize w)
        = Returned (MessageSubsystemAPI.Deinitialize w))
  /\ (forall w ch cb ty mt p tgt,
        MessageSubsystem.ID
          (snd (MessageSubsystem.RegisterListenerInternal ch cb ty mt p tgt
                  (MessageSubsystemAPI.Deinitialize w))) = 1)
  /\ (forall w d ch ty pos,
        WorldMessageSubsystem.BroadcastMessageInternal (S d) ch ty pos
          (WorldMessageSubsystemAPI.Deinitialize w)
        = Returned (WorldMessageSubsystem.SetBroadcastResultCache ResetResult
                      (WorldMessageSubsystemAPI.Deinitialize w),
                    ResetResult, []))
  /\ (forall w h,
        WorldMessageSubsystem.IsValid h = true ->
        WeakEq (WorldMessageSubsystem.Subsystem h)
          (MakeWeak (WorldMessageSubsystem.this w)) = true ->
        WorldMessageSubsystem.UnregisterListener h
          (WorldMessageSubsystemAPI.Deinitialize w)
        = Returned (WorldMessageSubsystem.UE_LOG
                      (LogWarning
                         "Trying to unregister listener with unknown HandleID")
                      (WorldMessageSubsystemAPI.Deinitialize w)))
  /\ (forall w h P R,
        snd (WorldMessageSubsystem.UpdateRegisterListenerLocation h P R
               (WorldMessageSubsystemAPI.Deinitialize w)) = false)
  /\ (forall w ch cb ty mt p P R,
        WorldMessageSubsystem.ID
          (snd (WorldMessageSubsystem.RegisterListenerInternal ch cb ty mt p
                  P R (WorldMessageSubsystemAPI.Deinitialize w)))
        = wrap32 (WorldMessageSubsystem.GlobalHandleID w + 1)).
Proof.
  repeat split.
  - intros w h Hv Hsub. unfold MessageSubsystem.UnregisterListener.
    rewrite Hv. cbn [MessageSubsystem.this MessageSubsystemAPI.Deinitialize
                     MessageSubsystem.SetListenerMap].
    rewrite Hsub. done.
  - intros w h Hv Hsub. unfold WorldMessageSubsystem.UnregisterListener.
    rewrite Hv. simpl. rewrite Hsub. done.
  - intros w h P R. unfold WorldMessageSubsystem.UpdateRegisterListenerLocation.
    destruct (negb _ || _); [done|]. simpl. by rewrite lookup_empty.
Qed.

End DeinitializeFacts.

(** ** The simple overloads *)

Module SimpleMessageFacts.
Import CallbackSpec.


End SimpleMessageFacts.

(** ** Listeners whose struct type has gone invalid *)

Module StaleFacts.
Import MessageSubsystem MessageSubsystemSpec CallbackSpec StaleSpec.
Import DispatchFacts InvariantFacts.

Lemma List_filter_Permutation {A} (p : A -> bool) (l l' : list A) :
  l ≡ₚ l' -> List.filter p l ≡ₚ List.filter p l'.
Proof.
  induction 1 as [|x l l' _ IH|x y l|l1 l2 l3 _ IH1 _ IH2]; cbn [List.filter].
  - done.
  - destruct (p x); by rewrite IH.
  - destruct (p x), (p y); try done. apply perm_swap.
  - by rewrite IH1.
Qed.

Lemma List_filter_filter {A} (p q : A -> bool) (l : list A) :
  List.filter p (List.filter q l) = List.filter (fun x => q x && p x) l.
Proof.
  induction l as [|x l IH]; [done|]. cbn [List.filter].
  destruct (q x); cbn [List.filter andb]; [|done].
  destruct (p x); by rewrite IH.
Qed.

Lemma NoDup_map_List_filter {A B} (f : A -> B) (p : A -> bool) (l : list A) :
  NoDup (map f l) -> NoDup (map f (List.filter p l)).
Proof.
  induction l as [|x l IH]; [done|]. cbn [map List.filter].
  intros [Hx Hl]%NoDup_cons. destruct (p x); [|by apply IH].
  cbn [map]. apply NoDup_cons. split; [|by apply IH].
  intros Hin. apply Hx.
  apply list_elem_of_In, in_map_iff in Hin as (y & <- & Hy).
  apply filter_In in Hy as [Hy _]. apply list_elem_of_In, in_map, Hy.
Qed.

Lemma LogOutput_Unregister ty id w :
  LogOutput (UnregisterListenerInternal ty id w) = LogOutput w.
Proof.
  unfold UnregisterListenerInternal.
  destruct (ListenerMap w !! ty); [|done]. by case_decide.
Qed.

Section Loop.
Variable N : FGameplayTag -> ObjectPtr -> TWeakObjectPtr ->
             UGameplayMessageSubsystem -> Outcome BroadcastReturn.

Lemma DispatchLoop_purge ch ty tgt ls :
  forall w,
    NoDup (map HandleID (ListenersFor ty w)) ->
    Forall (fun L => IsStale L = false -> ReceivedCallback L = []) ls ->
    bInterrupted (BroadcastResultCache w) = false ->
    exists w',
      DispatchLoop N ch ty tgt ls w = Returned (w', InvokedOf ch ty tgt ls)
      /\ BroadcastResultCache w' = BroadcastResultCache w
      /\ ListenersFor ty w'
         ≡ₚ List.filter (NotAmong (StaleIDs ls)) (ListenersFor ty w)
      /\ LogOutput w'
         = LogOutput w ++ replicate (length (StaleIDs ls)) StaleWarning.
Proof.
  induction ls as [|L ls IH]; intros w Hnd Hcb Hni.
  - exists w. simpl. split; [done|]. split; [done|]. split.
    + unfold StaleIDs, NotAmong. simpl.
      rewrite forallb_filter_id; [done|]. by apply forallb_forall.
    + by rewrite app_nil_r.
  - apply Forall_cons in Hcb as [HL Hcb].
    destruct (WeakIsValid (ListenerStructType L)) eqn:Hv.
    + assert (IsStale L = false) as Hst by (unfold IsStale; by rewrite Hv).
      assert (StaleIDs (L :: ls) = StaleIDs ls) as ->
        by (unfold StaleIDs; cbn [List.filter]; by rewrite Hst).
      destruct (IH w Hnd Hcb Hni) as (w' & Hrun & Hc & Hp & Hlog).
      exists w'. split; [|done].
      destruct (PassesFilters ch ty tgt L) eqn:Hpass.
      * rewrite DispatchLoop_invoke
          by (unfold IsInvoked; by rewrite Hv, Hpass).
        rewrite (HL Hst). simpl. rewrite Hni, Hrun. simpl.
        unfold InvokedOf. cbn [List.filter]. unfold IsInvoked at 2.
        by rewrite Hv, Hpass.
      * rewrite DispatchLoop_skip by done. rewrite Hrun.
        unfold InvokedOf. cbn [List.filter]. unfold IsInvoked at 2.
        by rewrite Hv, Hpass.
    + assert (IsStale L = true) as Hst by (unfold IsStale; by rewrite Hv).
      assert (StaleIDs (L :: ls) = HandleID L :: StaleIDs ls) as ->
        by (unfold StaleIDs; cbn [List.filter]; by rewrite Hst).
      rewrite DispatchLoop_stale by done.
      set (w1 := UnregisterListenerInternal ty (HandleID L)
                   (UE_LOG StaleWarning w)).
      pose proof (ListenersFor_Unregister ty (HandleID L)
                    (UE_LOG StaleWarning w) Hnd) as Hp1.
      fold w1 in Hp1.
      change (ListenersFor ty (UE_LOG StaleWarning w))
        with (ListenersFor ty w) in Hp1.
      destruct (IH w1) as (w' & Hrun & Hc & Hp & Hlog).
      { rewrite Hp1. by apply NoDup_map_List_filter. }
      { done. }
      { unfold w1.
        by rewrite (proj1 (UnregisterListenerInternal_frame _ _ _)). }
      exists w'. split; [|split; [|split]].
      * rewrite Hrun. unfold InvokedOf. cbn [List.filter].
        unfold IsInvoked at 2. by rewrite Hv.
      * rewrite Hc. unfold w1.
        by rewrite (proj1 (UnregisterListenerInternal_frame _ _ _)).
      * rewrite Hp, (List_filter_Permutation _ _ _ Hp1), List_filter_filter.
        done.
      * rewrite Hlog. unfold w1. rewrite LogOutput_Unregister. simpl.
        by rewrite <- app_assoc.
Qed.

End Loop.

Lemma NotAmong_StaleIDs ls e :
  NoDup (map HandleID ls) -> e ∈ ls ->
  NotAmong (StaleIDs ls) e = negb (IsStale e).
Proof.
  intros Hnd He. unfold NotAmong, StaleIDs.
  destruct (IsStale e) eqn:Hst; simpl.
  - apply not_true_is_false. intros Hall.
    rewrite forallb_forall in Hall.
    specialize (Hall (HandleID e)).
    rewrite Z.eqb_refl in Hall. simpl in Hall.
    assert (true = false) by (symmetry; apply Hall; apply in_map,
      filter_In; split; [by apply list_elem_of_In|done]).
    done.
  - apply forallb_forall. intros i Hi.
    apply in_map_iff in Hi as (e' & <- & He').
    apply filter_In in He' as [He' Hst'].
    apply negb_true_iff, Z.eqb_neq. intros Heq.
    assert (e = e') as <-; [|congruence].
    clear Hst Hst'. apply list_elem_of_In in He'.
    induction ls as [|x ls IH]; [by apply elem_of_nil in He|].
    cbn [map] in Hnd. apply NoDup_cons in Hnd as [Hx Hnd].
    apply elem_of_cons in He as [->|He];
      apply elem_of_cons in He' as [->|He']; try done.
    + exfalso. apply Hx. rewrite Heq. by apply list_elem_of_In, in_map,
        list_elem_of_In.
    + exfalso. apply Hx. rewrite <- Heq. by apply list_elem_of_In, in_map,
        list_elem_of_In.
    + by apply IH.
Qed.

(** X19.  A broadcast purges the listeners of its message type whose
    struct type has gone invalid: none of them is called, each is
    unregistered and reported with one warning, and the other listeners of
    the type all stay registered.  (The listeners that are still valid do
    nothing in their callbacks here, and the handle ids of the type are
    pairwise different.) *)
Theorem stale_listeners_are_purged d ch ty tgt w :
  NoDup (map HandleID (ListenersFor ty w)) ->
  Forall (fun L => IsStale L = false -> ReceivedCallback L = [])
    (ListenersFor ty w) ->
  exists w',
    BroadcastMessageInternal (S d) ch ty tgt w
    = Returned (w', ResetResult, InvokedOf ch ty tgt (ListenersFor ty w))
    /\ Forall (fun id => id ∉ StaleIDs (ListenersFor ty w))
         (InvokedOf ch ty tgt (ListenersFor ty w))
    /\ ListenersFor ty w'
       ≡ₚ List.filter (fun L => negb (IsStale L)) (ListenersFor ty w)
    /\ LogOutput w'
       = LogOutput w
         ++ replicate (length (StaleIDs (ListenersFor ty w))) StaleWarning.
Proof.
  intros Hnd Hcb.
  assert (forall ls, ls = ListenersFor ty w ->
            Forall (fun id => id ∉ StaleIDs ls) (InvokedOf ch ty tgt ls))
    as Hno.
  { intros ls ->. apply Forall_forall. intros id Hin Hst.
    apply DeliveryFacts.elem_of_InvokedOf in Hin as (e & He & <- & Hi).
    unfold StaleIDs in Hst.
    apply list_elem_of_In, in_map_iff in Hst as (e' & Heq & He').
    apply filter_In in He' as [He' Hst'].
    assert (NotAmong (StaleIDs (ListenersFor ty w)) e = negb (IsStale e))
      as Hna by by apply NotAmong_StaleIDs.
    unfold IsInvoked in Hi. apply andb_true_iff in Hi as [Hv _].
    unfold IsStale in Hna at 1. rewrite Hv in Hna. simpl in Hna.
    unfold NotAmong in Hna. rewrite forallb_forall in Hna.
    specialize (Hna (HandleID e)). rewrite Z.eqb_refl in Hna.
    simpl in Hna.
    assert (false = true); [|done]. apply Hna.
    rewrite <- Heq. apply in_map, filter_In. by split. }
  cbn [BroadcastMessageInternal]. unfold BroadcastBody. cbv zeta.
  change (ListenerMap (SetBroadcastResultCache ResetResult w))
    with (ListenerMap w).
  unfold ListenersFor, ListFor in *.
  destruct (ListenerMap w !! ty) as [pList|] eqn:Hmap; cbn [default] in *.
  - destruct (DispatchLoop_purge (BroadcastMessageInternal d) ch ty tgt
                (Listeners pList) (SetBroadcastResultCache ResetResult w))
      as (w' & Hrun & Hc & Hp & Hlog).
    { unfold ListenersFor, ListFor. simpl. by rewrite Hmap. }
    { done. }
    { done. }
    rewrite Hrun. exists w'. simpl. rewrite Hc. simpl.
    split; [done|]. split; [by apply Hno|]. split; [|done].
    unfold ListenersFor, ListFor in Hp. simpl in Hp. rewrite Hmap in Hp.
    simpl in Hp. rewrite Hp.
    erewrite filter_ext_in; [done|]. intros e He. simpl.
    apply NotAmong_StaleIDs; [done|by apply list_elem_of_In].
  - eexists. split; [done|]. split; [by apply Hno|].
    simpl. rewrite Hmap. simpl. split; [done|]. by rewrite app_nil_r.
Qed.

End StaleFacts.

(** ** The statements above at concrete routers *)

Module HistoryExamples.
Import WorldMessageSubsystem WorldMessageSubsystemSpec WorldOperations.
Import WorldScenarios Scenarios.
Import WorldInvariantFacts WorldHistoryFacts RoundTripFacts GridCellFacts.
Import GridCoordinates.



Lemma spatial_cells_stay_sorted_witness :
  exists ls,
    [3; 2] = map HandleID ls
    /\ Forall (fun e => e ∈ EntriesAt (GetGridID (At 3000 0))
                          (RunOperations ExampleHistory (NewSubsystem 1))) ls
    /\ StronglySorted (PriorityLe Priority) ls.
Proof.
  refine (proj2 (spatial_cells_stay_sorted 1 ExampleHistory) 1%nat ["A"] 7%nat
            (At 3000 0) _ _ [3; 2] _).
  vm_compute. reflexivity.
Defined.




Lemma ExampleRegistered_Tracked :
  Tracked ExampleRegistered
    {| ReceivedCallback := []; HandleID := 1; MatchType := ExactMatch;
       ListenerStructType := WeakLive 7; Channel := ["A"]; Priority := 50;
       ListenPosition := ExamplePosition; ListenRadius := 2000 |}.
Proof.
  refine (proj1 (TrackingFacts.Register_Tracked ["A"] [] 7%nat ExactMatch 50
                   ExamplePosition 2000 (NewSubsystem 1) _ _)).
  - unfold FitsGrid, IsInt32. vm_compute. repeat split; discriminate.
  - apply CoverageExamples.Unused_NewSubsystem.
Qed.


Lemma spatial_register_unregister_round_trip_witness :
  let r := RegisterListenerInternal ["A"] [] 7 ExactMatch 10 (At 0 0) 100
             ExampleRegistered in
  UnregisterListenerInternal 7 (ID (snd r)) (fst r)
  = SetGlobalHandleID (ID (snd r)) ExampleRegistered.
Proof.
  apply (spatial_register_unregister_round_trip ExampleRegistered).
  - unfold FitsGrid, IsInt32. vm_compute. repeat split; discriminate.
  - apply (NoEmptyCell_step (NewSubsystem 1)
             (OpRegister (ListenerAt 50 [] ExamplePosition 2000))).
    apply NewSubsystem_invariants.
  - apply (Unused_above ExampleRegistered).
    + apply (IdsIssued_step (NewSubsystem 1)
               (OpRegister (ListenerAt 50 [] ExamplePosition 2000)) 0).
      * apply NewSubsystem_invariants.
      * simpl. lia.
      * unfold INT32_MAX. lia.
    + vm_compute. reflexivity.
  - vm_compute. reflexivity.
Defined.



Lemma nonpositive_radius_files_one_cell_witness :
  RelevantGridsOf (At 100 200) (-2000) = [GetGridID (At 100 200)].
Proof.
  apply (nonpositive_radius_files_one_cell (At 100 200) (-2000)).
  unfold Qle. vm_compute. discriminate.
Defined.



End HistoryExamples.

Module RouterExamples.
Import Scenarios StaleScenario.
Import CallbackSpec StaleSpec.

Lemma registered_listener_is_called_witness :
  let w := MessageSubsystemSpec.RunOperations
             [MessageSubsystemSpec.OpRegister
                (MessageSubsystemSpec.PlainListener ["A"] 7 50);
              MessageSubsystemSpec.OpRegister
                (MessageSubsystemSpec.PlainListener ["A"] 7 10);
              MessageSubsystemSpec.OpUnregister 7 1]
             (MessageSubsystem.NewSubsystem 1) in
  let r := MessageSubsystemSpec.PlainListener ["A"] 7 0 in
  exists w' inv,
    MessageSubsystem.BroadcastMessageInternal 1 ["A"] 7 WeakNull
      (MessageSubsystemSpec.Register r w) = Returned (w', ResetResult, inv)
    /\ MessageSubsystem.ID (MessageSubsystemSpec.HandleOf r w) ∈ inv.
Proof.
  refine (proj2 (DeliveryFacts.registered_listener_is_called 1
                   [MessageSubsystemSpec.OpRegister
                      (MessageSubsystemSpec.PlainListener ["A"] 7 50);
                    MessageSubsystemSpec.OpRegister
                      (MessageSubsystemSpec.PlainListener ["A"] 7 10);
                    MessageSubsystemSpec.OpUnregister 7%nat 1]
                   (MessageSubsystemSpec.PlainListener ["A"] 7 0) _ _)
            0%nat ["A"] WeakNull _ _ _).
  - vm_compute. reflexivity.
  - discriminate.
  - match goal with
    | |- Forall _ ?l => let l' := eval vm_compute in l in change l with l'
    end.
    repeat constructor.
  - reflexivity.
  - left. reflexivity.
Defined.

Lemma emptied_type_reuses_handle_ids_witness :
  let w := MessageSubsystem.NewSubsystem 1 in
  let r1 := MessageSubsystemSpec.PlainListener ["A"] 7 50 in
  let r2 := MessageSubsystemSpec.PlainListener ["B"] 7 10 in
  MessageSubsystem.IsValid (MessageSubsystemSpec.HandleOf r1 w) = true
  /\ MessageSubsystem.UnregisterListener (MessageSubsystemSpec.HandleOf r1 w)
       (MessageSubsystemSpec.Register r1 w) = Returned w
  /\ MessageSubsystemSpec.HandleOf r2 w = MessageSubsystemSpec.HandleOf r1 w
  /\ MessageSubsystem.UnregisterListener (MessageSubsystemSpec.HandleOf r1 w)
       (MessageSubsystemSpec.Register r2 w) = Returned w.
Proof.
  apply (HandleReuseFacts.emptied_type_reuses_handle_ids
           (MessageSubsystem.NewSubsystem 1)
           (MessageSubsystemSpec.PlainListener ["A"] 7 50)
           (MessageSubsystemSpec.PlainListener ["B"] 7 10)).
  - reflexivity.
  - apply lookup_empty.
Defined.


Lemma spatial_nested_broadcast_shares_cache_witness :
  (exists w2,
     WorldMessageSubsystem.DispatchLoop
       (WorldMessageSubsystem.BroadcastMessageInternal 1) ["A"] 7
       (WorldScenarios.At 100 200)
       (WorldMessageSubsystemSpec.EntriesAt
          (WorldMessageSubsystem.GetGridID (WorldScenarios.At 100 200))
          WorldScenarios.NestedInterrupt)
       WorldScenarios.NestedInterrupt
     = Returned (w2, [1]))
  /\ WorldMessageSubsystemSpec.InvokedOf ["A"] 7 (WorldScenarios.At 100 200)
       (WorldMessageSubsystemSpec.EntriesAt
          (WorldMessageSubsystem.GetGridID (WorldScenarios.At 100 200))
          WorldScenarios.NestedInterrupt) = [1; 2].
Proof.
  split; [|vm_compute; reflexivity].
  eexists.
  match goal with
  | |- WorldMessageSubsystem.DispatchLoop _ _ _ _ ?l _ = _ =>
      let l' := eval vm_compute in l in change l with l'
  end.
  refine (proj2 (WorldCancelFacts.spatial_nested_broadcast_shares_cache 1)
            ["A"] 7%nat (WorldScenarios.At 100 200) _ _
            WorldScenarios.NestedInterrupt [] ["N"] 8%nat
            (WorldScenarios.At 100 200) WorldScenarios.NestedInterrupt _
            {| bCancelled := true; bInterrupted := true |} [3] _ _ _ _);
    vm_compute; reflexivity.
Defined.

Lemma deinitialize_drops_every_listener_witness :
  MessageSubsystem.UnregisterListener (HandleFor 1 7 1)
    (MessageSubsystemAPI.Deinitialize ThreePriorities)
  = Returned (MessageSubsystemAPI.Deinitialize ThreePriorities)
  /\ WorldMessageSubsystem.UnregisterListener ExampleHandle
       (WorldMessageSubsystemAPI.Deinitialize ExampleRegistered)
     = Returned (WorldMessageSubsystem.UE_LOG
                   (LogWarning
                      "Trying to unregister listener with unknown HandleID")
                   (WorldMessageSubsystemAPI.Deinitialize ExampleRegistered)).
Proof.
  destruct DeinitializeFacts.deinitialize_drops_every_listener
    as (_ & Hg & _ & _ & Hw & _).
  split.
  - apply Hg; reflexivity.
  - apply Hw; reflexivity.
Defined.


Lemma stale_listeners_are_purged_witness :
  exists w',
    MessageSubsystem.BroadcastMessageInternal 1 ["A"] 7 WeakNull OneStale
    = Returned (w', ResetResult,
                InvokedOf ["A"] 7 WeakNull
                  (MessageSubsystemSpec.ListenersFor 7 OneStale))
    /\ Forall (fun id => id ∉ StaleIDs (MessageSubsystemSpec.ListenersFor 7 OneStale))
         (InvokedOf ["A"] 7 WeakNull
            (MessageSubsystemSpec.ListenersFor 7 OneStale))
    /\ MessageSubsystemSpec.ListenersFor 7 w'
       ≡ₚ List.filter (fun L => negb (IsStale L))
            (MessageSubsystemSpec.ListenersFor 7 OneStale)
    /\ MessageSubsystem.LogOutput w'
       = MessageSubsystem.LogOutput OneStale
         ++ replicate
              (length (StaleIDs (MessageSubsystemSpec.ListenersFor 7 OneStale)))
              MessageSubsystem.StaleWarning.
Proof.
  apply (StaleFacts.stale_listeners_are_purged 0 ["A"] 7%nat WeakNull OneStale).
  - match goal with
    | |- NoDup ?l => let l' := eval vm_compute in l in change l with l'
    end.
    apply (bool_decide_unpack _). vm_compute. exact I.
  - match goal with
    | |- Forall _ ?l => let l' := eval vm_compute in l in change l with l'
    end.
    repeat constructor.
Defined.

End RouterExamples.

(** ** Warnings that listeners on record never raise *)

Module WarningFacts.
Import WorldMessageSubsystem WorldMessageSubsystemSpec WorldOperations.
Import GridFacts WorldRegistryFacts TrackingFacts.
Import WorldEffectFacts WorldInvariantFacts RoundTripFacts.



(** X21.  Unregistering a spatial listener that is on record finds it in
    every cell it is looked for in: none of the warnings of
    [UnregisterListenerInternal] is logged. *)
Theorem unregistering_logs_nothing w E ty :
  Tracked w E ->
  FitsGrid (ListenPosition E) (ListenRadius E) ->
  LogOutput (UnregisterListenerInternal ty (HandleID E) w) = LogOutput w.
Proof.
  intros [Hinfo Hcells] Hfit.
  unfold UnregisterListenerInternal. rewrite Hinfo. simpl.
  set (Rel := RelevantGridsOf (ListenPosition E) (ListenRadius E)) in *.
  destruct (fold_RemoveFromGrid_present (HandleID E) Rel
              (NoDup_RelevantGridsOf _ _ Hfit)
              (GridListenerMap w) [] (LogOutput w)) as (_ & _ & Hlog).
  { intros g Hg. specialize (Hcells g). unfold EntriesAt in Hcells.
    rewrite bool_decide_eq_true_2 in Hcells by done.
    unfold ListAt. by rewrite Hcells. }
  cbv zeta in Hlog.
  destruct (fold_left _ Rel _) as [[m cl] log]. simpl in *. done.
Qed.

End WarningFacts.

Module WarningExamples.
Import WorldMessageSubsystem WorldMessageSubsystemSpec WorldOperations.
Import WorldScenarios Scenarios WarningFacts HistoryExamples.


Lemma unregistering_logs_nothing_witness :
  LogOutput (UnregisterListenerInternal 7 1 ExampleRegistered)
  = LogOutput ExampleRegistered.
Proof.
  apply (unregistering_logs_nothing ExampleRegistered
           {| ReceivedCallback := []; HandleID := 1; MatchType := ExactMatch;
              ListenerStructType := WeakLive 7; Channel := ["A"];
              Priority := 50; ListenPosition := ExamplePosition;
              ListenRadius := 2000 |} 7%nat).
  - exact ExampleRegistered_Tracked.
  - unfold FitsGrid, IsInt32. vm_compute. repeat split; discriminate.
Defined.

End WarningExamples.
